(** * Box operation pipeline of objectbox-go (objectbox/box.go)

    A shallow embedding of the Box methods of [objectbox/box.go]: the
    single-object put pipeline, the chunked bulk put, the two bulk-read
    strategies and the many-to-many relation synchronisation.

    The storage engine (the C library behind cgo), the per-entity
    ObjectBinding and the flatbuffers Builder are collaborators of the Box:
    they are records of operations over an abstract environment [St] (the
    engine store together with the Go heap the objects live in).  The Box
    code itself is written in a state monad over a [World]: the
    environment, the process-wide encoder pool and the log of every call
    the Box makes to a collaborator. *)

From Stdlib Require Import ZArith NArith String Lia.
From stdpp Require Import base option list gmap.

Set Warnings "-abstract-large-number,-register-all".

Local Open Scope N_scope.

(** ** Go values *)

(** [uint64] identifiers are [N]; uint64 addition wraps around. *)
Definition uint64_modulus : N := 2 ^ 64.
Definition wrap64 (n : N) : N := n mod uint64_modulus.

(** [C.obx_err]: zero is success. *)
Definition obx_err := Z.

(** A [[]byte], each byte a number below 256; a nil slice handed back by
    the engine is [None] of [option bytes]. *)
Definition bytes := list N.

Inductive OBXPutMode :=
| cPutModePut
| cPutModeInsert
| cPutModeUpdate
| cPutModePutIdGuaranteedToBeNew.

Definition OBXPutMode_eqb (a b : OBXPutMode) : bool :=
  match a, b with
  | cPutModePut, cPutModePut
  | cPutModeInsert, cPutModeInsert
  | cPutModeUpdate, cPutModeUpdate
  | cPutModePutIdGuaranteedToBeNew, cPutModePutIdGuaranteedToBeNew => true
  | _, _ => false
  end.

(** Go [error] values.  [NativeError] is what [createError()] builds from
    the engine's last error; the [fmt.Errorf] errors of box.go are kept
    structured instead of formatted. *)
Inductive GoError :=
| errors_New (msg : string)
| NativeError (code : Z)
| ErrNilTargets (relationId : N)
| ErrSettingId (index : nat) (inner : GoError)
| GoPanic (msg : string).

(** [error] is nil ([None]) or an error value. *)
Definition error := option GoError.

Definition isErr (e : error) : bool :=
  match e with Some _ => true | None => false end.

Definition msgUpdateZeroId : string :=
  "cannot update an object with ID 0 - if it's a new object use Put or Insert instead".

(** ** The call log *)

(** One event per call that box.go makes to a collaborator: the engine
    (cgo calls), the Go runtime, the binding and the encoder pool. *)
Inductive Event {Any : Type} :=
| EvIdForPut (cBox idCandidate : N)
| EvIdsForPut (cBox count : N)
| EvPut5 (cBox id : N) (data : bytes) (mode : OBXPutMode)
| EvPutMany (cBox : N) (data : list bytes) (ids : list N) (mode : OBXPutMode)
| EvGetMany (cBox : N) (ids : list N)
| EvVisitMany (cBox : N) (ids : list N)
| EvRelGetIds (cBox relationId sourceId : N)
| EvRelPut (cBox relationId sourceId targetId : N)
| EvRelRemove (cBox relationId sourceId targetId : N)
| EvTxnBegin (write : bool)
| EvTxnSuccess
| EvTxnClose
| EvLastError
| EvLockOSThread
| EvUnlockOSThread
| EvVisitorRegister
| EvVisitorUnregister
| EvGetId (object : Any)
| EvSetId (object : Any) (id : N)
| EvPutRelated (object : Any) (id : N)
| EvFlatten (object : Any) (id : N)
| EvLoad (data : bytes)
| EvPoolGet
| EvPoolPut.
Arguments Event : clear implicits.

(** Calls that cross the cgo boundary into the engine. *)
Definition is_engine_call {Any} (e : Event Any) : bool :=
  match e with
  | EvIdForPut _ _ | EvIdsForPut _ _ | EvPut5 _ _ _ _ | EvPutMany _ _ _ _
  | EvGetMany _ _ | EvVisitMany _ _
  | EvRelGetIds _ _ _ | EvRelPut _ _ _ _ | EvRelRemove _ _ _ _
  | EvTxnBegin _ | EvTxnSuccess | EvTxnClose | EvLastError => true
  | _ => false
  end.

(** Calls to the allocation primitive [obx_box_id_for_put]. *)
Definition is_id_for_put {Any} (e : Event Any) : bool :=
  match e with EvIdForPut _ _ => true | _ => false end.

Definition is_encode {Any} (e : Event Any) : bool :=
  match e with EvFlatten _ _ => true | _ => false end.


Definition is_rel_remove {Any} (e : Event Any) : bool :=
  match e with EvRelRemove _ _ _ _ => true | _ => false end.

Definition is_rel_get_ids {Any} (e : Event Any) : bool :=
  match e with EvRelGetIds _ _ _ => true | _ => false end.

(** ** Collaborators *)

(** The engine primitives used by box.go, as transitions of the
    environment.  [obx_box_get_many] and [obx_box_rel_get_ids] return
    [None] for a NULL result.  A visit is split in the buffers the engine
    hands to the visitor, in order, and the status it returns once the
    visitor stopped ([true]) or the buffers ran out ([false]). *)
Record Engine {St : Type} := {
  obx_box_id_for_put : N -> N -> St -> N * St;
  obx_box_ids_for_put : N -> N -> St -> (obx_err * N) * St;
  obx_box_put5 : N -> N -> bytes -> OBXPutMode -> St -> obx_err * St;
  obx_box_put_many : N -> list bytes -> list N -> OBXPutMode -> St -> obx_err * St;
  obx_box_get_many : N -> list N -> St -> option (list (option bytes)) * St;
  obx_box_visit_many_data : N -> list N -> St -> list (option bytes);
  obx_box_visit_many_status : N -> list N -> bool -> St -> obx_err * St;
  obx_box_rel_get_ids : N -> N -> N -> St -> option (list N) * St;
  obx_box_rel_put : N -> N -> N -> N -> St -> obx_err * St;
  obx_box_rel_remove : N -> N -> N -> N -> St -> obx_err * St;
  obx_txn_begin : bool -> St -> bool * St;
  obx_txn_success : St -> obx_err * St;
  obx_txn_close : St -> obx_err * St;
  obx_last_error : St -> GoError;
  dataVisitorRegister_result : St -> (N * error) * St;
  dataVisitorUnregister_effect : N -> St -> St;
  goIdsArrayToC_error : list N -> error;
  goBytesArrayToC_error : list bytes -> error;
  supportsResultArray : bool
}.
Arguments Engine : clear implicits.

(** [flatbuffers.Builder]: only the capacity of its buffer, finishing and
    resetting matter to box.go. *)
Record FlatBuffers {Builder : Type} := {
  NewBuilder : Builder;
  cap_Bytes : Builder -> N;
  Finish_EndObject : Builder -> Builder;
  FinishedBytes : Builder -> bytes;
  Reset : Builder -> Builder
}.
Arguments FlatBuffers : clear implicits.

(** The ObjectBinding interface.  An object is a Go [interface{}] value
    ([Any]); nil is [None].  [GetId] and [Flatten] only read the object. *)
Record ObjectBinding {St Any Builder : Type} := {
  GetId : Any -> St -> N * error;
  SetId : Any -> N -> St -> error * St;
  PutRelated : Any -> N -> St -> error * St;
  Flatten : Any -> Builder -> N -> St -> Builder * error;
  Load : bytes -> St -> (option Any * error) * St;
  MakeSlice : nat -> Any;
  AppendToSlice : Any -> option Any -> Any
}.
Arguments ObjectBinding : clear implicits.

(** A Box: the engine handle of its collection and its entity descriptor. *)
Record Box {St Any Builder : Type} := {
  cBox : N;
  hasRelations : bool;
  binding : ObjectBinding St Any Builder
}.
Arguments Box : clear implicits.

Record RelationToMany := {
  relation_Id : N;
  relation_Target_Id : N
}.

(** ** The state monad of the Box code *)

Record World {St Any Builder : Type} := mkWorld {
  env : St;
  fbbPool : list Builder;
  trace : list (Event Any)
}.
Arguments World : clear implicits.
Arguments mkWorld {St Any Builder} _ _ _.

Definition M (St Any Builder A : Type) : Type :=
  World St Any Builder -> A * World St Any Builder.

Section Monad.
Context {St Any Builder : Type}.

Definition ret {A} (a : A) : M St Any Builder A := fun w => (a, w).

Definition bind {A B} (m : M St Any Builder A) (k : A -> M St Any Builder B) :
  M St Any Builder B :=
  fun w => let (a, w') := m w in k a w'.

Definition emit (e : Event Any) : M St Any Builder unit :=
  fun w => (tt, mkWorld (env w) (fbbPool w) (trace w ++ [e])).

(** A state-changing call to a collaborator, logged as [e]. *)
Definition call {A} (e : Event Any) (f : St -> A * St) : M St Any Builder A :=
  fun w => let (a, s) := f (env w) in
           (a, mkWorld s (fbbPool w) (trace w ++ [e])).

(** A read-only call to a collaborator, logged as [e]. *)
Definition query {A} (e : Event Any) (f : St -> A) : M St Any Builder A :=
  fun w => (f (env w), mkWorld (env w) (fbbPool w) (trace w ++ [e])).

End Monad.

Notation "x <- m ; k" := (bind m (fun x => k))
  (at level 20, m at level 100, k at level 200, only parsing).
Notation "' pat <- m ; k" := (bind m (fun x => match x with pat => k end))
  (at level 20, pat pattern, m at level 100, k at level 200, only parsing).

(** ** box.go *)

Section BoxGo.
Context {St Any Builder : Type}.
Variable eng : Engine St.
Variable fb : FlatBuffers Builder.

(** [ObjectBox.box(entityId)]: the Box of an entity, or the error of
    creating it.  [InternalBox] panics on that error. *)
Variable ObjectBox_box : N -> Box St Any Builder + GoError.

(** A state change of a call that is already in the log. *)
Definition silent {A} (f : St -> A * St) : M St Any Builder A :=
  fun w => let (a, s) := f (env w) in (a, mkWorld s (fbbPool w) (trace w)).

(** Modelled from the spec: [createError] lives in another file of the
    package; §7: the native status is wrapped into a uniform error value,
    here the engine's last error. *)
Definition createError : M St Any Builder error :=
  g <- query EvLastError (obx_last_error eng) ; ret (Some g).

(** Modelled from the spec: [cCall] lives in another file of the package;
    §6 has every engine primitive return "a native status convertible to an
    error": status zero is nil, any other status is the engine's last
    error. *)
Definition cCall (e : Event Any) (f : St -> obx_err * St) : M St Any Builder error :=
  rc <- call e f ;
  if Z.eqb rc 0 then ret None else createError.

(** Modelled from the spec: the end of a transaction, part of
    [RunInReadTx] and [RunInWriteTx] below; §2: a transaction is always
    closed, committed or rolled back, before control returns; §7: an error
    of the callback aborts and rolls back the transaction and is returned
    unchanged.  A write transaction whose callback succeeded is committed,
    which ends it; any other transaction is closed without a commit. *)
Definition txnEnd (write : bool) (err : error) : M St Any Builder error :=
  if isErr err || negb write then
    rc <- call EvTxnClose (obx_txn_close eng) ;
    if isErr err || Z.eqb rc 0 then ret err else createError
  else cCall EvTxnSuccess (obx_txn_success eng).

(** Modelled from the spec: [RunInReadTx] and [RunInWriteTx] live in
    another file of the package; §2: a read or write scope bracketing the
    engine calls of [fn], closed before control returns.  [fn] is a
    closure: the locals it captures and assigns are its value [A], [dflt]
    when the transaction did not begin and [fn] never ran. *)
Definition runInTxn {A} (write : bool) (dflt : A) (fn : M St Any Builder (A * error)) :
  M St Any Builder (A * error) :=
  ok <- call (EvTxnBegin write) (obx_txn_begin eng write) ;
  if ok : bool then
    '(a, err) <- fn ;
    err <- txnEnd write err ;
    ret (a, err)
  else
    err <- createError ; ret (dflt, err).

Definition RunInWriteTx {A} := @runInTxn A true.
Definition RunInReadTx {A} := @runInTxn A false.

(** A Go [for] loop over [l] with early return on error; [s] holds the
    locals the body assigns. *)
Fixpoint forEach {X S} (l : list X) (body : X -> S -> M St Any Builder (S * error))
  (s : S) : M St Any Builder (S * error) :=
  match l with
  | [] => ret (s, None)
  | x :: l' =>
      '(s', err) <- body x s ;
      match err with
      | Some e => ret (s', Some e)
      | None => forEach l' body s'
      end
  end.

(** [reflect.Value.IsNil()] of a slice; a nil slice is [None]. *)
Definition IsNil (targetObjects : option (list Any)) : bool :=
  match targetObjects with None => true | Some _ => false end.

(** [reflect.Value.Index(i).Interface()] on a slice: panics out of range. *)
Definition slice_Index (objects : list Any) (i : nat) : Any + GoError :=
  match objects !! i with
  | Some o => inl o
  | None => inr (GoPanic "reflect: slice index out of range")
  end.

Definition idForPut (box : Box St Any Builder) (idCandidate : N) :
  M St Any Builder (N * error) :=
  id <- call (EvIdForPut (cBox box) idCandidate)
             (obx_box_id_for_put eng (cBox box) idCandidate) ;
  if id =? 0 then
    _ <- emit EvLockOSThread ;
    id <- call (EvIdForPut (cBox box) idCandidate)
               (obx_box_id_for_put eng (cBox box) idCandidate) ;
    err <- (if id =? 0 then createError else ret None) ;
    _ <- emit EvUnlockOSThread ;
    ret (id, err)
  else ret (id, None).

Definition idsForPut (box : Box St Any Builder) (count : nat) :
  M St Any Builder (N * error) :=
  match count with
  | O => ret (0, None)
  | _ =>
      '(rc, cFirstID) <- call (EvIdsForPut (cBox box) (N.of_nat count))
                              (obx_box_ids_for_put eng (cBox box) (N.of_nat count)) ;
      if Z.eqb rc 0 then ret (cFirstID, None)
      else err <- createError ; ret (0, err)
  end.

(** [fbbPool.Get()]: a pooled builder, or a new one when the pool is empty. *)
Definition fbbPool_Get : M St Any Builder Builder :=
  fun w =>
    match fbbPool w with
    | fbb :: rest => (fbb, mkWorld (env w) rest (trace w ++ [EvPoolGet]))
    | [] => (NewBuilder fb, mkWorld (env w) [] (trace w ++ [EvPoolGet]))
    end.

Definition fbbPool_Put (fbb : Builder) : M St Any Builder unit :=
  fun w => (tt, mkWorld (env w) (fbb :: fbbPool w) (trace w ++ [EvPoolPut])).

(** [fn] is a closure; [A] holds the locals it assigns, [dflt] their value
    when it is not run. *)
Definition withObjectBytes {A} (box : Box St Any Builder) (object : Any) (id : N)
  (dflt : A) (fn : bytes -> M St Any Builder (A * error)) : M St Any Builder (A * error) :=
  fbb <- fbbPool_Get ;
  '(fbb, err) <- query (EvFlatten object id) (Flatten (binding box) object fbb id) ;
  '(fbb, r) <- match err with
               | None =>
                   let fbb := Finish_EndObject fb fbb in
                   r <- fn (FinishedBytes fb fbb) ; ret (fbb, r)
               | Some e => ret (fbb, (dflt, Some e))
               end ;
  _ <- (if cap_Bytes fb fbb <? 1024 * 1024
        then fbbPool_Put (Reset fb fbb) else ret tt) ;
  ret r.

Definition putOne (box : Box St Any Builder) (id : N) (object : Any)
  (putMode : OBXPutMode) : M St Any Builder error :=
  err <- (if hasRelations box
          then call (EvPutRelated object id) (PutRelated (binding box) object id)
          else ret None) ;
  match err with
  | Some e => ret (Some e)
  | None =>
      '(_, err) <- withObjectBytes box object id tt (fun data =>
        err <- cCall (EvPut5 (cBox box) id data putMode)
                     (obx_box_put5 eng (cBox box) id data putMode) ;
        ret (tt, err)) ;
      ret err
  end.

Definition put (box : Box St Any Builder) (object : Any) (alreadyInTx : bool)
  (putMode : OBXPutMode) : M St Any Builder (N * error) :=
  '(idFromObject, err) <- query (EvGetId object) (GetId (binding box) object) ;
  match err with
  | Some e => ret (0, Some e)
  | None =>
      '(id, err) <- (if OBXPutMode_eqb putMode cPutModeUpdate then
                       if idFromObject =? 0
                       then ret (0, Some (errors_New msgUpdateZeroId))
                       else ret (idFromObject, None)
                     else idForPut box idFromObject) ;
      match err with
      | Some e => ret (0, Some e)
      | None =>
          err <- (if hasRelations box && negb alreadyInTx then
                    '(_, err) <- RunInWriteTx tt
                       (err <- putOne box id object putMode ; ret (tt, err)) ;
                    ret err
                  else putOne box id object putMode) ;
          err <- (if negb (isErr err) && negb (idFromObject =? id)
                  then call (EvSetId object id) (SetId (binding box) object id)
                  else ret err) ;
          ret (if isErr err then 0 else id, err)
      end
  end.

Definition Put (box : Box St Any Builder) (object : Any) :=
  put box object false cPutModePut.

Definition Insert (box : Box St Any Builder) (object : Any) :=
  put box object false cPutModeInsert.

Definition Update (box : Box St Any Builder) (object : Any) : M St Any Builder error :=
  '(_, err) <- put box object false cPutModeUpdate ; ret err.


(** The first loop of [putManyObjects]: the locals it assigns are [outIds],
    [putMode] and [indexesNewObjects]. *)
Definition collectStep (box : Box St Any Builder) (objects : list Any) (start : nat)
  (i : nat) (locals : list N * OBXPutMode * list nat) :
  M St Any Builder ((list N * OBXPutMode * list nat) * error) :=
  let '(outIds, putMode, indexesNewObjects) := locals in
  let index := (start + i)%nat in
  match slice_Index objects index with
  | inr p => ret ((outIds, putMode, indexesNewObjects), Some p)
  | inl object =>
      '(id, err) <- query (EvGetId object) (GetId (binding box) object) ;
      match err with
      | Some e => ret ((outIds, putMode, indexesNewObjects), Some e)
      | None =>
          if 0 <? id
          then ret ((<[index := id]> outIds, cPutModePut, indexesNewObjects), None)
          else ret ((outIds, putMode, indexesNewObjects ++ [index]), None)
      end
  end.

Definition collectIds (box : Box St Any Builder) (objects : list Any) (start count : nat)
  (outIds : list N) :
  M St Any Builder ((list N * OBXPutMode * list nat) * error) :=
  forEach (seq 0 count) (collectStep box objects start)
          (outIds, cPutModePutIdGuaranteedToBeNew, []).

(** [outIds[indexesNewObjects[i]] = firstNewId + uint64(i)]. *)
Fixpoint assignNewIds (indexesNewObjects : list nat) (firstNewId : N) (i : nat)
  (outIds : list N) : list N :=
  match indexesNewObjects with
  | [] => outIds
  | index :: rest =>
      assignNewIds rest firstNewId (S i)
        (<[index := wrap64 (firstNewId + N.of_nat i)]> outIds)
  end.

(** The second loop of [putManyObjects]: relation fan-out and encoding of
    each object of the chunk; it assigns [objectsBytes]. *)
Definition flattenStep (box : Box St Any Builder) (objects : list Any) (start : nat)
  (outIds : list N) (i : nat) (objectsBytes : list bytes) :
  M St Any Builder (list bytes * error) :=
  let key := (start + i)%nat in
  match slice_Index objects key with
  | inr p => ret (objectsBytes, Some p)
  | inl object =>
      err <- (if hasRelations box
              then call (EvPutRelated object (outIds !!! key))
                        (PutRelated (binding box) object (outIds !!! key))
              else ret None) ;
      match err with
      | Some e => ret (objectsBytes, Some e)
      | None =>
          withObjectBytes box object (outIds !!! key) objectsBytes (fun data =>
            ret (<[i := data]> objectsBytes, None))
      end
  end.

Definition flattenObjects (box : Box St Any Builder) (objects : list Any) (start count : nat)
  (outIds : list N) : M St Any Builder (list bytes * error) :=
  forEach (seq 0 count) (flattenStep box objects start outIds) (replicate count []).

(** The last loop of [putManyObjects]: ids are written back onto the new
    objects. *)
Definition setIdStep (box : Box St Any Builder) (objects : list Any) (outIds : list N)
  (index : nat) (_ : unit) : M St Any Builder (unit * error) :=
  match slice_Index objects index with
  | inr p => ret (tt, Some p)
  | inl object =>
      err <- call (EvSetId object (outIds !!! index))
                  (SetId (binding box) object (outIds !!! index)) ;
      match err with
      | Some e => ret (tt, Some (ErrSettingId index e))
      | None => ret (tt, None)
      end
  end.

Definition setNewIds (box : Box St Any Builder) (objects : list Any)
  (indexesNewObjects : list nat) (outIds : list N) : M St Any Builder (unit * error) :=
  forEach indexesNewObjects (setIdStep box objects outIds) tt.

(** [putManyObjects] writes into the caller's [outIds]: the slice is passed
    in and handed back. *)
Definition putManyObjects (box : Box St Any Builder) (objects : list Any)
  (outIds : list N) (start end_ : nat) : M St Any Builder (list N * error) :=
  let count := (end_ - start)%nat in
  '((outIds, putMode, indexesNewObjects), err) <- collectIds box objects start count outIds ;
  match err with
  | Some e => ret (outIds, Some e)
  | None =>
      '(firstNewId, err) <- idsForPut box (length indexesNewObjects) ;
      match err with
      | Some e => ret (outIds, Some e)
      | None =>
          let outIds := assignNewIds indexesNewObjects firstNewId 0 outIds in
          '(objectsBytes, err) <- flattenObjects box objects start count outIds ;
          match err with
          | Some e => ret (outIds, Some e)
          | None =>
              match goBytesArrayToC_error eng objectsBytes with
              | Some e => ret (outIds, Some e)
              | None =>
                  let idsArray := take count (drop start outIds) in
                  err <- cCall (EvPutMany (cBox box) objectsBytes idsArray putMode)
                               (obx_box_put_many eng (cBox box) objectsBytes idsArray putMode) ;
                  match err with
                  | Some e => ret (outIds, Some e)
                  | None =>
                      '(_, err) <- setNewIds box objects indexesNewObjects outIds ;
                      ret (outIds, err)
                  end
              end
          end
      end
  end.

Definition chunkSize : nat := 10000.

(** One round of the chunk loop of [PutMany]. *)
Definition putChunk (box : Box St Any Builder) (objects : list Any) (count : nat)
  (c : nat) (ids : list N) : M St Any Builder (list N * error) :=
  let start := (c * chunkSize)%nat in
  let end_ := (start + chunkSize)%nat in
  let end_ := if (count <? end_)%nat then count else end_ in
  putManyObjects box objects ids start end_.

Definition putChunks (box : Box St Any Builder) (objects : list Any) (count : nat)
  (ids : list N) : M St Any Builder (list N * error) :=
  let chunks := (count / chunkSize + (if (count mod chunkSize =? 0)%nat then 0 else 1))%nat in
  forEach (seq 0 chunks) (putChunk box objects count) ids.

(** One round of the one-by-one loop of [PutMany] for an engine without
    result arrays. *)
Definition putEachStep (box : Box St Any Builder) (objects : list Any)
  (i : nat) (ids : list N) : M St Any Builder (list N * error) :=
  match slice_Index objects i with
  | inr p => ret (ids, Some p)
  | inl object =>
      '(id, err) <- put box object true cPutModePut ;
      match err with
      | Some e => ret (ids, Some e)
      | None => ret (<[i := id]> ids, None)
      end
  end.

Definition putEach (box : Box St Any Builder) (objects : list Any) (count : nat)
  (ids : list N) : M St Any Builder (list N * error) :=
  forEach (seq 0 count) (putEachStep box objects) ids.

(** [PutMany]: the result is [None] for a nil slice of ids. *)
Definition PutMany (box : Box St Any Builder) (objects : list Any) :
  M St Any Builder (option (list N) * error) :=
  let count := length objects in
  match count with
  | O => ret (Some [], None)
  | _ =>
      let ids := replicate count 0 in
      '(ids, err) <- RunInWriteTx ids
        (if supportsResultArray eng
         then putChunks box objects count ids
         else putEach box objects count ids) ;
      match err with
      | Some e => ret (None, Some e)
      | None => ret (Some ids, None)
      end
  end.

Definition defaultSliceCapacity : nat := 16.

(** Modelled from the spec: [cGetBytesArray] lives in another file of the
    package; §4.4: the bulk call returns a parallel array of byte buffers
    with nil entries for missing ids, and a failed call is the engine's
    last error. *)
Definition cGetBytesArray (box : Box St Any Builder) (ids : list N) :
  M St Any Builder (list (option bytes) * error) :=
  r <- call (EvGetMany (cBox box) ids) (obx_box_get_many eng (cBox box) ids) ;
  match r with
  | Some bytesArray => ret (bytesArray, None)
  | None => err <- createError ; ret ([], err)
  end.

(** The body of the decode loop of [readManyObjects]; it assigns [slice]. *)
Definition loadInto (box : Box St Any Builder) (existingOnly : bool)
  (bytesData : option bytes) (slice : Any) : M St Any Builder (Any * error) :=
  match bytesData with
  | None =>
      if negb existingOnly
      then ret (AppendToSlice (binding box) slice None, None)
      else ret (slice, None)
  | Some data =>
      '(object, err) <- call (EvLoad data) (Load (binding box) data) ;
      match err with
      | Some e => ret (slice, Some e)
      | None => ret (AppendToSlice (binding box) slice object, None)
      end
  end.

(** [cFn] is the engine call of the caller, here always
    [obx_box_get_many] on the given ids. *)
Definition readManyObjects (box : Box St Any Builder) (existingOnly : bool) (ids : list N) :
  M St Any Builder (option Any * error) :=
  '(slice, err) <- RunInReadTx None
    ('(bytesArray, err) <- cGetBytesArray box ids ;
     match err with
     | Some e => ret (None, Some e)
     | None =>
         '(slice, err) <- forEach bytesArray (loadInto box existingOnly)
                                  (MakeSlice (binding box) (length bytesArray)) ;
         ret (Some slice, err)
     end) ;
  match err with
  | Some e => ret (None, Some e)
  | None => ret (slice, None)
  end.

(** The visitor closure of [readUsingVisitor]; it assigns the captured
    [slice] and [err] and returns whether the engine should go on. *)
Definition visitorCallback (box : Box St Any Builder) (existingOnly : bool)
  (data : option bytes) (slice : Any) (err : error) :
  M St Any Builder ((Any * error) * bool) :=
  match data with
  | None =>
      if negb existingOnly
      then ret ((AppendToSlice (binding box) slice None, err), true)
      else ret ((slice, err), true)
  | Some data =>
      '(object, err2) <- call (EvLoad data) (Load (binding box) data) ;
      match err2 with
      | Some e => ret ((slice, Some e), false)
      | None => ret ((AppendToSlice (binding box) slice object, err), true)
      end
  end.

(** Modelled from the spec: the engine side of a visit and the
    [dataVisitor] trampoline live outside box.go; §4.4: the callback is
    invoked once per buffer, in order, and may stop the visit by returning
    false; the result tells whether it did. *)
Fixpoint visitLoop (box : Box St Any Builder) (existingOnly : bool)
  (buffers : list (option bytes)) (slice : Any) (err : error) :
  M St Any Builder ((Any * error) * bool) :=
  match buffers with
  | [] => ret ((slice, err), false)
  | data :: rest =>
      '((slice, err), goOn) <- visitorCallback box existingOnly data slice err ;
      if goOn : bool then visitLoop box existingOnly rest slice err
      else ret ((slice, err), true)
  end.

(** [obx_box_visit_many(box.cBox, cIds, dataVisitor, visitorArg)]. *)
Definition obx_box_visit_many (box : Box St Any Builder) (existingOnly : bool)
  (ids : list N) (slice : Any) (err : error) :
  M St Any Builder ((Any * error) * obx_err) :=
  buffers <- query (EvVisitMany (cBox box) ids)
                   (obx_box_visit_many_data eng (cBox box) ids) ;
  '(r, stopped) <- visitLoop box existingOnly buffers slice err ;
  rc <- silent (obx_box_visit_many_status eng (cBox box) ids stopped) ;
  ret (r, rc).

(** [var err2 = box.ObjectBox.RunInReadTx(...)]: the visit inside its read
    transaction; the closure assigns the captured [slice] and [err], and the
    second component is the transaction-level error [err2]. *)
Definition visitInReadTx (box : Box St Any Builder) (existingOnly : bool) (ids : list N)
  (slice : Any) (err : error) : M St Any Builder ((Any * error) * error) :=
  RunInReadTx (slice, err)
    ('(r, rc) <- obx_box_visit_many box existingOnly ids slice err ;
     err2 <- (if Z.eqb rc 0 then ret None else createError) ;
     ret (r, err2)).

(** [cFn] is the engine call of the caller, here always
    [obx_box_visit_many] on the given ids. *)
Definition readUsingVisitor (box : Box St Any Builder) (existingOnly : bool) (ids : list N) :
  M St Any Builder (option Any * error) :=
  '(visitor, err) <- call EvVisitorRegister (dataVisitorRegister_result eng) ;
  match err with
  | Some e => ret (None, Some e)
  | None =>
      let slice := MakeSlice (binding box) defaultSliceCapacity in
      '((slice, err), err2) <- visitInReadTx box existingOnly ids slice err ;
      _ <- call EvVisitorUnregister
                (fun s => (tt, dataVisitorUnregister_effect eng visitor s)) ;
      match err2 with
      | Some e2 => ret (None, Some e2)
      | None =>
          match err with
          | Some e => ret (None, Some e)
          | None => ret (Some slice, None)
          end
      end
  end.

Definition GetMany (box : Box St Any Builder) (ids : list N) :
  M St Any Builder (option Any * error) :=
  match goIdsArrayToC_error eng ids with
  | Some e => ret (None, Some e)
  | None =>
      if supportsResultArray eng
      then readManyObjects box false ids
      else readUsingVisitor box false ids
  end.

Definition GetManyExisting (box : Box St Any Builder) (ids : list N) :
  M St Any Builder (option Any * error) :=
  match goIdsArrayToC_error eng ids with
  | Some e => ret (None, Some e)
  | None =>
      if supportsResultArray eng
      then readManyObjects box true ids
      else readUsingVisitor box true ids
  end.

(** Modelled from the spec: [cGetIds] lives in another file of the package;
    a NULL id array is the engine's last error. *)
Definition cGetIds (e : Event Any) (f : St -> option (list N) * St) :
  M St Any Builder (option (list N) * error) :=
  r <- call e f ;
  match r with
  | Some ids => ret (Some ids, None)
  | None => err <- createError ; ret (None, err)
  end.

Definition RelationIds (box : Box St Any Builder) (relation : RelationToMany) (sourceId : N) :
  M St Any Builder (option (list N) * error) :=
  match ObjectBox_box (relation_Target_Id relation) with
  | inr e => ret (None, Some e)
  | inl targetBox =>
      cGetIds (EvRelGetIds (cBox targetBox) (relation_Id relation) sourceId)
              (obx_box_rel_get_ids eng (cBox targetBox) (relation_Id relation) sourceId)
  end.

Definition RelationPut (box : Box St Any Builder) (relation : RelationToMany)
  (sourceId targetId : N) : M St Any Builder error :=
  cCall (EvRelPut (cBox box) (relation_Id relation) sourceId targetId)
        (obx_box_rel_put eng (cBox box) (relation_Id relation) sourceId targetId).

Definition RelationRemove (box : Box St Any Builder) (relation : RelationToMany)
  (sourceId targetId : N) : M St Any Builder error :=
  cCall (EvRelRemove (cBox box) (relation_Id relation) sourceId targetId)
        (obx_box_rel_remove eng (cBox box) (relation_Id relation) sourceId targetId).

(** [idsToRemove[rId]] of a Go [map[uint64]bool]: false when absent. *)
Definition map_get (idsToRemove : gmap N bool) (rId : N) : bool :=
  default false (idsToRemove !! rId).

(** [for _, rId := range oldRelIds { idsToRemove[rId] = true }]. *)
Definition markOld (oldRelIds : list N) (idsToRemove : gmap N bool) : gmap N bool :=
  foldl (fun m rId => <[rId := true]> m) idsToRemove oldRelIds.

(** One round of the walk over the desired targets; it assigns
    [idsToRemove]. *)
Definition syncStep (box targetBox : Box St Any Builder) (relation : RelationToMany)
  (sourceId : N) (rel : Any) (idsToRemove : gmap N bool) :
  M St Any Builder (gmap N bool * error) :=
  '(rId, err) <- query (EvGetId rel) (GetId (binding targetBox) rel) ;
  match err with
  | Some e => ret (idsToRemove, Some e)
  | None =>
      '(rId, err) <- (if rId =? 0 then Put targetBox rel else ret (rId, None)) ;
      match err with
      | Some e => ret (idsToRemove, Some e)
      | None =>
          if map_get idsToRemove rId
          then ret (delete rId idsToRemove, None)
          else err <- RelationPut box relation sourceId rId ;
               ret (idsToRemove, err)
      end
  end.

Definition syncTargets (box targetBox : Box St Any Builder) (relation : RelationToMany)
  (sourceId : N) (targets : list Any) (idsToRemove : gmap N bool) :
  M St Any Builder (gmap N bool * error) :=
  forEach targets (syncStep box targetBox relation sourceId) idsToRemove.

Definition removeStep (box : Box St Any Builder) (relation : RelationToMany)
  (sourceId : N) (rId : N) (_ : unit) : M St Any Builder (unit * error) :=
  err <- RelationRemove box relation sourceId rId ; ret (tt, err).

(** [for rId := range idsToRemove]: Go leaves the order open; the keys are
    taken in the order of [map_to_list]. *)
Definition removeLeft (box : Box St Any Builder) (relation : RelationToMany)
  (sourceId : N) (idsToRemove : gmap N bool) : M St Any Builder (unit * error) :=
  forEach (map_to_list idsToRemove).*1 (removeStep box relation sourceId) tt.

(** The closure run in the write transaction of [RelationReplace]. *)
Definition replaceInTx (box : Box St Any Builder) (relation : RelationToMany)
  (sourceId id : N) (targets : list Any) : M St Any Builder (unit * error) :=
  '(idsToRemove, err) <-
    (if negb (id =? 0) then
       '(oldRelIds, err) <- RelationIds box relation sourceId ;
       match err with
       | Some e => ret (∅, Some e)
       | None => ret (markOld (default [] oldRelIds) ∅, None)
       end
     else ret (∅, None)) ;
  match err with
  | Some e => ret (tt, Some e)
  | None =>
      '(idsToRemove, err) <-
        (if (0 <? length targets)%nat then
           match ObjectBox_box (relation_Target_Id relation) with
           | inr _ => ret (idsToRemove, Some (GoPanic "InternalBox"))
           | inl targetBox => syncTargets box targetBox relation sourceId targets idsToRemove
           end
         else ret (idsToRemove, None)) ;
      match err with
      | Some e => ret (tt, Some e)
      | None => removeLeft box relation sourceId idsToRemove
      end
  end.

(** [targetObjects] is [None] for a nil slice. *)
Definition RelationReplace (box : Box St Any Builder) (relation : RelationToMany)
  (sourceId : N) (sourceObject : Any) (targetObjects : option (list Any)) :
  M St Any Builder error :=
  '(id, err) <- query (EvGetId sourceObject) (GetId (binding box) sourceObject) ;
  match err with
  | Some e => ret (Some e)
  | None =>
      if IsNil targetObjects && negb (id =? 0)
      then ret (Some (ErrNilTargets (relation_Id relation)))
      else
        '(_, err) <- RunInWriteTx tt
          (replaceInTx box relation sourceId id (default [] targetObjects)) ;
        ret err
  end.


(** ** Properties of the put pipeline *)

(** Unfolds the monad operations and the record projections of a run. *)
Ltac mred :=
  repeat (progress (unfold bind, ret, emit, call, query, silent, createError, cCall, txnEnd;
                    cbn [fst snd env fbbPool trace isErr orb andb negb];
                    try change ((0 =? 0)%Z) with true)).

(** The events a computation appends to the log, started in [w]. *)
Definition events_of {A} (m : M St Any Builder A) (w : World St Any Builder) :
  list (Event Any) :=
  drop (length (trace w)) (trace (m w).2).

Definition count_events (p : Event Any -> bool) (evs : list (Event Any)) : nat :=
  length (List.filter p evs).

Lemma events_of_app {A} (m : M St Any Builder A) w evs :
  trace (m w).2 = trace w ++ evs -> events_of m w = evs.
Proof.
  intros H. unfold events_of. rewrite H. by rewrite drop_app_length.
Qed.

(** What a run of [idForPut] returns and logs, by the outcome of the two
    engine calls. *)
Lemma idForPut_run (box : Box St Any Builder) (idCandidate : N) (w : World St Any Builder) :
  let first := obx_box_id_for_put eng (cBox box) idCandidate (env w) in
  let second := obx_box_id_for_put eng (cBox box) idCandidate first.2 in
  let call := EvIdForPut (cBox box) idCandidate in
  idForPut box idCandidate w =
    if first.1 =? 0 then
      if second.1 =? 0 then
        ((0, Some (obx_last_error eng second.2)),
         mkWorld second.2 (fbbPool w)
           (trace w ++ [call; EvLockOSThread; call; EvLastError; EvUnlockOSThread]))
      else
        ((second.1, None),
         mkWorld second.2 (fbbPool w)
           (trace w ++ [call; EvLockOSThread; call; EvUnlockOSThread]))
    else ((first.1, None), mkWorld first.2 (fbbPool w) (trace w ++ [call])).
Proof.
  cbv zeta. unfold idForPut. mred.
  destruct (obx_box_id_for_put eng (cBox box) idCandidate (env w)) as [id1 s1]. mred.
  destruct (N.eqb_spec id1 0) as [-> | Hne1]; mred; [| done].
  destruct (obx_box_id_for_put eng (cBox box) idCandidate s1) as [id2 s2]. mred.
  destruct (N.eqb_spec id2 0) as [-> | Hne2]; mred; by rewrite <- ?app_assoc.
Qed.

(** C8. [idForPut] calls the allocation primitive once when the first call
    returns a nonzero id, and twice when it returns 0, the second call
    between [LockOSThread] and [UnlockOSThread]; it returns an error exactly
    when both calls return 0, and a successful retry returns the retried id
    and no error. *)
Theorem idForPut_retries_once_on_failure (box : Box St Any Builder) (idCandidate : N)
  (w : World St Any Builder) :
  let first := obx_box_id_for_put eng (cBox box) idCandidate (env w) in
  let second := obx_box_id_for_put eng (cBox box) idCandidate first.2 in
  let call := EvIdForPut (cBox box) idCandidate in
  let r := idForPut box idCandidate w in
  let evs := events_of (idForPut box idCandidate) w in
  (first.1 <> 0 ->
     evs = [call] /\ count_events is_id_for_put evs = 1%nat /\ r.1 = (first.1, None)) /\
  (first.1 = 0 ->
     evs = [call; EvLockOSThread; call]
             ++ (if second.1 =? 0 then [EvLastError] else []) ++ [EvUnlockOSThread] /\
     count_events is_id_for_put evs = 2%nat /\ r.1.1 = second.1) /\
  (is_Some r.1.2 <-> first.1 = 0 /\ second.1 = 0) /\
  (first.1 = 0 -> second.1 <> 0 -> r.1 = (second.1, None)).
Proof.
  intros first second call0 r evs. subst r evs. unfold events_of.
  rewrite idForPut_run. fold first second call0.
  destruct (N.eqb_spec first.1 0) as [E1 | E1];
    [destruct (N.eqb_spec second.1 0) as [E2 | E2] |];
    cbn [fst snd trace]; rewrite drop_app_length;
    repeat split; try done; try (by eexists); try (by intros [? ?]).
Qed.

(** C3. Whatever the mode and whether or not a transaction is open, a
    failed [put] returns the identifier 0, also when an id was already
    resolved by the allocator. *)
Theorem put_failure_returns_zero (box : Box St Any Builder) (object : Any)
  (alreadyInTx : bool) (putMode : OBXPutMode) (w w' : World St Any Builder)
  (id : N) (err : error) :
  put box object alreadyInTx putMode w = ((id, err), w') ->
  isErr err = true ->
  id = 0.
Proof.
  unfold put, bind, ret. intros H Herr.
  repeat case_match; simplify_eq; try done.
  all: cbn in Herr; by rewrite ?Herr in *.
Qed.

(** C4. [Update] of an object whose id is 0 fails with the descriptive
    error; the only call it makes is the binding's [GetId]: the engine, the
    encoder pool and the environment are left as they were. *)
Theorem Update_zero_id_fails_before_engine (box : Box St Any Builder) (object : Any)
  (w : World St Any Builder) :
  GetId (binding box) object (env w) = (0, None) ->
  Update box object w =
    (Some (errors_New msgUpdateZeroId),
     mkWorld (env w) (fbbPool w) (trace w ++ [EvGetId object])) /\
  events_of (Update box object) w = [EvGetId object] /\
  count_events is_engine_call (events_of (Update box object) w) = 0%nat /\
  count_events is_encode (events_of (Update box object) w) = 0%nat.
Proof.
  intros H.
  assert (Update box object w =
    (Some (errors_New msgUpdateZeroId),
     mkWorld (env w) (fbbPool w) (trace w ++ [EvGetId object]))) as E.
  { unfold Update, put, bind, query, ret. rewrite H. reflexivity. }
  assert (events_of (Update box object) w = [EvGetId object]) as Ev.
  { apply events_of_app. by rewrite E. }
  rewrite Ev. done.
Qed.


(** ** The encoder pool *)

Definition poolThreshold : N := 1024 * 1024.

(** Every encoder retained in the pool has a buffer below the threshold. *)
Definition pool_bounded (pool : list Builder) : Prop :=
  Forall (fun fbb => cap_Bytes fb fbb < poolThreshold) pool.

(** The encoder [withObjectBytes] holds when it decides about the pool:
    the one taken from the pool (or a new one), after [Flatten] and, when
    that succeeded, after [Finish]. *)
Definition encoderAfter (box : Box St Any Builder) (object : Any) (id : N)
  (w : World St Any Builder) : Builder :=
  let fbb := hd (NewBuilder fb) (fbbPool w) in
  let flat := Flatten (binding box) object fbb id (env w) in
  if isErr flat.2 then flat.1 else Finish_EndObject fb flat.1.

(** What [withObjectBytes] leaves in the pool when its callback does not
    touch the pool. *)
Lemma withObjectBytes_pool {A} (box : Box St Any Builder) (object : Any) (id : N)
  (dflt : A) (fn : bytes -> M St Any Builder (A * error)) (w : World St Any Builder) :
  (forall data w0, fbbPool (fn data w0).2 = fbbPool w0) ->
  let fbb := encoderAfter box object id w in
  fbbPool (withObjectBytes box object id dflt fn w).2 =
    (if cap_Bytes fb fbb <? poolThreshold then [Reset fb fbb] else []) ++ tl (fbbPool w).
Proof.
  intros Hfn fbb. subst fbb.
  unfold withObjectBytes, encoderAfter, fbbPool_Get, fbbPool_Put.
  fold poolThreshold. mred.
  destruct w as [s pool tr]; cbn [env fbbPool trace hd tl].
  destruct pool as [|b rest]; cbn [hd tl]; mred.
  all: match goal with
       | |- context [Flatten ?b ?o ?x ?i ?s] => destruct (Flatten b o x i s) as [fbb1 [e|]]
       end; cbn [isErr fst snd]; mred.
  all: try match goal with
       | H : forall data w0, fbbPool (?f data w0).2 = _ |- context [?f ?d ?w0] =>
           pose proof (H d w0) as Hp; destruct (f d w0) as [r w1]; cbn in Hp
       end; mred.
  all: match goal with
       | |- context [cap_Bytes fb ?b <? poolThreshold] =>
           destruct (cap_Bytes fb b <? poolThreshold)
       end; mred; try done; by rewrite ?Hp.
Qed.

Lemma pool_bounded_after (pool : list Builder) (fbb : Builder) :
  (forall fbb, cap_Bytes fb (Reset fb fbb) = cap_Bytes fb fbb) ->
  pool_bounded pool ->
  pool_bounded ((if cap_Bytes fb fbb <? poolThreshold then [Reset fb fbb] else [])
                  ++ tl pool).
Proof.
  intros HReset Hb. unfold pool_bounded in *. apply Forall_app. split.
  - destruct (N.ltb_spec (cap_Bytes fb fbb) poolThreshold); [| constructor].
    constructor; [| constructor]. by rewrite HReset.
  - destruct pool; [constructor | by inversion Hb].
Qed.

(** C9. After [withObjectBytes], whatever [Flatten] and the callback
    returned, the pool holds the encoders that stayed in it plus the used
    encoder (reset) exactly when its capacity is below 1 MiB; so a pool
    whose encoders are all below the threshold stays so.  The callback does
    not touch the pool, and [Reset] keeps the capacity of the buffer. *)
Theorem withObjectBytes_pool_bounded {A} (box : Box St Any Builder) (object : Any) (id : N)
  (dflt : A) (fn : bytes -> M St Any Builder (A * error)) (w : World St Any Builder) :
  (forall fbb, cap_Bytes fb (Reset fb fbb) = cap_Bytes fb fbb) ->
  (forall data w0, fbbPool (fn data w0).2 = fbbPool w0) ->
  let fbb := encoderAfter box object id w in
  let w' := (withObjectBytes box object id dflt fn w).2 in
  fbbPool w' =
    (if cap_Bytes fb fbb <? poolThreshold then [Reset fb fbb] else []) ++ tl (fbbPool w) /\
  (poolThreshold <= cap_Bytes fb fbb -> fbbPool w' = tl (fbbPool w)) /\
  (pool_bounded (fbbPool w) -> pool_bounded (fbbPool w')).
Proof.
  intros HReset Hfn fbb w'.
  pose proof (withObjectBytes_pool box object id dflt fn w Hfn) as E.
  cbv zeta in E. fold fbb w' in E.
  split; [exact E|]. split.
  - intros Hge. rewrite E. by apply N.ltb_ge in Hge as ->.
  - intros Hb. rewrite E. by apply pool_bounded_after.
Qed.

(** Both users of [withObjectBytes] keep the pool bounded: the engine
    write of [putOne] and the copy of [putManyObjects] leave the pool
    alone. *)
Lemma putOne_pool_bounded (box : Box St Any Builder) (id : N) (object : Any)
  (putMode : OBXPutMode) (w : World St Any Builder) :
  (forall fbb, cap_Bytes fb (Reset fb fbb) = cap_Bytes fb fbb) ->
  pool_bounded (fbbPool w) ->
  pool_bounded (fbbPool (putOne box id object putMode w).2).
Proof.
  intros HReset Hb. unfold putOne. unfold bind at 1.
  set (related := if hasRelations box then _ else _).
  assert (fbbPool (related w).2 = fbbPool w) as Hw1.
  { subst related. destruct (hasRelations box); [| done].
    unfold call. by destruct (PutRelated _ _ _ _). }
  destruct (related w) as [err w1]. cbn [snd] in Hw1. clear related.
  destruct err as [e|]; [unfold ret; cbn [snd]; by rewrite Hw1|].
  unfold bind at 1.
  match goal with
  | |- context [withObjectBytes box object id tt ?fn w1] =>
      pose proof (withObjectBytes_pool box object id tt fn w1) as E;
      destruct (withObjectBytes box object id tt fn w1) as [[[] err] w2]
  end.
  cbn [fst snd ret] in *. rewrite E.
  - apply pool_bounded_after; [done | by rewrite Hw1].
  - intros data w0. unfold cCall, createError. mred.
    destruct (obx_box_put5 _ _ _ _ _ _) as [rc s]. mred.
    by destruct (Z.eqb rc 0).
Qed.

Lemma flattenStep_pool_bounded (box : Box St Any Builder) (objects : list Any)
  (start : nat) (outIds : list N) (i : nat) (objectsBytes : list bytes)
  (w : World St Any Builder) :
  (forall fbb, cap_Bytes fb (Reset fb fbb) = cap_Bytes fb fbb) ->
  pool_bounded (fbbPool w) ->
  pool_bounded (fbbPool (flattenStep box objects start outIds i objectsBytes w).2).
Proof.
  intros HReset Hb. unfold flattenStep.
  destruct (slice_Index objects (start + i)) as [object | p]; [| done].
  unfold bind at 1.
  set (related := if hasRelations box then _ else _).
  assert (fbbPool (related w).2 = fbbPool w) as Hw1.
  { subst related. destruct (hasRelations box); [| done].
    unfold call. by destruct (PutRelated _ _ _ _). }
  destruct (related w) as [err w1]. cbn [snd] in Hw1. clear related.
  destruct err as [e|]; [unfold ret; cbn [snd]; by rewrite Hw1|].
  rewrite withObjectBytes_pool; [| done].
  apply pool_bounded_after; [done | by rewrite Hw1].
Qed.

(** ** What a computation logs *)

(** [runs P Q m]: from any world, [m] only appends events satisfying [P]
    to the log, and its value satisfies [Q]. *)
Definition runs {A} (P : Event Any -> Prop) (Q : A -> Prop) (m : M St Any Builder A) : Prop :=
  forall w, exists evs, trace (m w).2 = trace w ++ evs /\ Forall P evs /\ Q (m w).1.

Lemma runs_ret {A} (P : Event Any -> Prop) (Q : A -> Prop) (a : A) :
  Q a -> runs P Q (ret a).
Proof. intros Ha w. exists []. by rewrite app_nil_r. Qed.

Lemma runs_bind {A B} (P : Event Any -> Prop) (Q1 : A -> Prop) (Q2 : B -> Prop)
  (m : M St Any Builder A) (k : A -> M St Any Builder B) :
  runs P Q1 m -> (forall a, Q1 a -> runs P Q2 (k a)) -> runs P Q2 (bind m k).
Proof.
  intros Hm Hk w. unfold bind.
  destruct (Hm w) as (evs1 & E1 & F1 & H1).
  destruct (m w) as [a w1]; cbn [fst snd] in *.
  destruct (Hk a H1 w1) as (evs2 & E2 & F2 & H2).
  exists (evs1 ++ evs2). split; [| split; [by apply Forall_app | done]].
  by rewrite E2, E1, app_assoc.
Qed.

Lemma runs_weaken {A} (P : Event Any -> Prop) (Q Q' : A -> Prop) (m : M St Any Builder A) :
  (forall a, Q a -> Q' a) -> runs P Q m -> runs P Q' m.
Proof.
  intros HQ Hm w. destruct (Hm w) as (evs & E & F & H). exists evs. auto.
Qed.

Lemma runs_emit (P : Event Any -> Prop) (e : Event Any) :
  P e -> runs P (fun _ => True) (emit e).
Proof. intros He w. exists [e]. cbn. auto. Qed.

Lemma runs_call {A} (P : Event Any -> Prop) (e : Event Any) (f : St -> A * St) :
  P e -> runs P (fun _ => True) (call e f).
Proof.
  intros He w. exists [e]. unfold call. destruct (f (env w)). cbn. auto.
Qed.

Lemma runs_query {A} (P : Event Any -> Prop) (e : Event Any) (f : St -> A) :
  P e -> runs P (fun _ => True) (query e f).
Proof. intros He w. exists [e]. cbn. auto. Qed.

Lemma runs_silent {A} (P : Event Any -> Prop) (f : St -> A * St) :
  runs P (fun _ => True) (silent f).
Proof.
  intros w. exists []. unfold silent. destruct (f (env w)). cbn.
  by rewrite app_nil_r.
Qed.

Lemma runs_forEach {X S} (P : Event Any -> Prop) (I : S -> Prop) (l : list X)
  (body : X -> S -> M St Any Builder (S * error)) (s : S) :
  I s ->
  (forall x s, I s -> runs P (fun r => I r.1) (body x s)) ->
  runs P (fun r => I r.1) (forEach l body s).
Proof.
  intros Hs Hbody. revert s Hs.
  induction l as [|x l IH]; intros s Hs; cbn [forEach].
  - by apply runs_ret.
  - eapply runs_bind; [by apply Hbody|].
    intros [s' [e|]] Hs'; cbn [fst] in Hs'.
    + by apply runs_ret.
    + by apply IH.
Qed.

Lemma runs_fbbPool_Get (P : Event Any -> Prop) :
  P EvPoolGet -> runs P (fun _ => True) fbbPool_Get.
Proof.
  intros He w. exists [EvPoolGet]. unfold fbbPool_Get.
  destruct (fbbPool w); cbn; auto.
Qed.

Lemma runs_fbbPool_Put (P : Event Any -> Prop) (fbb : Builder) :
  P EvPoolPut -> runs P (fun _ => True) (fbbPool_Put fbb).
Proof. intros He w. exists [EvPoolPut]. cbn. auto. Qed.

(** Proves a [runs P (fun _ => True) m] goal for straight-line code whose
    events are literal: splits binds and branches, and checks [P] on each
    event by computation. *)
Ltac runs_tac :=
  repeat first
    [ apply runs_ret; exact I
    | apply runs_emit; done
    | apply runs_call; done
    | apply runs_query; done
    | apply runs_silent
    | apply runs_fbbPool_Get; done
    | apply runs_fbbPool_Put; done
    | match goal with
      | H : forall x, runs _ _ (?f x) |- runs _ _ (?f _) => apply H
      | H : runs ?P _ ?m |- runs ?P _ ?m => exact H
      end
    | progress cbv beta zeta
    | eapply runs_bind with (Q1 := fun _ => True); [| intros ? _; cbv beta]
    | match goal with
      | |- runs _ _ (match ?x with _ => _ end) => destruct x
      | |- runs _ _ (let (_, _) := ?x in _) => destruct x
      end ].

Lemma runs_createError (P : Event Any -> Prop) :
  P EvLastError -> runs P (fun _ => True) createError.
Proof. intros He. unfold createError. runs_tac. Qed.

Lemma runs_cCall (P : Event Any -> Prop) (e : Event Any) (f : St -> obx_err * St) :
  P e -> P EvLastError -> runs P (fun _ => True) (cCall e f).
Proof. intros He Hl. unfold cCall, createError. runs_tac. Qed.

Lemma runs_runInTxn {A} (P : Event Any -> Prop) (write : bool) (dflt : A)
  (fn : M St Any Builder (A * error)) :
  P (EvTxnBegin write) -> P EvTxnSuccess -> P EvTxnClose -> P EvLastError ->
  runs P (fun _ => True) fn ->
  runs P (fun _ => True) (runInTxn write dflt fn).
Proof.
  intros Hb Hs Hc Hl Hfn. unfold runInTxn, txnEnd, cCall, createError.
  eapply runs_bind; [by apply runs_call|]. intros [] _; [| runs_tac].
  eapply runs_bind; [exact Hfn|]. intros [a err] _. runs_tac.
Qed.

Lemma runs_idForPut (P : Event Any -> Prop) (box : Box St Any Builder) (idCandidate : N) :
  P (EvIdForPut (cBox box) idCandidate) -> P EvLockOSThread -> P EvUnlockOSThread ->
  P EvLastError ->
  runs P (fun _ => True) (idForPut box idCandidate).
Proof. intros H1 H2 H3 H4. unfold idForPut, createError. runs_tac. Qed.

Lemma runs_withObjectBytes {A} (P : Event Any -> Prop) (box : Box St Any Builder)
  (object : Any) (id : N) (dflt : A) (fn : bytes -> M St Any Builder (A * error)) :
  P EvPoolGet -> P EvPoolPut -> P (EvFlatten object id) ->
  (forall data, runs P (fun _ => True) (fn data)) ->
  runs P (fun _ => True) (withObjectBytes box object id dflt fn).
Proof.
  intros H1 H2 H3 Hfn. unfold withObjectBytes. runs_tac.
Qed.

(** No event of the single-object put pipeline reads or removes a link. *)
Definition not_link_read_or_remove (e : Event Any) : Prop :=
  is_rel_get_ids e = false /\ is_rel_remove e = false.

Lemma runs_put_no_link_removal (box : Box St Any Builder) (object : Any)
  (alreadyInTx : bool) (putMode : OBXPutMode) :
  runs not_link_read_or_remove (fun _ => True) (put box object alreadyInTx putMode).
Proof.
  assert (forall id, runs not_link_read_or_remove (fun _ => True)
                       (putOne box id object putMode)) as HputOne.
  { intros id. unfold putOne.
    eapply runs_bind with (Q1 := fun _ => True).
    { destruct (hasRelations box); [by apply runs_call | by apply runs_ret]. }
    intros [e|] _; [by apply runs_ret|].
    eapply runs_bind; [apply runs_withObjectBytes; try done|].
    - intros data. eapply runs_bind; [by apply runs_cCall|]. intros ? _. by apply runs_ret.
    - intros [? ?] _. by apply runs_ret. }
  unfold put.
  eapply runs_bind; [by apply runs_query|]. intros [idFromObject [e|]] _;
    [by apply runs_ret|].
  eapply runs_bind with (Q1 := fun _ => True).
  { destruct (OBXPutMode_eqb putMode cPutModeUpdate).
    - destruct (idFromObject =? 0); by apply runs_ret.
    - by apply runs_idForPut. }
  intros [id [e|]] _; [by apply runs_ret|].
  eapply runs_bind with (Q1 := fun _ => True).
  { destruct (hasRelations box && negb alreadyInTx).
    - eapply runs_bind; [apply runs_runInTxn; try done|].
      + eapply runs_bind; [apply HputOne|]. intros ? _. by apply runs_ret.
      + intros [? ?] _. by apply runs_ret.
    - apply HputOne. }
  intros err _. runs_tac.
Qed.


(** ** Relation synchronisation: the guards *)

Lemma count_events_none (p : Event Any -> bool) (evs : list (Event Any)) :
  Forall (fun e => p e = false) evs -> count_events p evs = 0%nat.
Proof.
  unfold count_events. induction 1 as [|e evs He _ IH]; [done|].
  cbn. by rewrite He.
Qed.

Lemma removeLeft_empty (box : Box St Any Builder) (relation : RelationToMany) (sourceId : N) :
  removeLeft box relation sourceId ∅ = ret (tt, None).
Proof. unfold removeLeft. by rewrite map_to_list_empty. Qed.

(** With no removal candidates the walk over the targets leaves the
    candidate set empty, and neither reads nor removes a link. *)
Lemma runs_syncTargets_empty (box targetBox : Box St Any Builder) (relation : RelationToMany)
  (sourceId : N) (targets : list Any) :
  runs not_link_read_or_remove (fun r => r.1 = ∅)
       (syncTargets box targetBox relation sourceId targets ∅).
Proof.
  unfold syncTargets. apply (runs_forEach _ (fun m => m = ∅)); [done|].
  intros rel m ->. unfold syncStep.
  eapply runs_bind with (Q1 := fun _ => True); [by apply runs_query|].
  intros [rId [e|]] _; [by apply runs_ret|].
  eapply runs_bind with (Q1 := fun _ => True).
  { destruct (rId =? 0); [apply runs_put_no_link_removal | by apply runs_ret]. }
  intros [rId' [e|]] _; [by apply runs_ret|].
  unfold map_get. rewrite lookup_empty. cbn [default].
  eapply runs_bind with (Q1 := fun _ => True); [by apply runs_cCall|].
  intros err _. by apply runs_ret.
Qed.

Lemma runs_replaceInTx_unsaved (box : Box St Any Builder) (relation : RelationToMany)
  (sourceId : N) (targets : list Any) :
  runs not_link_read_or_remove (fun _ => True)
       (replaceInTx box relation sourceId 0 targets).
Proof.
  unfold replaceInTx. cbn [N.eqb negb].
  eapply runs_bind with (Q1 := fun r => r = (∅, None)); [by apply runs_ret|].
  intros ? ->.
  eapply runs_bind with (Q1 := fun r => r.1 = ∅).
  { destruct (0 <? length targets)%nat; [| by apply runs_ret].
    destruct (ObjectBox_box (relation_Target_Id relation)); [| by apply runs_ret].
    apply runs_syncTargets_empty. }
  intros [m [e|]] Hm; cbn [fst] in Hm; subst; [by apply runs_ret|].
  rewrite removeLeft_empty. by apply runs_ret.
Qed.

Lemma runInTxn_ext {A} (write : bool) (dflt : A) (fn fn' : M St Any Builder (A * error))
  (w : World St Any Builder) :
  (forall w0, fn w0 = fn' w0) -> runInTxn write dflt fn w = runInTxn write dflt fn' w.
Proof.
  intros Hext. unfold runInTxn. mred.
  destruct (obx_txn_begin eng write (env w)) as [[] s]; [| done].
  by rewrite Hext.
Qed.

Lemma replaceInTx_unsaved_empty (box : Box St Any Builder) (relation : RelationToMany)
  (sourceId : N) (w : World St Any Builder) :
  replaceInTx box relation sourceId 0 [] w = ret (tt, None) w.
Proof.
  unfold replaceInTx. cbn [N.eqb negb length Nat.ltb Nat.leb]. mred.
  by rewrite removeLeft_empty.
Qed.

(** C5. A nil target collection with a source object whose id is nonzero
    fails with the descriptive error, and the only call made is the
    binding's [GetId]: no link is read, created or removed and no
    transaction is opened.  With a source object whose id is 0 a nil
    collection is not rejected: the call runs as it does for an explicit
    empty collection, an empty write transaction. *)
Theorem RelationReplace_nil_targets_guard (box : Box St Any Builder)
  (relation : RelationToMany) (sourceId : N) (sourceObject : Any) (id : N)
  (w : World St Any Builder) :
  GetId (binding box) sourceObject (env w) = (id, None) ->
  let w1 := mkWorld (env w) (fbbPool w) (trace w ++ [EvGetId sourceObject]) in
  (id <> 0 ->
     RelationReplace box relation sourceId sourceObject None w =
       (Some (ErrNilTargets (relation_Id relation)), w1) /\
     events_of (RelationReplace box relation sourceId sourceObject None) w =
       [EvGetId sourceObject]) /\
  (id = 0 ->
     RelationReplace box relation sourceId sourceObject None w =
       RelationReplace box relation sourceId sourceObject (Some []) w /\
     RelationReplace box relation sourceId sourceObject None w =
       ('(_, err) <- RunInWriteTx tt (ret (tt, None)) ; ret err) w1).
Proof.
  intros H w1. split.
  - intros Hid.
    assert (RelationReplace box relation sourceId sourceObject None w =
            (Some (ErrNilTargets (relation_Id relation)), w1)) as E.
    { unfold RelationReplace. mred. rewrite H. cbn [IsNil andb].
      by destruct (N.eqb_spec id 0). }
    split; [exact E|]. apply events_of_app. by rewrite E.
  - intros ->. split.
    + unfold RelationReplace. mred. by rewrite H.
    + unfold RelationReplace. unfold bind at 1. unfold query. rewrite H.
      cbn [IsNil andb N.eqb negb default]. fold w1.
      unfold bind, RunInWriteTx.
      by rewrite (runInTxn_ext _ _ _ (ret (tt, None)) _
                    (replaceInTx_unsaved_empty box relation sourceId)).
Qed.

(** C10. When the id read from the source object is 0, [RelationReplace]
    never asks the engine for the links of [sourceId] and never removes a
    link, whatever links the engine holds for [sourceId] and whatever the
    desired targets are. *)
Theorem RelationReplace_unsaved_source_removes_nothing (box : Box St Any Builder)
  (relation : RelationToMany) (sourceId : N) (sourceObject : Any)
  (targetObjects : option (list Any)) (w : World St Any Builder) :
  GetId (binding box) sourceObject (env w) = (0, None) ->
  let evs := events_of (RelationReplace box relation sourceId sourceObject targetObjects) w in
  count_events is_rel_get_ids evs = 0%nat /\ count_events is_rel_remove evs = 0%nat.
Proof.
  intros H evs.
  assert (exists l, evs = l /\ Forall not_link_read_or_remove l) as (l & -> & Hl).
  { subst evs.
    pose proof (runs_runInTxn not_link_read_or_remove true tt
      (replaceInTx box relation sourceId 0 (default [] targetObjects))) as Htx.
    specialize (Htx ltac:(done) ltac:(done) ltac:(done) ltac:(done)
      (runs_replaceInTx_unsaved box relation sourceId (default [] targetObjects))).
    destruct (Htx (mkWorld (env w) (fbbPool w) (trace w ++ [EvGetId sourceObject])))
      as (evs & E & F & _).
    exists (EvGetId sourceObject :: evs). split.
    - apply events_of_app. unfold RelationReplace. unfold bind at 1. unfold query.
      rewrite H. rewrite andb_false_r. unfold bind, RunInWriteTx.
      destruct (runInTxn true tt _ _) as [[? err] w2]. cbn [fst snd ret] in *.
      rewrite E. cbn [trace]. by rewrite <- app_assoc.
    - constructor; [done | exact F]. }
  split; apply count_events_none; eapply Forall_impl; try exact Hl;
    by intros e [? ?].
Qed.


(** ** Bulk reads *)

(** The error the visitor records is a decode error: [Load] returned it for
    one of the buffers, and the visitor then stopped the visit. *)
Lemma visitLoop_error_is_decode_error (box : Box St Any Builder) (existingOnly : bool)
  (buffers : list (option bytes)) (slice : Any) (w : World St Any Builder) :
  let r := visitLoop box existingOnly buffers slice None w in
  (is_Some r.1.1.2 <-> r.1.2 = true) /\
  (forall e, r.1.1.2 = Some e ->
     exists data s, Some data ∈ buffers /\ (Load (binding box) data s).1.2 = Some e).
Proof.
  revert slice w. induction buffers as [|[data|] rest IH]; intros slice w.
  - cbn. split; [split; [by intros [? ?] | done] | done].
  - cbn [visitLoop visitorCallback]. mred.
    destruct (Load (binding box) data (env w)) as [[object [e|]] s'] eqn:EL; mred.
    + split; [split; [done | by eexists] |].
      intros e' [= <-]. exists data, (env w). rewrite EL. split; [left | done].
    + destruct (IH (AppendToSlice (binding box) slice object)
                   (mkWorld s' (fbbPool w) (trace w ++ [EvLoad data]))) as [IH1 IH2].
      split; [exact IH1|]. intros e He. destruct (IH2 e He) as (d & s & Hin & HL).
      exists d, s. split; [by right | done].
  - cbn [visitLoop visitorCallback].
    destruct existingOnly; cbn [negb]; mred.
    + destruct (IH slice w) as [IH1 IH2]. split; [exact IH1|].
      intros e He. destruct (IH2 e He) as (d & s & Hin & HL).
      exists d, s. split; [by right | done].
    + destruct (IH (AppendToSlice (binding box) slice None) w) as [IH1 IH2].
      split; [exact IH1|].
      intros e He. destruct (IH2 e He) as (d & s & Hin & HL).
      exists d, s. split; [by right | done].
Qed.

Lemma visitInReadTx_error_is_decode_error (box : Box St Any Builder) (existingOnly : bool)
  (ids : list N) (slice : Any) (w : World St Any Builder) (e : GoError) :
  (visitInReadTx box existingOnly ids slice None w).1.1.2 = Some e ->
  exists data s, (Load (binding box) data s).1.2 = Some e.
Proof.
  unfold visitInReadTx, RunInReadTx, runInTxn, obx_box_visit_many. mred.
  destruct (obx_txn_begin eng false (env w)) as [[] s0]; mred; [| done].
  match goal with
  | |- context [visitLoop ?b ?x ?l ?sl None ?w0] =>
      pose proof (visitLoop_error_is_decode_error b x l sl w0) as [_ Hdec];
      destruct (visitLoop b x l sl None w0) as [[[sl' err'] stopped] w1]
  end.
  cbn [fst snd] in Hdec. mred.
  destruct (obx_box_visit_many_status _ _ _ _ _) as [rc s2]. mred.
  destruct (Z.eqb rc 0); mred.
  - destruct (obx_txn_close eng s2) as [rc2 s3]. mred.
    destruct (Z.eqb rc2 0); mred; intros He;
      destruct (Hdec e He) as (d & s & _ & HL); eauto.
  - destruct (obx_txn_close eng _) as [rc2 s3]. mred.
    intros He; destruct (Hdec e He) as (d & s & _ & HL); eauto.
Qed.

(** C2 (as the code has it). Once the visitor is registered,
    [readUsingVisitor] returns the transaction-level error [err2] whenever
    there is one; the decode error recorded by the visitor is returned only
    when the read transaction, with the engine's visit call in it, reports
    no error; and the slice is returned only when there is neither.  The
    error the visitor records is one that [Load] returned. *)
Theorem readUsingVisitor_transaction_error_first (box : Box St Any Builder)
  (existingOnly : bool) (ids : list N) (w w2 : World St Any Builder)
  (visitor : N) (s1 : St) (slice : Any) (err err2 : error) :
  dataVisitorRegister_result eng (env w) = ((visitor, None), s1) ->
  visitInReadTx box existingOnly ids (MakeSlice (binding box) defaultSliceCapacity) None
    (mkWorld s1 (fbbPool w) (trace w ++ [EvVisitorRegister])) = (((slice, err), err2), w2) ->
  (readUsingVisitor box existingOnly ids w).1 =
    match err2, err with
    | Some e2, _ => (None, Some e2)
    | None, Some e => (None, Some e)
    | None, None => (Some slice, None)
    end /\
  (forall e, err = Some e -> exists data s, (Load (binding box) data s).1.2 = Some e).
Proof.
  intros Hreg Hvisit. split.
  - unfold readUsingVisitor. mred. rewrite Hreg. mred.
    rewrite Hvisit. by destruct err2, err.
  - intros e ->. eapply visitInReadTx_error_is_decode_error.
    by rewrite Hvisit.
Qed.


(** The spec's reading of a bulk read.  [decodeExisting]: the decoded
    objects of the buffers that exist, in order, each [Load] running in the
    environment the previous one left. *)
Fixpoint decodeExisting (b : ObjectBinding St Any Builder) (bufs : list (option bytes))
  (s : St) : (list (option Any) * error) * St :=
  match bufs with
  | [] => (([], None), s)
  | None :: rest => decodeExisting b rest s
  | Some data :: rest =>
      let '((object, err), s') := Load b data s in
      match err with
      | Some e => (([], Some e), s')
      | None =>
          let '((objs, err), s'') := decodeExisting b rest s' in
          ((object :: objs, err), s'')
      end
  end.

(** [placeholders bufs objs]: one entry per buffer, nil ([None]) at a
    missing buffer and the next decoded object at an existing one. *)
Fixpoint placeholders (bufs : list (option bytes)) (objs : list (option Any)) :
  list (option Any) :=
  match bufs with
  | [] => []
  | None :: rest => None :: placeholders rest objs
  | Some _ :: rest =>
      match objs with
      | o :: objs' => o :: placeholders rest objs'
      | [] => []
      end
  end.

(** The entries appended to the result slice. *)
Definition entries (existingOnly : bool) (bufs : list (option bytes))
  (objs : list (option Any)) : list (option Any) :=
  if existingOnly then objs else placeholders bufs objs.

Definition existing (bufs : list (option bytes)) : list bytes := omap id bufs.

Lemma existing_length_le (bufs : list (option bytes)) :
  (length (existing bufs) <= length bufs)%nat.
Proof.
  induction bufs as [|[data|] rest IH]; cbn; [done| |]; unfold existing in IH; lia.
Qed.

Lemma decodeExisting_length (b : ObjectBinding St Any Builder) (bufs : list (option bytes))
  (s s' : St) (objs : list (option Any)) :
  decodeExisting b bufs s = ((objs, None), s') -> length objs = length (existing bufs).
Proof.
  revert s objs. induction bufs as [|[data|] rest IH]; intros s objs; cbn.
  - by intros [= <- _].
  - destruct (Load b data s) as [[object [e|]] s1]; [done|].
    destruct (decodeExisting b rest s1) as [[objs1 err1] s2] eqn:E.
    intros [= <- -> <-]. cbn. f_equal. by eapply IH.
  - apply IH.
Qed.

Lemma placeholders_length (bufs : list (option bytes)) (objs : list (option Any)) :
  length objs = length (existing bufs) ->
  length (placeholders bufs objs) = length bufs.
Proof.
  revert objs. induction bufs as [|[data|] rest IH]; intros objs; cbn; [done| |].
  - destruct objs as [|o objs]; [done|]. cbn. intros [= H]. by rewrite IH.
  - intros H. by rewrite IH.
Qed.

Lemma placeholders_missing (bufs : list (option bytes)) (objs : list (option Any)) (i : nat) :
  length objs = length (existing bufs) ->
  bufs !! i = Some None -> placeholders bufs objs !! i = Some None.
Proof.
  revert objs i. induction bufs as [|[data|] rest IH]; intros objs i; cbn; [done| |].
  - destruct objs as [|o objs]; [done|]. cbn. intros [= H].
    destruct i as [|i]; [done|]. cbn. by apply IH.
  - intros H. destruct i as [|i]; [done|]. cbn. by apply IH.
Qed.

(** Dropping the entries of the missing buffers from [placeholders] leaves
    the decoded objects. *)
Fixpoint dropMissing (bufs : list (option bytes)) (l : list (option Any)) :
  list (option Any) :=
  match bufs, l with
  | None :: rest, _ :: l' => dropMissing rest l'
  | Some _ :: rest, o :: l' => o :: dropMissing rest l'
  | _, _ => []
  end.

Lemma placeholders_dropMissing (bufs : list (option bytes)) (objs : list (option Any)) :
  length objs = length (existing bufs) ->
  dropMissing bufs (placeholders bufs objs) = objs.
Proof.
  revert objs. induction bufs as [|[data|] rest IH]; intros objs; cbn.
  - by destruct objs.
  - destruct objs as [|o objs]; [done|]. cbn. intros [= H]. by rewrite IH.
  - apply IH.
Qed.

(** The decode loop of [readManyObjects], when every [Load] succeeds. *)
Lemma readMany_loop (box : Box St Any Builder) (existingOnly : bool)
  (bufs : list (option bytes)) (slice : Any) (w : World St Any Builder)
  (objs : list (option Any)) (s' : St) :
  decodeExisting (binding box) bufs (env w) = ((objs, None), s') ->
  exists tr,
    forEach bufs (loadInto box existingOnly) slice w =
    ((foldl (AppendToSlice (binding box)) slice (entries existingOnly bufs objs), None),
     mkWorld s' (fbbPool w) tr).
Proof.
  revert slice w objs. induction bufs as [|[data|] rest IH]; intros slice w objs;
    cbn [decodeExisting forEach].
  - intros [= <- <-]. exists (trace w). destruct w. by destruct existingOnly.
  - unfold loadInto at 1. unfold bind at 1 2. unfold call at 1.
    destruct (Load (binding box) data (env w)) as [[object [e|]] s1]; [done|].
    destruct (decodeExisting (binding box) rest s1) as [[objs1 err1] s2] eqn:E.
    intros [= <- -> <-]. unfold ret at 1.
    destruct (IH (AppendToSlice (binding box) slice object)
                 (mkWorld s1 (fbbPool w) (trace w ++ [EvLoad data])) objs1 E) as [tr Htr].
    exists tr. rewrite Htr. by destruct existingOnly.
  - intros E. unfold loadInto at 1. unfold bind at 1.
    destruct existingOnly; cbn [negb]; unfold ret at 1.
    + by apply IH.
    + destruct (IH (AppendToSlice (binding box) slice None) w objs E) as [tr Htr].
      exists tr. by rewrite Htr.
Qed.

(** The visit of [readUsingVisitor], when every [Load] succeeds. *)
Lemma visitLoop_all_decoded (box : Box St Any Builder) (existingOnly : bool)
  (bufs : list (option bytes)) (slice : Any) (w : World St Any Builder)
  (objs : list (option Any)) (s' : St) :
  decodeExisting (binding box) bufs (env w) = ((objs, None), s') ->
  exists tr,
    visitLoop box existingOnly bufs slice None w =
    (((foldl (AppendToSlice (binding box)) slice (entries existingOnly bufs objs), None),
      false),
     mkWorld s' (fbbPool w) tr).
Proof.
  revert slice w objs. induction bufs as [|[data|] rest IH]; intros slice w objs;
    cbn [decodeExisting visitLoop visitorCallback].
  - intros [= <- <-]. exists (trace w). destruct w. by destruct existingOnly.
  - mred. destruct (Load (binding box) data (env w)) as [[object [e|]] s1]; [done|].
    destruct (decodeExisting (binding box) rest s1) as [[objs1 err1] s2] eqn:E.
    intros [= <- -> <-]. mred.
    destruct (IH (AppendToSlice (binding box) slice object)
                 (mkWorld s1 (fbbPool w) (trace w ++ [EvLoad data])) objs1 E) as [tr Htr].
    exists tr. rewrite Htr. by destruct existingOnly.
  - intros E. destruct existingOnly; cbn [negb]; mred.
    + by apply IH.
    + destruct (IH (AppendToSlice (binding box) slice None) w objs E) as [tr Htr].
      exists tr. by rewrite Htr.
Qed.

(** The array strategy hands back [bufs] and every buffer decodes. *)
Definition arrayReadSucceeds (box : Box St Any Builder) (ids : list N)
  (w : World St Any Builder) (bufs : list (option bytes)) (objs : list (option Any)) : Prop :=
  supportsResultArray eng = true /\
  exists s1 s2 s3 s4,
    obx_txn_begin eng false (env w) = (true, s1) /\
    obx_box_get_many eng (cBox box) ids s1 = (Some bufs, s2) /\
    decodeExisting (binding box) bufs s2 = ((objs, None), s3) /\
    obx_txn_close eng s3 = (0%Z, s4).

(** The visitor strategy is handed [bufs] and every buffer decodes. *)
Definition visitorReadSucceeds (box : Box St Any Builder) (ids : list N)
  (w : World St Any Builder) (bufs : list (option bytes)) (objs : list (option Any)) : Prop :=
  supportsResultArray eng = false /\
  exists visitor s0 s1 s3 s4 s5,
    dataVisitorRegister_result eng (env w) = ((visitor, None), s0) /\
    obx_txn_begin eng false s0 = (true, s1) /\
    obx_box_visit_many_data eng (cBox box) ids s1 = bufs /\
    decodeExisting (binding box) bufs s1 = ((objs, None), s3) /\
    obx_box_visit_many_status eng (cBox box) ids false s3 = (0%Z, s4) /\
    obx_txn_close eng s4 = (0%Z, s5).

Lemma readManyObjects_entries (box : Box St Any Builder) (existingOnly : bool)
  (ids : list N) (w : World St Any Builder) (bufs : list (option bytes))
  (objs : list (option Any)) :
  arrayReadSucceeds box ids w bufs objs ->
  (readManyObjects box existingOnly ids w).1 =
    (Some (foldl (AppendToSlice (binding box)) (MakeSlice (binding box) (length bufs))
                 (entries existingOnly bufs objs)), None).
Proof.
  intros (_ & s1 & s2 & s3 & s4 & Hb & Hg & Hd & Hc).
  unfold readManyObjects, RunInReadTx, runInTxn, cGetBytesArray. mred.
  rewrite Hb. mred. rewrite Hg. mred.
  match goal with
  | |- context [forEach bufs _ ?sl ?w0] =>
      destruct (readMany_loop box existingOnly bufs sl w0 objs s3 Hd) as [tr Htr]
  end.
  rewrite Htr. mred. rewrite Hc. by mred.
Qed.

Lemma readUsingVisitor_entries (box : Box St Any Builder) (existingOnly : bool)
  (ids : list N) (w : World St Any Builder) (bufs : list (option bytes))
  (objs : list (option Any)) :
  visitorReadSucceeds box ids w bufs objs ->
  (readUsingVisitor box existingOnly ids w).1 =
    (Some (foldl (AppendToSlice (binding box))
                 (MakeSlice (binding box) defaultSliceCapacity)
                 (entries existingOnly bufs objs)), None).
Proof.
  intros (_ & visitor & s0 & s1 & s3 & s4 & s5 & Hr & Hb & Hv & Hd & Hs & Hc).
  unfold readUsingVisitor, visitInReadTx, RunInReadTx, runInTxn, obx_box_visit_many. mred.
  rewrite Hr. mred. rewrite Hb. mred. rewrite Hv.
  match goal with
  | |- context [visitLoop box existingOnly bufs ?sl None ?w0] =>
      destruct (visitLoop_all_decoded box existingOnly bufs sl w0 objs s3 Hd) as [tr Htr]
  end.
  rewrite Htr. mred. rewrite Hs. mred. rewrite Hc. by mred.
Qed.

(** C7. When the engine hands back one buffer per requested id, nil for a
    missing one, and every buffer decodes, [GetMany] returns the slice with
    one entry appended per requested id in input order, nil at each missing
    id, and [GetManyExisting] the slice with only the decoded objects
    appended, in the same order: the entries of [GetMany] without those of
    the missing ids.  [hint] is the capacity the slice was made with. *)
Theorem GetMany_placeholders_GetManyExisting_skips (box : Box St Any Builder)
  (ids : list N) (w : World St Any Builder) (bufs : list (option bytes))
  (objs : list (option Any)) (hint : nat) :
  goIdsArrayToC_error eng ids = None ->
  (arrayReadSucceeds box ids w bufs objs /\ hint = length bufs) \/
  (visitorReadSucceeds box ids w bufs objs /\ hint = defaultSliceCapacity) ->
  length bufs = length ids ->
  let b := binding box in
  (GetMany box ids w).1 =
    (Some (foldl (AppendToSlice b) (MakeSlice b hint) (placeholders bufs objs)), None) /\
  (GetManyExisting box ids w).1 =
    (Some (foldl (AppendToSlice b) (MakeSlice b hint) objs), None) /\
  length (placeholders bufs objs) = length ids /\
  (forall i, bufs !! i = Some None -> placeholders bufs objs !! i = Some None) /\
  dropMissing bufs (placeholders bufs objs) = objs /\
  length objs = length (existing bufs) /\
  (length objs <= length ids)%nat.
Proof.
  intros Hconv Hread Hlen b.
  assert (length objs = length (existing bufs)) as Hobjs.
  { destruct Hread as [[(_ & s1 & s2 & s3 & s4 & _ & _ & Hd & _) _]
                      | [(_ & v & s0 & s1 & s3 & s4 & s5 & _ & _ & _ & Hd & _) _]];
      by eapply decodeExisting_length. }
  unfold GetMany, GetManyExisting. rewrite Hconv.
  repeat split.
  - destruct Hread as [[Ha ->] | [Hv ->]].
    + rewrite (proj1 Ha). by rewrite (readManyObjects_entries _ _ _ _ _ _ Ha).
    + rewrite (proj1 Hv). by rewrite (readUsingVisitor_entries _ _ _ _ _ _ Hv).
  - destruct Hread as [[Ha ->] | [Hv ->]].
    + rewrite (proj1 Ha). by rewrite (readManyObjects_entries _ _ _ _ _ _ Ha).
    + rewrite (proj1 Hv). by rewrite (readUsingVisitor_entries _ _ _ _ _ _ Hv).
  - rewrite <- Hlen. by apply placeholders_length.
  - intros i. by apply placeholders_missing.
  - by apply placeholders_dropMissing.
  - done.
  - rewrite Hobjs, <- Hlen. apply existing_length_le.
Qed.


(** ** Bulk put *)

(** The spec's reading of a chunk: an object keeps the id it has, and the
    objects without one get [firstNewId], [firstNewId + 1], ... in input
    order ([k] new ids were handed out before). *)
Fixpoint chunkIds (reads : list N) (firstNewId : N) (k : nat) : list N :=
  match reads with
  | [] => []
  | id :: rest =>
      if 0 <? id then id :: chunkIds rest firstNewId k
      else wrap64 (firstNewId + N.of_nat k) :: chunkIds rest firstNewId (S k)
  end.

(** The number of objects without an id. *)
Definition newCount (reads : list N) : nat :=
  length (List.filter (fun id => negb (0 <? id)) reads).

(** The first id of the block the engine reserves for a chunk, as
    [idsForPut] asks for it. *)
Definition firstNewIdFor (box : Box St Any Builder) (reads : list N) (s : St) : N :=
  match newCount reads with
  | O => 0
  | S _ => (obx_box_ids_for_put eng (cBox box) (N.of_nat (newCount reads)) s).1.2
  end.

(** The first loop of [putManyObjects] on the ids read: the ids recorded
    in [outIds] and the indexes of the objects without one. *)
Fixpoint collectPure (reads : list N) (index : nat) (outIds : list N) :
  list N * list nat :=
  match reads with
  | [] => (outIds, [])
  | id :: rest =>
      if 0 <? id then collectPure rest (S index) (<[index := id]> outIds)
      else let (out, zs) := collectPure rest (S index) outIds in (out, index :: zs)
  end.

Lemma chunkIds_length (reads : list N) (firstNewId : N) (k : nat) :
  length (chunkIds reads firstNewId k) = length reads.
Proof.
  revert k. induction reads as [|id rest IH]; intros k; cbn; [done|].
  destruct (0 <? id); cbn; by rewrite IH.
Qed.

(** Position by position: an object that has an id keeps it, and the
    [n]-th object without one gets the [n]-th id of the block. *)
Lemma chunkIds_lookup (reads : list N) (firstNewId : N) (k j : nat) (id : N) :
  reads !! j = Some id ->
  chunkIds reads firstNewId k !! j =
    Some (if 0 <? id then id
          else wrap64 (firstNewId + N.of_nat (k + newCount (take j reads)))).
Proof.
  revert k j. induction reads as [|r rest IH]; intros k j; [done|].
  destruct j as [|j]; cbn [chunkIds].
  - intros [= ->]. unfold newCount. cbn. rewrite Nat.add_0_r. by destruct (0 <? id).
  - rewrite lookup_cons. intros Hj. unfold newCount in *. cbn [take List.filter].
    destruct (0 <? r); cbn [negb]; rewrite lookup_cons.
    + by apply IH.
    + rewrite (IH (S k) j Hj). cbn [length]. by rewrite Nat.add_succ_r.
Qed.

Lemma collectPure_insert_before (reads : list N) (index p : nat) (v : N) (outIds : list N) :
  (p < index)%nat ->
  collectPure reads index (<[p := v]> outIds) =
    (<[p := v]> (collectPure reads index outIds).1, (collectPure reads index outIds).2).
Proof.
  revert index outIds. induction reads as [|id rest IH]; intros index outIds Hp; cbn.
  - done.
  - destruct (0 <? id).
    + rewrite (list_insert_insert_ne _ index p) by lia. apply IH. lia.
    + rewrite IH by lia. by destruct (collectPure rest (S index) outIds).
Qed.

Lemma collectPure_newCount (reads : list N) (index : nat) (outIds : list N) :
  length (collectPure reads index outIds).2 = newCount reads.
Proof.
  revert index outIds. unfold newCount.
  induction reads as [|id rest IH]; intros index outIds; cbn; [done|].
  destruct (0 <? id); cbn.
  - apply IH.
  - specialize (IH (S index) outIds).
    destruct (collectPure rest (S index) outIds). cbn in *. by rewrite IH.
Qed.

Lemma insert_middle (pre rest : list N) (x v : N) :
  <[length pre := v]> (pre ++ x :: rest) = (pre ++ [v]) ++ rest.
Proof.
  rewrite insert_app_r_alt by lia. rewrite Nat.sub_diag. cbn.
  by rewrite <- app_assoc.
Qed.

(** Recording the ids read and then numbering the new objects gives the
    chunk of the spec, and leaves the rest of [outIds] alone. *)
Lemma collect_assign_chunk (reads seg pre post : list N) (firstNewId : N) (k : nat) :
  length seg = length reads ->
  let r := collectPure reads (length pre) (pre ++ seg ++ post) in
  assignNewIds r.2 firstNewId k r.1 = pre ++ chunkIds reads firstNewId k ++ post.
Proof.
  revert seg pre k. induction reads as [|id rest IH]; intros seg pre k Hlen; cbn.
  - by destruct seg.
  - destruct seg as [|x seg]; [done|]. injection Hlen as Hlen.
    destruct (0 <? id).
    + cbn [app]. rewrite insert_middle.
      specialize (IH seg (pre ++ [id]) k Hlen). cbn in IH.
      rewrite length_app, Nat.add_1_r in IH. rewrite IH.
      by rewrite <- app_assoc.
    + cbn [app].
      destruct (collectPure rest (S (length pre)) (pre ++ x :: seg ++ post))
        as [out zs] eqn:E.
      cbn [fst snd assignNewIds].
      pose proof (collectPure_insert_before rest (S (length pre)) (length pre)
                    (wrap64 (firstNewId + N.of_nat k))
                    (pre ++ x :: seg ++ post) ltac:(lia)) as Hc.
      rewrite E in Hc. cbn [fst snd] in Hc.
      rewrite insert_middle in Hc.
      specialize (IH seg (pre ++ [wrap64 (firstNewId + N.of_nat k)]) (S k) Hlen).
      cbn in IH. rewrite length_app, Nat.add_1_r in IH. rewrite Hc in IH.
      cbn [fst snd] in IH. rewrite IH. by rewrite <- app_assoc.
Qed.

Lemma forEach_app {X S} (l1 l2 : list X) (body : X -> S -> M St Any Builder (S * error))
  (s : S) (w : World St Any Builder) :
  forEach (l1 ++ l2) body s w =
    let r := forEach l1 body s w in
    match r.1.2 with
    | Some e => r
    | None => forEach l2 body r.1.1 r.2
    end.
Proof.
  revert s w. induction l1 as [|x l1 IH]; intros s w; cbn [app forEach].
  - done.
  - unfold bind. destruct (body x s w) as [[s1 [e|]] w1]; cbn; [done|].
    apply IH.
Qed.


(** The ids the binding reads from [objs] in environment [s]. *)
Definition readIds (box : Box St Any Builder) (objs : list Any) (s : St) : list N :=
  map (fun o => (GetId (binding box) o s).1) objs.

(** A successful first loop reads every id in the same environment and
    leaves what [collectPure] computes. *)
Lemma collectIds_loop (box : Box St Any Builder) (objects : list Any) (start n a : nat)
  (out : list N) (mode : OBXPutMode) (idxs : list nat) (w w' : World St Any Builder)
  (st' : list N * OBXPutMode * list nat) :
  forEach (seq a n) (collectStep box objects start) (out, mode, idxs) w = ((st', None), w') ->
  (start + a + n <= length objects)%nat ->
  let reads := readIds box (take n (drop (start + a) objects)) (env w) in
  env w' = env w /\ fbbPool w' = fbbPool w /\
  st'.1.1 = (collectPure reads (start + a) out).1 /\
  st'.2 = idxs ++ (collectPure reads (start + a) out).2.
Proof.
  revert a out mode idxs w. induction n as [|n IH]; intros a out mode idxs w; cbn [seq forEach].
  - intros [= <- <-] _. cbn. by rewrite app_nil_r.
  - intros Hrun Hlen.
    destruct (lookup_lt_is_Some_2 objects (start + a)%nat ltac:(lia)) as [o Ho].
    rewrite (drop_S _ _ _ Ho). cbn [take readIds map].
    revert Hrun. unfold bind at 1. unfold collectStep at 1.
    unfold slice_Index. rewrite Ho. unfold bind at 1. unfold query at 1.
    destruct (GetId (binding box) o (env w)) as [id [e|]] eqn:EG; [done|].
    cbn [fst collectPure]. destruct (0 <? id); unfold ret at 1; intros Hrun.
    + apply IH in Hrun; [| cbn [env]; lia]. cbn [env fbbPool] in Hrun.
      rewrite Nat.add_succ_r in Hrun. exact Hrun.
    + apply IH in Hrun; [| cbn [env]; lia]. cbn [env fbbPool] in Hrun.
      rewrite Nat.add_succ_r in Hrun.
      destruct Hrun as (He & Hp & H1 & H2). fold (readIds box) in *.
      destruct (collectPure _ (S (start + a)) out) as [out1 zs]. cbn [fst snd] in *.
      repeat split; try done. by rewrite H2, <- app_assoc.
Qed.

Lemma idsForPut_ok (box : Box St Any Builder) (reads : list N) (w w' : World St Any Builder)
  (firstNewId : N) :
  idsForPut box (newCount reads) w = ((firstNewId, None), w') ->
  firstNewId = firstNewIdFor box reads (env w).
Proof.
  unfold idsForPut, firstNewIdFor. destruct (newCount reads) as [|k]; mred.
  - by intros [= <- _].
  - destruct (obx_box_ids_for_put eng (cBox box) _ (env w)) as [[rc cFirstID] s1]. mred.
    destruct (Z.eqb rc 0); mred; [by intros [= <- _] | done].
Qed.

(** A successful [putManyObjects] leaves in [outIds], between [start] and
    [end_], the chunk of the spec for the ids read when it started, and
    does not touch the other positions. *)
Lemma putManyObjects_ok (box : Box St Any Builder) (objects : list Any) (outIds out' : list N)
  (start end_ : nat) (w w' : World St Any Builder) :
  putManyObjects box objects outIds start end_ w = ((out', None), w') ->
  (start <= end_)%nat -> (end_ <= length objects)%nat -> length outIds = length objects ->
  let reads := readIds box (take (end_ - start) (drop start objects)) (env w) in
  out' = take start outIds
           ++ chunkIds reads (firstNewIdFor box reads (env w)) 0 ++ drop end_ outIds.
Proof.
  intros Hrun Hse Hend Hlen reads.
  unfold putManyObjects in Hrun. unfold bind at 1 in Hrun. unfold collectIds in Hrun.
  destruct (forEach (seq 0 (end_ - start)) _ _ w) as [[[[out1 mode] idxs] [e|]] w1] eqn:EC;
    [done|].
  apply collectIds_loop in EC; [| lia]. rewrite Nat.add_0_r in EC.
  fold reads in EC. cbn [fst snd app] in EC. destruct EC as (He & _ & H1 & H2).
  unfold bind at 1 in Hrun.
  destruct (idsForPut box (length idxs) w1) as [[firstNewId [e|]] w2] eqn:EI; [done|].
  rewrite H2, collectPure_newCount in EI. apply idsForPut_ok in EI. rewrite He in EI.
  assert (out' = assignNewIds idxs firstNewId 0 out1) as ->.
  { revert Hrun. unfold bind, ret. repeat case_match; by intros [= <- _]. }
  subst idxs out1 firstNewId.
  rewrite <- (take_drop start outIds) at 1 2.
  rewrite <- (take_drop (end_ - start) (drop start outIds)) at 1 2.
  rewrite drop_drop. replace (start + (end_ - start))%nat with end_ by lia.
  pose proof (collect_assign_chunk reads (take (end_ - start) (drop start outIds))
                (take start outIds) (drop end_ outIds)
                (firstNewIdFor box reads (env w)) 0) as HC.
  rewrite (length_take_le outIds start) in HC by lia. apply HC.
  subst reads. unfold readIds. rewrite length_map, !length_take, !length_drop. lia.
Qed.


Lemma chunkSize_pos : (0 < chunkSize)%nat.
Proof. apply Nat.ltb_lt. by vm_compute. Qed.

(** The number of chunks [PutMany] computes covers exactly the chunks
    that start below [count]. *)
Lemma chunks_spec (count c : nat) :
  (c < count / chunkSize + (if (count mod chunkSize =? 0)%nat then 0 else 1))%nat <->
  (c * chunkSize < count)%nat.
Proof.
  pose proof chunkSize_pos as Hpos.
  pose proof (Nat.div_mod_eq count chunkSize) as Hdm.
  pose proof (Nat.mod_upper_bound count chunkSize ltac:(lia)) as Hm.
  set (cs := chunkSize) in *. clearbody cs.
  set (q := (count / cs)%nat) in *. set (r := (count mod cs)%nat) in *. clearbody q r.
  destruct (Nat.eqb_spec r 0); nia.
Qed.

Lemma take_min_length {A} (l : list A) (n : nat) :
  take (n `min` length l) l = take n l.
Proof.
  destruct (Nat.le_ge_cases n (length l)).
  - by rewrite Nat.min_l.
  - rewrite Nat.min_r by done. by rewrite !take_ge.
Qed.

(** One successful round of the chunk loop. *)
Lemma putChunk_ok (box : Box St Any Builder) (objects : list Any) (c : nat)
  (ids ids' : list N) (w w' : World St Any Builder) :
  putChunk box objects (length objects) c ids w = ((ids', None), w') ->
  length ids = length objects -> (c * chunkSize < length objects)%nat ->
  let reads := readIds box (take chunkSize (drop (c * chunkSize) objects)) (env w) in
  length ids' = length objects /\
  take (c * chunkSize) ids' = take (c * chunkSize) ids /\
  take chunkSize (drop (c * chunkSize) ids') =
    chunkIds reads (firstNewIdFor box reads (env w)) 0.
Proof.
  intros Hrun Hlen Hc reads. unfold putChunk in Hrun.
  set (start := (c * chunkSize)%nat) in *.
  set (end_ := if (length objects <? start + chunkSize)%nat
               then length objects else (start + chunkSize)%nat) in *.
  assert (start <= end_ /\ end_ <= length objects /\
          end_ - start = chunkSize `min` length (drop start objects))%nat as (H1 & H2 & H3).
  { subst end_. rewrite length_drop.
    destruct (Nat.ltb_spec (length objects) (start + chunkSize)); lia. }
  apply putManyObjects_ok in Hrun; try done.
  cbv zeta in Hrun. rewrite H3, take_min_length in Hrun. fold reads in Hrun.
  set (chunk := chunkIds reads (firstNewIdFor box reads (env w)) 0) in *.
  assert (length chunk = (end_ - start)%nat) as Hchunk.
  { subst chunk reads. unfold readIds.
    rewrite chunkIds_length, length_map, length_take. lia. }
  subst ids'. repeat split.
  - rewrite !length_app, length_take, length_drop, Hchunk. lia.
  - rewrite take_app_le by (rewrite length_take; lia).
    rewrite take_take. f_equal. lia.
  - rewrite drop_app_length' by (rewrite length_take; lia).
    destruct (Nat.ltb_spec (length objects) (start + chunkSize)) as [Hlt | Hge].
    + rewrite drop_ge by lia. rewrite app_nil_r. apply take_ge. lia.
    + rewrite take_app_length'; [done | lia].
Qed.

(** The rounds from chunk [a] on leave the ids of the chunks before [a]
    alone. *)
Lemma putChunks_frame (box : Box St Any Builder) (objects : list Any) (n a : nat)
  (ids ids' : list N) (w w' : World St Any Builder) :
  forEach (seq a n) (putChunk box objects (length objects)) ids w = ((ids', None), w') ->
  length ids = length objects ->
  (forall c, a <= c < a + n -> c * chunkSize < length objects)%nat ->
  length ids' = length objects /\ take (a * chunkSize) ids' = take (a * chunkSize) ids.
Proof.
  revert a ids w. induction n as [|n IH]; intros a ids w; cbn [seq forEach].
  - by intros [= <- <-].
  - intros Hrun Hlen Hc. revert Hrun. unfold bind at 1.
    destruct (putChunk box objects (length objects) a ids w) as [[ids1 [e|]] w1] eqn:E1;
      [done|].
    intros Hrun.
    apply putChunk_ok in E1; [| done | apply Hc; lia].
    destruct E1 as (Hl1 & Ht1 & _).
    apply IH in Hrun; [| done | intros c ?; apply Hc; lia].
    destruct Hrun as (Hl & Ht). split; [done|].
    rewrite <- Ht1.
    replace (a * chunkSize)%nat with ((a * chunkSize) `min` (S a * chunkSize))%nat by lia.
    by rewrite <- !take_take, Ht.
Qed.

Lemma putChunks_length (box : Box St Any Builder) (objects : list Any) (ids : list N)
  (w w' : World St Any Builder) :
  putChunks box objects (length objects) (replicate (length objects) 0) w = ((ids, None), w') ->
  length ids = length objects.
Proof.
  unfold putChunks. cbv zeta. intros Hrun.
  apply putChunks_frame in Hrun as [Hl _]; [done | by rewrite length_replicate |].
  intros c Hc. apply chunks_spec. lia.
Qed.

(** The world in which chunk [c] starts: after the [c] chunks before it. *)
Definition chunkStart (box : Box St Any Builder) (objects : list Any) (c : nat)
  (w : World St Any Builder) : World St Any Builder :=
  (forEach (seq 0 c) (putChunk box objects (length objects))
           (replicate (length objects) 0) w).2.

Lemma putChunks_ok (box : Box St Any Builder) (objects : list Any) (ids : list N)
  (w w' : World St Any Builder) (c : nat) :
  putChunks box objects (length objects) (replicate (length objects) 0) w = ((ids, None), w') ->
  (c * chunkSize < length objects)%nat ->
  let wc := chunkStart box objects c w in
  let reads := readIds box (take chunkSize (drop (c * chunkSize) objects)) (env wc) in
  length ids = length objects /\
  take chunkSize (drop (c * chunkSize) ids) =
    chunkIds reads (firstNewIdFor box reads (env wc)) 0.
Proof.
  intros Hrun Hc wc reads. unfold putChunks in Hrun. cbv zeta in Hrun.
  set (chunks := (length objects / chunkSize +
                  (if (length objects mod chunkSize =? 0)%nat then 0 else 1))%nat) in *.
  assert (forall c', c' < chunks -> c' * chunkSize < length objects)%nat as Hall.
  { intros c'. apply chunks_spec. }
  assert (c < chunks)%nat as Hlt by (by apply chunks_spec).
  replace chunks with (c + S (chunks - S c))%nat in Hrun by lia.
  rewrite seq_app, forEach_app in Hrun. cbv zeta in Hrun. cbn [Nat.add seq forEach] in Hrun.
  subst wc reads. unfold chunkStart.
  destruct (forEach (seq 0 c) _ _ w) as [[idsc [e|]] wc] eqn:Ec; cbn [fst snd] in *;
    [done|].
  apply putChunks_frame in Ec;
    [| by rewrite length_replicate | intros c' ?; apply Hall; lia].
  destruct Ec as (Hlc & _).
  revert Hrun. unfold bind at 1.
  destruct (putChunk box objects (length objects) c idsc wc) as [[ids1 [e|]] w1] eqn:E1;
    [done|].
  intros Hrun. apply putChunk_ok in E1; try done.
  destruct E1 as (Hl1 & _ & Hchunk).
  apply putChunks_frame in Hrun; [| done | intros c' ?; apply Hall; lia].
  destruct Hrun as (Hl & Ht). split; [done|].
  rewrite <- Hchunk.
  rewrite !take_drop_commute. f_equal.
  replace (c * chunkSize + chunkSize)%nat with (S c * chunkSize)%nat by lia. done.
Qed.


(** One successful round of the one-by-one loop. *)
Lemma putEachStep_ok (box : Box St Any Builder) (objects : list Any) (i : nat)
  (ids ids' : list N) (w w' : World St Any Builder) :
  putEachStep box objects i ids w = ((ids', None), w') ->
  exists o, objects !! i = Some o /\
            ids' = <[i := (put box o true cPutModePut w).1.1]> ids.
Proof.
  unfold putEachStep, slice_Index. destruct (objects !! i) as [o|]; [| done].
  unfold bind, ret.
  destruct (put box o true cPutModePut w) as [[id [e|]] w1] eqn:E; [done|].
  intros [= <- _]. exists o. by rewrite E.
Qed.

Lemma putEach_frame (box : Box St Any Builder) (objects : list Any) (n a : nat)
  (ids ids' : list N) (w w' : World St Any Builder) :
  forEach (seq a n) (putEachStep box objects) ids w = ((ids', None), w') ->
  length ids' = length ids /\ take a ids' = take a ids.
Proof.
  revert a ids w. induction n as [|n IH]; intros a ids w; cbn [seq forEach].
  - unfold ret. intros [= <- <-]. by split.
  - unfold bind at 1.
    destruct (putEachStep box objects a ids w) as [[ids1 [e|]] w1] eqn:E1; [done|].
    intros Hrun. apply putEachStep_ok in E1 as (o & _ & ->).
    apply IH in Hrun as (Hl & Ht). rewrite length_insert in Hl. split; [done|].
    replace a with (a `min` S a)%nat at 1 by lia.
    rewrite <- take_take, Ht, take_take, Nat.min_l by lia.
    by rewrite take_insert_ge.
Qed.

(** The world in which object [i] is put: after the [i] puts before it. *)
Definition eachStart (box : Box St Any Builder) (objects : list Any) (i : nat)
  (w : World St Any Builder) : World St Any Builder :=
  (forEach (seq 0 i) (putEachStep box objects) (replicate (length objects) 0) w).2.

(** The id a successful [put] returns: in update mode the id read from
    the object, otherwise the id the allocator resolved for it, its first
    answer or, when that is 0, its second; never 0. *)
Lemma put_resolved_id (box : Box St Any Builder) (object : Any) (alreadyInTx : bool)
  (putMode : OBXPutMode) (w w' : World St Any Builder) (id : N) :
  put box object alreadyInTx putMode w = ((id, None), w') ->
  let idFromObject := (GetId (binding box) object (env w)).1 in
  let first := obx_box_id_for_put eng (cBox box) idFromObject (env w) in
  let second := obx_box_id_for_put eng (cBox box) idFromObject first.2 in
  id <> 0 /\
  id = if OBXPutMode_eqb putMode cPutModeUpdate then idFromObject
       else if first.1 =? 0 then second.1 else first.1.
Proof.
  cbv zeta. unfold put. unfold bind at 1, query at 1.
  destruct (GetId (binding box) object (env w)) as [idf [e|]]; [done|]. cbn [fst].
  unfold bind at 1.
  set (w0 := mkWorld (env w) (fbbPool w) (trace w ++ [EvGetId object])).
  set (resolve := if OBXPutMode_eqb putMode cPutModeUpdate then _ else _).
  assert (forall id1 w1, resolve w0 = ((id1, None), w1) ->
            id1 <> 0 /\
            id1 = if OBXPutMode_eqb putMode cPutModeUpdate then idf
                  else if (obx_box_id_for_put eng (cBox box) idf (env w)).1 =? 0
                       then (obx_box_id_for_put eng (cBox box) idf
                               (obx_box_id_for_put eng (cBox box) idf (env w)).2).1
                       else (obx_box_id_for_put eng (cBox box) idf (env w)).1) as Hres.
  { intros id1 w1. subst resolve. destruct (OBXPutMode_eqb putMode cPutModeUpdate).
    - destruct (N.eqb_spec idf 0); unfold ret; [done | by intros [= <- _]].
    - rewrite idForPut_run. cbv zeta. cbn [env w0].
      destruct (N.eqb_spec (obx_box_id_for_put eng (cBox box) idf (env w)).1 0);
        [| by intros [= <- _]].
      match goal with |- context [?x =? 0] => destruct (N.eqb_spec x 0) end;
        [done | by intros [= <- _]]. }
  destruct (resolve w0) as [[id1 [e|]] w1]; [done|].
  specialize (Hres id1 w1 eq_refl).
  unfold bind, ret. repeat case_match; intros; simplify_eq; done.
Qed.

(** One successful round of the one-by-one loop: the put of object [i]
    succeeded and its id is stored at position [i]. *)
Lemma putEachStep_put_ok (box : Box St Any Builder) (objects : list Any) (i : nat)
  (ids ids' : list N) (w w' : World St Any Builder) :
  putEachStep box objects i ids w = ((ids', None), w') ->
  exists o id, objects !! i = Some o /\
               put box o true cPutModePut w = ((id, None), w') /\
               ids' = <[i := id]> ids.
Proof.
  unfold putEachStep, slice_Index. destruct (objects !! i) as [o|]; [| done].
  unfold bind, ret.
  destruct (put box o true cPutModePut w) as [[id [e|]] w1] eqn:E; [done|].
  intros [= <- <-]. by exists o, id.
Qed.

(** In a successful one-by-one loop the put of every object succeeded, in
    the world the puts before it left, and its id is the one returned. *)
Lemma putEach_put_ok (box : Box St Any Builder) (objects : list Any) (ids : list N)
  (w w' : World St Any Builder) (i : nat) (o : Any) :
  putEach box objects (length objects) (replicate (length objects) 0) w = ((ids, None), w') ->
  objects !! i = Some o ->
  exists id wi', put box o true cPutModePut (eachStart box objects i w) = ((id, None), wi') /\
                 ids !! i = Some id.
Proof.
  intros Hrun Ho. unfold putEach in Hrun.
  assert (i < length objects)%nat as Hi by (by eapply lookup_lt_Some).
  replace (length objects) with (i + S (length objects - S i))%nat in Hrun at 1 by lia.
  rewrite seq_app, forEach_app in Hrun. cbv zeta in Hrun. cbn [Nat.add seq forEach] in Hrun.
  unfold eachStart.
  destruct (forEach (seq 0 i) _ _ w) as [[idsi [e|]] wi] eqn:Ei; cbn [fst snd] in *;
    [done|].
  apply putEach_frame in Ei as [Hli _]. rewrite length_replicate in Hli.
  revert Hrun. unfold bind at 1.
  destruct (putEachStep box objects i idsi wi) as [[ids1 [e|]] w1] eqn:E1; [done|].
  intros Hrun. apply putEachStep_put_ok in E1 as (o' & id & Ho' & Hput & ->).
  assert (o' = o) as -> by congruence.
  exists id, w1. split; [exact Hput|].
  apply putEach_frame in Hrun as [_ Ht].
  rewrite <- (lookup_take_lt ids (S i) i) by lia. rewrite Ht.
  rewrite lookup_take_lt by lia. apply list_lookup_insert_eq. lia.
Qed.

(** What a successful transaction returned is what its closure returned,
    run in the world the begin of the transaction left. *)
Lemma runInTxn_ok {A} (write : bool) (dflt a : A) (fn : M St Any Builder (A * error))
  (w w' : World St Any Builder) :
  runInTxn write dflt fn w = ((a, None), w') ->
  exists w2, fn (call (EvTxnBegin write) (obx_txn_begin eng write) w).2 = ((a, None), w2).
Proof.
  unfold runInTxn. mred.
  destruct (obx_txn_begin eng write (env w)) as [[] s1]; mred; [| done].
  destruct (fn _) as [[a' [e|]] w2]; mred.
  - destruct (obx_txn_close eng (env w2)) as [rc s2]. mred. done.
  - intros H. exists w2. f_equal. f_equal. revert H.
    repeat (case_match; mred); simplify_eq; try done; by intros [= -> _].
Qed.

(** C1. A successful [PutMany] returns one id per input object.  With
    result arrays the input is cut in chunks of 10000 and the ids of chunk
    [c] are, in input order, those of the spec's chunk: the id the object
    has when the chunk starts, and for the objects without one the
    consecutive ids (uint64 addition) of the block the engine reserved for
    the chunk.  Without result arrays the id at position [i] is the id the
    allocator resolved for object [i] when its turn came, after the puts of
    the objects before it: the allocator's answer for the id the object
    has, or its second answer when the first is 0; it is never 0. *)
Theorem PutMany_ids_in_input_order (box : Box St Any Builder) (objects : list Any)
  (ids : list N) (w w' : World St Any Builder) :
  PutMany box objects w = ((Some ids, None), w') ->
  let w1 := (call (EvTxnBegin true) (obx_txn_begin eng true) w).2 in
  length ids = length objects /\
  (supportsResultArray eng = true ->
   forall c, (c * chunkSize < length objects)%nat ->
     let wc := chunkStart box objects c w1 in
     let reads := readIds box (take chunkSize (drop (c * chunkSize) objects)) (env wc) in
     take chunkSize (drop (c * chunkSize) ids) =
       chunkIds reads (firstNewIdFor box reads (env wc)) 0) /\
  (supportsResultArray eng = false ->
   forall i o, objects !! i = Some o ->
     let wi := eachStart box objects i w1 in
     let idFromObject := (GetId (binding box) o (env wi)).1 in
     let first := obx_box_id_for_put eng (cBox box) idFromObject (env wi) in
     let second := obx_box_id_for_put eng (cBox box) idFromObject first.2 in
     ids !! i = Some (if first.1 =? 0 then second.1 else first.1) /\
     ids !! i <> Some 0).
Proof.
  intros Hrun w1. unfold PutMany in Hrun. cbv zeta in Hrun.
  destruct (length objects) as [|n] eqn:Hlen.
  { revert Hrun. unfold ret. intros [= <- _]. apply nil_length_inv in Hlen as ->.
    split; [done|]. split; [intros _ c Hc; cbn in Hc; lia | by intros _ i o ?]. }
  rewrite <- Hlen in *. clear n Hlen.
  revert Hrun. unfold bind at 1. unfold RunInWriteTx.
  destruct (runInTxn true _ _ w) as [[ids' [e|]] w2] eqn:Etx; unfold ret; [done|].
  intros [= -> _]. apply runInTxn_ok in Etx as [w3 Hfn]. fold w1 in Hfn.
  destruct (supportsResultArray eng).
  - split; [by eapply putChunks_length|]. split; [| done].
    intros _ c Hc. by apply (putChunks_ok _ _ _ _ _ c Hfn).
  - split; [apply putEach_frame in Hfn as [Hl _]; by rewrite Hl, length_replicate|].
    split; [done|].
    intros _ i o Ho. cbv zeta.
    destruct (putEach_put_ok _ _ _ _ _ i o Hfn Ho) as (id & wi' & Hput & Hid).
    destruct (put_resolved_id _ _ _ _ _ _ _ Hput) as [Hnz Heq]. cbn [OBXPutMode_eqb] in Heq.
    rewrite Hid. split; [by rewrite <- Heq | by intros [= ->]].
Qed.


(** ** Relation synchronisation: the reconciliation *)

Lemma bool_decide_cons (x t : N) (l : list N) :
  bool_decide (x ∈ t :: l) = bool_decide (x = t) || bool_decide (x ∈ l).
Proof.
  destruct (decide (x = t)) as [-> | Hne].
  - rewrite (bool_decide_eq_true_2 (t = t)) by done.
    rewrite bool_decide_eq_true_2; [done | by left].
  - rewrite (bool_decide_eq_false_2 (x = t)) by done. cbn [orb].
    apply bool_decide_ext. rewrite elem_of_cons.
    split; [by intros [? | ?] | by right].
Qed.

Lemma markOld_lookup (oldRelIds : list N) (m : gmap N bool) (x : N) :
  markOld oldRelIds m !! x = if bool_decide (x ∈ oldRelIds) then Some true else m !! x.
Proof.
  revert m. unfold markOld.
  induction oldRelIds as [|a l IH]; intros m; cbn [foldl].
  - done.
  - rewrite IH, bool_decide_cons. destruct (decide (x = a)) as [-> | Hne].
    + rewrite (bool_decide_eq_true_2 (a = a)) by done. cbn [orb].
      case_bool_decide; [done | by rewrite lookup_insert_eq].
    + rewrite (bool_decide_eq_false_2 (x = a)) by done. cbn [orb].
      by rewrite lookup_insert_ne.
Qed.








Lemma filter_none (p : Event Any -> bool) (evs : list (Event Any)) :
  Forall (fun e => p e = false) evs -> List.filter p evs = [].
Proof.
  induction 1 as [|e evs He _ IH]; [done|]. cbn. by rewrite He.
Qed.










(** ** The single put: what it calls and when *)

Definition is_set_id (e : Event Any) : bool :=
  match e with EvSetId _ _ => true | _ => false end.

Definition is_txn_begin (e : Event Any) : bool :=
  match e with EvTxnBegin _ => true | _ => false end.

Definition is_put5 (e : Event Any) : bool :=
  match e with EvPut5 _ _ _ _ => true | _ => false end.


Definition is_load (e : Event Any) : bool :=
  match e with EvLoad _ => true | _ => false end.

(** The three stages of [put] after the id was read: the id is resolved,
    the object is written (in a transaction of its own when the entity has
    relations and none is open), and the id is written back. *)
Definition resolveId (box : Box St Any Builder) (putMode : OBXPutMode) (idFromObject : N) :
  M St Any Builder (N * error) :=
  if OBXPutMode_eqb putMode cPutModeUpdate then
    if idFromObject =? 0
    then ret (0, Some (errors_New msgUpdateZeroId))
    else ret (idFromObject, None)
  else idForPut box idFromObject.

Definition writeObject (box : Box St Any Builder) (id : N) (object : Any)
  (alreadyInTx : bool) (putMode : OBXPutMode) : M St Any Builder error :=
  if hasRelations box && negb alreadyInTx then
    '(_, err) <- RunInWriteTx tt (err <- putOne box id object putMode ; ret (tt, err)) ;
    ret err
  else putOne box id object putMode.

Lemma put_stages (box : Box St Any Builder) (object : Any) (alreadyInTx : bool)
  (putMode : OBXPutMode) :
  put box object alreadyInTx putMode =
    ('(idFromObject, err) <- query (EvGetId object) (GetId (binding box) object) ;
     match err with
     | Some e => ret (0, Some e)
     | None =>
         '(id, err) <- resolveId box putMode idFromObject ;
         match err with
         | Some e => ret (0, Some e)
         | None =>
             err <- writeObject box id object alreadyInTx putMode ;
             err <- (if negb (isErr err) && negb (idFromObject =? id)
                     then call (EvSetId object id) (SetId (binding box) object id)
                     else ret err) ;
             ret (if isErr err then 0 else id, err)
         end
     end).
Proof. reflexivity. Qed.

(** The calls of the id resolution. *)
Definition alloc_event (e : Event Any) : bool :=
  match e with
  | EvIdForPut _ _ | EvLockOSThread | EvUnlockOSThread | EvLastError => true
  | _ => false
  end.

(** The calls of [putOne] for [object] under [id]. *)
Definition putOne_event (box : Box St Any Builder) (id : N) (object : Any)
  (putMode : OBXPutMode) (e : Event Any) : Prop :=
  match e with
  | EvPutRelated o i => o = object /\ i = id
  | EvFlatten o i => o = object /\ i = id
  | EvPut5 c i _ m => c = cBox box /\ i = id /\ m = putMode
  | EvPoolGet | EvPoolPut | EvLastError => True
  | _ => False
  end.

(** The calls of the transaction [put] opens itself. *)
Definition own_txn_event (e : Event Any) : bool :=
  match e with
  | EvTxnBegin true | EvTxnSuccess | EvTxnClose | EvLastError => true
  | _ => false
  end.

Lemma resolveId_success (box : Box St Any Builder) (putMode : OBXPutMode)
  (idFromObject id : N) (w w' : World St Any Builder) :
  resolveId box putMode idFromObject w = ((id, None), w') -> id <> 0.
Proof.
  unfold resolveId. destruct (OBXPutMode_eqb putMode cPutModeUpdate).
  - destruct (N.eqb_spec idFromObject 0); unfold ret; [done|]. by intros [= <- _].
  - rewrite idForPut_run. cbv zeta.
    destruct (N.eqb_spec (obx_box_id_for_put eng (cBox box) idFromObject (env w)).1 0);
      [| by intros [= <- _]].
    match goal with |- context [?x =? 0] => destruct (N.eqb_spec x 0) end;
      [done | by intros [= <- _]].
Qed.

Lemma resolveId_update (box : Box St Any Builder) (idFromObject : N)
  (w : World St Any Builder) :
  resolveId box cPutModeUpdate idFromObject w =
    (if idFromObject =? 0 then (0, Some (errors_New msgUpdateZeroId))
     else (idFromObject, None), w).
Proof. unfold resolveId. cbn. by destruct (idFromObject =? 0). Qed.

Lemma runs_resolveId (box : Box St Any Builder) (putMode : OBXPutMode) (idFromObject : N) :
  runs (fun e => alloc_event e = true) (fun _ => True) (resolveId box putMode idFromObject).
Proof.
  unfold resolveId.
  destruct (OBXPutMode_eqb putMode cPutModeUpdate); [| by apply runs_idForPut].
  destruct (idFromObject =? 0); by apply runs_ret.
Qed.

Lemma runs_putOne (box : Box St Any Builder) (id : N) (object : Any) (putMode : OBXPutMode) :
  runs (putOne_event box id object putMode) (fun _ => True) (putOne box id object putMode).
Proof. unfold putOne, withObjectBytes, cCall, createError. runs_tac. Qed.

Lemma runs_writeObject (box : Box St Any Builder) (id : N) (object : Any)
  (alreadyInTx : bool) (putMode : OBXPutMode) :
  runs (fun e => putOne_event box id object putMode e \/
                 (hasRelations box && negb alreadyInTx = true /\ own_txn_event e = true))
       (fun _ => True) (writeObject box id object alreadyInTx putMode).
Proof.
  unfold writeObject. destruct (hasRelations box && negb alreadyInTx) eqn:Htx.
  - eapply runs_bind with (Q1 := fun _ => True).
    + apply runs_runInTxn; try (by right).
      eapply runs_bind with (Q1 := fun _ => True); [| intros ? _; by apply runs_ret].
      intros w. destruct (runs_putOne box id object putMode w) as (evs & E & F & _).
      exists evs. split; [done|]. split; [| done].
      eapply Forall_impl; [exact F|]. intros e He. by left.
    + intros [? ?] _. by apply runs_ret.
  - intros w. destruct (runs_putOne box id object putMode w) as (evs & E & F & _).
    exists evs. split; [done|]. split; [| done].
    eapply Forall_impl; [exact F|]. intros e He. by left.
Qed.

(** The log of a [put] whose object has a readable id: the id is read,
    then resolved, then the object written, then the id written back; and
    what a successful [put] returns. *)
Lemma put_trace (box : Box St Any Builder) (object : Any) (alreadyInTx : bool)
  (putMode : OBXPutMode) (idFromObject : N) (w : World St Any Builder) :
  GetId (binding box) object (env w) = (idFromObject, None) ->
  exists evs_r evs_w evs_s id_r,
    events_of (put box object alreadyInTx putMode) w =
      [EvGetId object] ++ evs_r ++ evs_w ++ evs_s /\
    Forall (fun e => alloc_event e = true) evs_r /\
    (putMode = cPutModeUpdate -> evs_r = [] /\ id_r = idFromObject) /\
    Forall (fun e => putOne_event box id_r object putMode e \/
                     (hasRelations box && negb alreadyInTx = true /\
                      own_txn_event e = true)) evs_w /\
    (evs_s = [] \/ (evs_s = [EvSetId object id_r] /\ id_r <> idFromObject)) /\
    (forall id, (put box object alreadyInTx putMode w).1 = (id, None) ->
       id = id_r /\ id <> 0 /\
       (evs_s = if idFromObject =? id then [] else [EvSetId object id]) /\
       exists w2 w3, writeObject box id_r object alreadyInTx putMode w2 = (None, w3) /\
                     evs_w = events_of (writeObject box id_r object alreadyInTx putMode) w2).
Proof.
  intros Hget. unfold events_of.
  remember (put box object alreadyInTx putMode w) as r eqn:Hr.
  rewrite put_stages in Hr. unfold bind at 1 in Hr. unfold query at 1 in Hr.
  rewrite Hget in Hr.
  set (w1 := mkWorld (env w) (fbbPool w) (trace w ++ [EvGetId object])) in *.
  unfold bind at 1 in Hr.
  destruct (runs_resolveId box putMode idFromObject w1) as (evs_r & Er & Fr & _).
  pose proof (resolveId_success box putMode idFromObject) as Hnz.
  assert (putMode = cPutModeUpdate ->
          evs_r = [] /\ forall id w', resolveId box putMode idFromObject w1 = ((id, None), w')
                                      -> id = idFromObject) as Hupd.
  { intros ->. rewrite resolveId_update in Er |- *. cbn [snd] in Er.
    split.
    - apply (app_inv_head (trace w1)). by rewrite app_nil_r.
    - intros id w'. destruct (N.eqb_spec idFromObject 0); [done | by intros [= <- _]]. }
  destruct (resolveId box putMode idFromObject w1) as [[id1 [e1|]] w2] eqn:Eres;
    cbn [fst snd] in Er.
  - unfold ret in Hr. subst r. exists evs_r, [], [], idFromObject. cbn [fst snd].
    rewrite Er. cbn [trace w1]. rewrite <- app_assoc, drop_app_length, !app_nil_r.
    split; [done|]. split; [done|]. split; [by intros H; destruct (Hupd H)|].
    split; [constructor|]. split; [by left | done].
  - specialize (Hnz id1 w1 w2 Eres).
    unfold bind at 1 in Hr.
    destruct (runs_writeObject box id1 object alreadyInTx putMode w2) as (evs_w & Ew & Fw & _).
    assert (evs_w = events_of (writeObject box id1 object alreadyInTx putMode) w2) as Hevw
      by (symmetry; by apply events_of_app).
    destruct (writeObject box id1 object alreadyInTx putMode w2) as [e2 w3] eqn:Ewo;
      cbn [fst snd] in Ew.
    unfold bind at 1 in Hr.
    destruct (negb (isErr e2) && negb (idFromObject =? id1)) eqn:Hback.
    + unfold call at 1 in Hr.
      destruct (SetId (binding box) object id1 (env w3)) as [e3 s4]. unfold ret in Hr.
      subst r. exists evs_r, evs_w, [EvSetId object id1], id1. cbn [fst snd trace].
      rewrite Ew, Er. cbn [trace w1]. rewrite <- !app_assoc, drop_app_length.
      split; [done|]. split; [done|].
      split; [intros H; destruct (Hupd H) as [? Hid]; split; [done | by eapply Hid]|].
      apply andb_true_iff in Hback as [He2 Hne]. apply negb_true_iff in Hne.
      split; [done|]. split; [right; split; [done|]; intros ->; by rewrite N.eqb_refl in Hne|].
      intros id. destruct e3 as [e3|]; cbn [isErr]; [done|]. intros [= <-].
      split; [done|]. split; [done|]. split; [by rewrite Hne|].
      destruct e2; [done|]. by eexists _, _.
    + unfold ret in Hr. subst r. exists evs_r, evs_w, [], id1. cbn [fst snd trace].
      rewrite Ew, Er. cbn [trace w1]. rewrite <- !app_assoc, drop_app_length, app_nil_r.
      split; [done|]. split; [done|].
      split; [intros H; destruct (Hupd H) as [? Hid]; split; [done | by eapply Hid]|].
      split; [done|]. split; [by left|].
      intros id. destruct e2 as [e2|]; cbn [isErr]; [done|]. intros [= <-].
      split; [done|]. split; [done|].
      cbn [isErr negb andb] in Hback. apply negb_false_iff in Hback.
      split; [by rewrite Hback | by eexists _, _].
Qed.

Lemma filter_nil_impl (p : Event Any -> bool) (P : Event Any -> Prop)
  (evs : list (Event Any)) :
  (forall e, P e -> p e = false) -> Forall P evs -> List.filter p evs = [].
Proof.
  intros Himpl F. apply filter_none. eapply Forall_impl; [exact F | exact Himpl].
Qed.

Lemma count_events_app (p : Event Any -> bool) (l k : list (Event Any)) :
  count_events p (l ++ k) = (count_events p l + count_events p k)%nat.
Proof. unfold count_events. by rewrite List.filter_app, length_app. Qed.

Lemma alloc_event_not (p : Event Any -> bool) :
  p EvLastError = false -> p EvLockOSThread = false -> p EvUnlockOSThread = false ->
  (forall c i, p (EvIdForPut c i) = false) ->
  forall e, alloc_event e = true -> p e = false.
Proof. intros H1 H2 H3 H4 e. by destruct e. Qed.

Lemma write_event_not (p : Event Any -> bool) (box : Box St Any Builder) (id : N)
  (object : Any) (putMode : OBXPutMode) (tx : bool) :
  p EvLastError = false -> p EvPoolGet = false -> p EvPoolPut = false ->
  (forall o i, p (EvPutRelated o i) = false) -> (forall o i, p (EvFlatten o i) = false) ->
  (forall c i d m, p (EvPut5 c i d m) = false) ->
  (tx = true -> p (EvTxnBegin true) = false /\ p EvTxnSuccess = false /\ p EvTxnClose = false) ->
  forall e, putOne_event box id object putMode e \/ (tx = true /\ own_txn_event e = true) ->
            p e = false.
Proof.
  intros H1 H2 H3 H4 H5 H6 H7 e [He | [Htx He]].
  - by destruct e.
  - destruct (H7 Htx) as (? & ? & ?). destruct e as [| | | | | | | | |[]| | | | | | | | | | | | | |]; done.
Qed.

(** X1. A [put] that succeeds returns a nonzero id that the code resolved
    from the object: in update mode the id read from the object, in any
    other mode the allocator's answer for that id, its first answer or,
    when that is 0, the answer of the retry. *)
Theorem put_success_id_nonzero (box : Box St Any Builder) (object : Any)
  (alreadyInTx : bool) (putMode : OBXPutMode) (w w' : World St Any Builder) (id : N) :
  put box object alreadyInTx putMode w = ((id, None), w') ->
  let idFromObject := (GetId (binding box) object (env w)).1 in
  let first := obx_box_id_for_put eng (cBox box) idFromObject (env w) in
  let second := obx_box_id_for_put eng (cBox box) idFromObject first.2 in
  id <> 0 /\
  (putMode = cPutModeUpdate -> id = idFromObject) /\
  (putMode <> cPutModeUpdate -> id = if first.1 =? 0 then second.1 else first.1).
Proof.
  intros Hput idFromObject first second.
  destruct (put_resolved_id box object alreadyInTx putMode w w' id Hput) as [Hnz Hid].
  fold idFromObject first second in Hid.
  split; [exact Hnz|]. split.
  - intros ->. exact Hid.
  - intros Hmode. by destruct putMode.
Qed.

(** X2. A [put] that succeeds writes the id back onto the object exactly
    when the returned id differs from the id the object had: then [SetId]
    is called once, with the returned id, as the last call; otherwise it is
    not called. *)
Theorem put_writes_new_id_back (box : Box St Any Builder) (object : Any)
  (alreadyInTx : bool) (putMode : OBXPutMode) (w w' : World St Any Builder)
  (idFromObject id : N) :
  GetId (binding box) object (env w) = (idFromObject, None) ->
  put box object alreadyInTx putMode w = ((id, None), w') ->
  let evs := events_of (put box object alreadyInTx putMode) w in
  List.filter is_set_id evs = (if idFromObject =? id then [] else [EvSetId object id]) /\
  (idFromObject <> id -> exists before, evs = before ++ [EvSetId object id]).
Proof.
  intros Hget Hput evs.
  destruct (put_trace box object alreadyInTx putMode idFromObject w Hget)
    as (evs_r & evs_w & evs_s & id_r & Hevs & Fr & _ & Fw & _ & Hok).
  destruct (Hok id ltac:(by rewrite Hput)) as (Eid & _ & Hs & _). subst id_r.
  subst evs. rewrite Hevs. split.
  - rewrite !List.filter_app. cbn [List.filter is_set_id].
    rewrite (filter_nil_impl is_set_id _ evs_r (alloc_event_not is_set_id
               eq_refl eq_refl eq_refl (fun _ _ => eq_refl)) Fr).
    rewrite (filter_nil_impl is_set_id _ evs_w
               (write_event_not is_set_id box id object putMode _
                  eq_refl eq_refl eq_refl (fun _ _ => eq_refl) (fun _ _ => eq_refl)
                  (fun _ _ _ _ => eq_refl) (fun _ => conj eq_refl (conj eq_refl eq_refl))) Fw).
    rewrite Hs. by destruct (idFromObject =? id).
  - intros Hne. apply N.eqb_neq in Hne. rewrite Hne in Hs. subst evs_s.
    exists ([EvGetId object] ++ evs_r ++ evs_w). by rewrite <- !app_assoc.
Qed.

(** X3. In update mode [put] never asks the engine for an id and never
    writes an id onto the object; whatever it writes, it writes under the
    id read from the object and in update mode. *)
Theorem put_update_keeps_object_id (box : Box St Any Builder) (object : Any)
  (alreadyInTx : bool) (w : World St Any Builder) (idFromObject : N) :
  GetId (binding box) object (env w) = (idFromObject, None) ->
  let evs := events_of (put box object alreadyInTx cPutModeUpdate) w in
  count_events is_id_for_put evs = 0%nat /\
  count_events is_set_id evs = 0%nat /\
  (forall e, e ∈ evs -> is_put5 e = true ->
     exists data, e = EvPut5 (cBox box) idFromObject data cPutModeUpdate).
Proof.
  intros Hget evs.
  destruct (put_trace box object alreadyInTx cPutModeUpdate idFromObject w Hget)
    as (evs_r & evs_w & evs_s & id_r & Hevs & _ & Hupd & Fw & Hs & _).
  destruct (Hupd eq_refl) as [-> ->].
  assert (evs_s = []) as -> by (by destruct Hs as [? | [_ ?]]).
  subst evs. rewrite Hevs. cbn [app]. rewrite app_nil_r.
  split; [| split].
  - change (EvGetId object :: evs_w) with ([EvGetId object] ++ evs_w).
    rewrite count_events_app. unfold count_events at 1. cbn.
    unfold count_events.
    by rewrite (filter_nil_impl is_id_for_put _ evs_w
                  (write_event_not is_id_for_put box idFromObject object cPutModeUpdate _
                     eq_refl eq_refl eq_refl (fun _ _ => eq_refl) (fun _ _ => eq_refl)
                     (fun _ _ _ _ => eq_refl) (fun _ => conj eq_refl (conj eq_refl eq_refl))) Fw).
  - change (EvGetId object :: evs_w) with ([EvGetId object] ++ evs_w).
    rewrite count_events_app. unfold count_events at 1. cbn.
    unfold count_events.
    by rewrite (filter_nil_impl is_set_id _ evs_w
                  (write_event_not is_set_id box idFromObject object cPutModeUpdate _
                     eq_refl eq_refl eq_refl (fun _ _ => eq_refl) (fun _ _ => eq_refl)
                     (fun _ _ _ _ => eq_refl) (fun _ => conj eq_refl (conj eq_refl eq_refl))) Fw).
  - intros e [-> | He]%elem_of_cons Hp; [done|].
    apply (proj1 (Forall_forall _ _) Fw) in He as [He | [_ He]].
    + destruct e; try done. destruct He as (-> & -> & ->). by eexists.
    + by destruct e as [| | | | | | | | |[]| | | | | | | | | | | | | |].
Qed.

(** The calls that open, commit and close a transaction. *)
Definition is_txn_bracket (e : Event Any) : bool :=
  match e with EvTxnBegin _ | EvTxnSuccess | EvTxnClose => true | _ => false end.

(** The calls that end a transaction: the commit, the close, and the
    engine's last error when one of them fails. *)
Definition is_txn_tail (e : Event Any) : bool :=
  match e with EvTxnSuccess | EvTxnClose | EvLastError => true | _ => false end.

Lemma runs_events_of {A} (P : Event Any -> Prop) (Q : A -> Prop) (m : M St Any Builder A)
  (w : World St Any Builder) :
  runs P Q m -> trace (m w).2 = trace w ++ events_of m w /\ Forall P (events_of m w).
Proof.
  intros H. destruct (H w) as (evs & E & F & _). by rewrite (events_of_app m w evs E).
Qed.



Lemma runs_put_no_txn (box : Box St Any Builder) (object : Any)
  (alreadyInTx : bool) (putMode : OBXPutMode) :
  hasRelations box && negb alreadyInTx = false ->
  runs (fun e => is_txn_bracket e = false) (fun _ => True)
       (put box object alreadyInTx putMode).
Proof.
  intros Htx. unfold put. rewrite Htx.
  unfold idForPut, putOne, withObjectBytes, cCall, createError. runs_tac.
Qed.


(** X5. When the engine refuses an id twice, a [put] in a mode other than
    update fails with the engine's last error and the id 0, after the id
    read and the two allocation calls only: nothing is encoded or written,
    the object keeps its id and the encoder pool is as before. *)
Theorem put_allocation_failure (box : Box St Any Builder) (object : Any)
  (alreadyInTx : bool) (putMode : OBXPutMode) (w : World St Any Builder)
  (idFromObject : N) :
  putMode <> cPutModeUpdate ->
  GetId (binding box) object (env w) = (idFromObject, None) ->
  let first := obx_box_id_for_put eng (cBox box) idFromObject (env w) in
  let second := obx_box_id_for_put eng (cBox box) idFromObject first.2 in
  let alloc := EvIdForPut (cBox box) idFromObject in
  first.1 = 0 -> second.1 = 0 ->
  put box object alreadyInTx putMode w =
    ((0, Some (obx_last_error eng second.2)),
     mkWorld second.2 (fbbPool w)
       (trace w ++ [EvGetId object; alloc; EvLockOSThread; alloc; EvLastError;
                    EvUnlockOSThread])).
Proof.
  intros Hmode Hget first second alloc H1 H2.
  rewrite put_stages. unfold bind at 1, query at 1. rewrite Hget.
  unfold bind at 1, resolveId.
  assert (OBXPutMode_eqb putMode cPutModeUpdate = false) as -> by (by destruct putMode).
  rewrite idForPut_run. cbv zeta. cbn [env fbbPool trace].
  fold first. rewrite H1. fold second. rewrite H2. cbn [N.eqb]. unfold ret.
  by rewrite <- app_assoc.
Qed.

(** X6. [putOne] stops at the first failure: an error of [PutRelated] is
    returned before anything is encoded, an error of [Flatten] before
    anything is written.  Otherwise it writes once, under the given id and
    mode, the bytes the binding encoded, and fails exactly when the engine
    refuses the write. *)
Theorem putOne_writes_encoded_bytes (box : Box St Any Builder) (id : N) (object : Any)
  (putMode : OBXPutMode) (w : World St Any Builder) :
  let related := if hasRelations box then PutRelated (binding box) object id (env w)
                 else (None, env w) in
  let flat := Flatten (binding box) object (hd (NewBuilder fb) (fbbPool w)) id related.2 in
  let data := FinishedBytes fb (Finish_EndObject fb flat.1) in
  let evs := events_of (putOne box id object putMode) w in
  let r := (putOne box id object putMode w).1 in
  (forall e, related.1 = Some e ->
     r = Some e /\ evs = [EvPutRelated object id]) /\
  (forall e, related.1 = None -> flat.2 = Some e ->
     r = Some e /\ List.filter is_encode evs = [EvFlatten object id] /\
     count_events is_engine_call evs = 0%nat) /\
  (related.1 = None -> flat.2 = None ->
     List.filter is_encode evs = [EvFlatten object id] /\
     List.filter is_put5 evs = [EvPut5 (cBox box) id data putMode] /\
     (r = None <-> (obx_box_put5 eng (cBox box) id data putMode related.2).1 = 0%Z)).
Proof.
  cbv zeta. unfold events_of, putOne, withObjectBytes, fbbPool_Get, fbbPool_Put. mred.
  destruct w as [s pool tr]. cbn [env fbbPool trace].
  destruct (hasRelations box); mred.
  - destruct (PutRelated (binding box) object id s) as [[e|] s1]; mred.
    + split; [| split]; [| done | done]. intros e' [= <-].
      by rewrite drop_app_length.
    + split; [done|]. destruct pool as [|b rest]; cbn [hd]; mred.
      all: destruct (Flatten (binding box) object _ id s1) as [fbb1 [e|]]; mred.
      all: repeat (case_match; mred); simplify_eq.
      all: cbn [trace]; rewrite <- ?app_assoc; cbn [app]; rewrite drop_app_length.
      all: repeat split; intros; simplify_eq; try done; try (by apply Z.eqb_eq).
      all: exfalso; match goal with H : (_ =? _)%Z = false |- _ => by apply Z.eqb_neq in H end.
  - split; [done|]. destruct pool as [|b rest]; cbn [hd]; mred.
    all: destruct (Flatten (binding box) object _ id s) as [fbb1 [e|]]; mred.
    all: repeat (case_match; mred); simplify_eq.
    all: cbn [trace]; rewrite <- ?app_assoc; cbn [app]; rewrite ?drop_app_length.
    all: repeat split; intros; simplify_eq; try done; try (by apply Z.eqb_eq).
    all: exfalso; match goal with H : (_ =? _)%Z = false |- _ => by apply Z.eqb_neq in H end.
Qed.


(** ** Bulk put: what a chunk calls and when *)

Definition is_ids_for_put (e : Event Any) : bool :=
  match e with EvIdsForPut _ _ => true | _ => false end.

Definition is_put_related (e : Event Any) : bool :=
  match e with EvPutRelated _ _ => true | _ => false end.

(** The calls of the encoding loop. *)
Definition is_encode_phase (e : Event Any) : bool :=
  match e with
  | EvPutRelated _ _ | EvFlatten _ _ | EvPoolGet | EvPoolPut => true
  | _ => false
  end.

(** The mode of the bulk write of a chunk, by the ids read: all objects
    new, or not. *)
Definition chunkMode (reads : list N) : OBXPutMode :=
  if existsb (N.ltb 0) reads then cPutModePut else cPutModePutIdGuaranteedToBeNew.

(** The indexes of the objects without id, the first object at [index]. *)
Fixpoint newIndexes (reads : list N) (index : nat) : list nat :=
  match reads with
  | [] => []
  | id :: rest =>
      if 0 <? id then newIndexes rest (S index) else index :: newIndexes rest (S index)
  end.

(** The ids written back onto the objects of a chunk: for each object
    without id, in input order, the id returned for it. *)
Fixpoint writeBacks (objs : list Any) (reads ids : list N) : list (Event Any) :=
  match objs, reads, ids with
  | o :: objs, r :: reads, id :: ids =>
      if 0 <? r then writeBacks objs reads ids
      else EvSetId o id :: writeBacks objs reads ids
  | _, _, _ => []
  end.

Lemma collectPure_indexes (reads : list N) (index : nat) (outIds : list N) :
  (collectPure reads index outIds).2 = newIndexes reads index.
Proof.
  revert index outIds. induction reads as [|id rest IH]; intros index outIds; cbn; [done|].
  destruct (0 <? id); [apply IH|].
  specialize (IH (S index) outIds). destruct (collectPure rest (S index) outIds).
  cbn in *. by rewrite IH.
Qed.

(** A successful first loop logs one [GetId] per object, in order, and
    leaves the mode of the bulk write. *)
Lemma collectIds_trace (box : Box St Any Builder) (objects : list Any) (start n a : nat)
  (out : list N) (mode : OBXPutMode) (idxs : list nat) (w w' : World St Any Builder)
  (st' : list N * OBXPutMode * list nat) :
  forEach (seq a n) (collectStep box objects start) (out, mode, idxs) w = ((st', None), w') ->
  (start + a + n <= length objects)%nat ->
  let objs := take n (drop (start + a) objects) in
  trace w' = trace w ++ map EvGetId objs /\
  st'.1.2 = if existsb (N.ltb 0) (readIds box objs (env w)) then cPutModePut else mode.
Proof.
  revert a out mode idxs w. induction n as [|n IH]; intros a out mode idxs w; cbn [seq forEach].
  - intros [= <- <-] _. cbn. by rewrite app_nil_r.
  - intros Hrun Hlen.
    destruct (lookup_lt_is_Some_2 objects (start + a)%nat ltac:(lia)) as [o Ho].
    rewrite (drop_S _ _ _ Ho). cbn [take readIds map existsb].
    revert Hrun. unfold bind at 1. unfold collectStep at 1.
    unfold slice_Index. rewrite Ho. unfold bind at 1. unfold query at 1.
    destruct (GetId (binding box) o (env w)) as [id [e|]] eqn:EG; [done|].
    cbn [fst]. destruct (0 <? id); unfold ret at 1; intros Hrun.
    + apply IH in Hrun; [| cbn [env]; lia]. cbn [env trace] in Hrun.
      rewrite Nat.add_succ_r in Hrun. destruct Hrun as [Ht Hm].
      fold (readIds box) in *. split; [by rewrite Ht, <- app_assoc|].
      cbn [orb]. rewrite Hm. by destruct (existsb _ _).
    + apply IH in Hrun; [| cbn [env]; lia]. cbn [env trace] in Hrun.
      rewrite Nat.add_succ_r in Hrun. destruct Hrun as [Ht Hm].
      fold (readIds box) in *. split; [by rewrite Ht, <- app_assoc|].
      by cbn [orb].
Qed.

Lemma idsForPut_trace (box : Box St Any Builder) (count : nat) (w w' : World St Any Builder)
  (firstNewId : N) :
  idsForPut box count w = ((firstNewId, None), w') ->
  trace w' = trace w ++ match count with
                        | O => []
                        | _ => [EvIdsForPut (cBox box) (N.of_nat count)]
                        end.
Proof.
  unfold idsForPut. destruct count as [|k]; mred.
  - intros [= _ <-]. by rewrite app_nil_r.
  - destruct (obx_box_ids_for_put eng (cBox box) _ (env w)) as [[rc cFirstID] s1]. mred.
    destruct (Z.eqb rc 0); mred; [by intros [= _ <-] | done].
Qed.

(** One successful round of the encoding loop. *)
Lemma flattenStep_trace (box : Box St Any Builder) (objects : list Any) (start : nat)
  (outIds : list N) (i : nat) (bs bs' : list bytes) (w w' : World St Any Builder) (o : Any) :
  flattenStep box objects start outIds i bs w = ((bs', None), w') ->
  objects !! (start + i)%nat = Some o ->
  exists evs, trace w' = trace w ++ evs /\
    Forall (fun e => is_encode_phase e = true) evs /\
    List.filter is_encode evs = [EvFlatten o (outIds !!! (start + i)%nat)] /\
    List.filter is_put_related evs =
      (if hasRelations box then [EvPutRelated o (outIds !!! (start + i)%nat)] else []) /\
    length bs' = length bs.
Proof.
  intros Hrun Ho. revert Hrun. unfold flattenStep, slice_Index. rewrite Ho.
  unfold withObjectBytes, fbbPool_Get, fbbPool_Put. mred.
  destruct w as [s pool tr]. cbn [env fbbPool trace].
  destruct (hasRelations box); mred.
  - destruct (PutRelated (binding box) o _ s) as [[e|] s1]; mred; [done|].
    destruct pool as [|b rest]; mred.
    all: destruct (Flatten (binding box) o _ _ s1) as [fbb1 [e|]]; mred.
    all: repeat (case_match; mred); simplify_eq; intros [= <- <-]; cbn [trace].
    all: rewrite <- ?app_assoc; cbn [app]; eexists; split; [done|].
    all: repeat split; try done; try (by repeat constructor); by rewrite length_insert.
  - destruct pool as [|b rest]; mred.
    all: destruct (Flatten (binding box) o _ _ s) as [fbb1 [e|]]; mred.
    all: repeat (case_match; mred); simplify_eq; intros [= <- <-]; cbn [trace].
    all: rewrite <- ?app_assoc; cbn [app]; eexists; split; [done|].
    all: repeat split; try done; try (by repeat constructor); by rewrite length_insert.
Qed.

(** A successful encoding loop encodes every object of the chunk once, in
    order, under the id [outIds] holds for it, after the relation fan-out
    of an entity with relations. *)
Lemma flattenObjects_trace (box : Box St Any Builder) (objects : list Any) (start n a : nat)
  (outIds : list N) (bs bs' : list bytes) (w w' : World St Any Builder) :
  forEach (seq a n) (flattenStep box objects start outIds) bs w = ((bs', None), w') ->
  (start + a + n <= length objects)%nat ->
  let objs := take n (drop (start + a) objects) in
  let ids := map (fun i => outIds !!! i) (seq (start + a) n) in
  exists evs, trace w' = trace w ++ evs /\
    Forall (fun e => is_encode_phase e = true) evs /\
    List.filter is_encode evs = zip_with EvFlatten objs ids /\
    List.filter is_put_related evs =
      (if hasRelations box then zip_with EvPutRelated objs ids else []) /\
    length bs' = length bs.
Proof.
  revert a bs w. induction n as [|n IH]; intros a bs w; cbn [seq forEach].
  - intros [= <- <-] _. exists []. rewrite app_nil_r. cbn. by destruct (hasRelations box).
  - intros Hrun Hlen.
    destruct (lookup_lt_is_Some_2 objects (start + a)%nat ltac:(lia)) as [o Ho].
    rewrite (drop_S _ _ _ Ho). cbn [take map zip_with].
    revert Hrun. unfold bind at 1.
    destruct (flattenStep box objects start outIds a bs w) as [[bs1 [e|]] w1] eqn:E1; [done|].
    intros Hrun. apply (flattenStep_trace _ _ _ _ _ _ _ _ _ o) in E1; [| done].
    destruct E1 as (evs1 & Et1 & F1 & Hf1 & Hr1 & Hl1).
    apply IH in Hrun; [| lia]. rewrite Nat.add_succ_r in Hrun.
    destruct Hrun as (evs2 & Et2 & F2 & Hf2 & Hr2 & Hl2).
    exists (evs1 ++ evs2). rewrite Et2, Et1, <- app_assoc.
    split; [done|]. split; [by apply Forall_app|].
    rewrite !List.filter_app, Hf1, Hf2, Hr1, Hr2.
    split; [done|]. split; [by destruct (hasRelations box) | congruence].
Qed.

(** A successful last loop writes onto each object without id, in order,
    the id [outIds] holds for it. *)
Lemma setNewIds_trace (box : Box St Any Builder) (objects : list Any) (outIds : list N)
  (reads : list N) (k : nat) (w w' : World St Any Builder) :
  forEach (newIndexes reads k) (setIdStep box objects outIds) tt w = ((tt, None), w') ->
  (k + length reads <= length objects)%nat ->
  trace w' = trace w ++ writeBacks (take (length reads) (drop k objects)) reads
                          (map (fun i => outIds !!! i) (seq k (length reads))).
Proof.
  revert k w. induction reads as [|r reads IH]; intros k w; cbn [newIndexes length].
  - cbn. intros [= <-] _. by rewrite app_nil_r.
  - intros Hrun Hlen.
    destruct (lookup_lt_is_Some_2 objects k ltac:(lia)) as [o Ho].
    rewrite (drop_S _ _ _ Ho). cbn [take seq map writeBacks].
    destruct (0 <? r).
    + apply IH in Hrun; [done | lia].
    + revert Hrun. cbn [forEach]. unfold bind at 1, setIdStep at 1, slice_Index.
      rewrite Ho. unfold bind at 1, call at 1.
      destruct (SetId (binding box) o (outIds !!! k) (env w)) as [[e|] s1]; [done|].
      unfold ret at 1. intros Hrun. apply IH in Hrun; [| lia].
      cbn [trace] in Hrun. by rewrite Hrun, <- app_assoc.
Qed.

Lemma lookup_total_segment (outIds : list N) (k n : nat) :
  (k + n <= length outIds)%nat ->
  map (fun i => outIds !!! i) (seq k n) = take n (drop k outIds).
Proof.
  revert k. induction n as [|n IH]; intros k Hlen; cbn [seq map]; [by rewrite take_0|].
  destruct (lookup_lt_is_Some_2 outIds k ltac:(lia)) as [x Hx].
  rewrite (drop_S _ _ _ Hx). cbn [take]. rewrite IH by lia.
  by rewrite (list_lookup_total_correct _ _ _ Hx).
Qed.

Lemma assignNewIds_length (idxs : list nat) (firstNewId : N) (i : nat) (outIds : list N) :
  length (assignNewIds idxs firstNewId i outIds) = length outIds.
Proof.
  revert i outIds. induction idxs as [|x idxs IH]; intros i outIds; cbn; [done|].
  by rewrite IH, length_insert.
Qed.

Lemma collectPure_length (reads : list N) (index : nat) (outIds : list N) :
  length (collectPure reads index outIds).1 = length outIds.
Proof.
  revert index outIds. induction reads as [|id rest IH]; intros index outIds; cbn; [done|].
  destruct (0 <? id).
  - by rewrite IH, length_insert.
  - specialize (IH (S index) outIds). by destruct (collectPure rest (S index) outIds).
Qed.

(** The log of a successful [putManyObjects]: the ids are read, one block
    of ids is reserved when some object has none, every object is encoded,
    the chunk is written in one engine call, and the new ids are written
    back onto their objects. *)
Lemma putManyObjects_trace (box : Box St Any Builder) (objects : list Any)
  (outIds out' : list N) (start end_ : nat) (w w' : World St Any Builder) :
  putManyObjects box objects outIds start end_ w = ((out', None), w') ->
  (start <= end_)%nat -> (end_ <= length objects)%nat -> length outIds = length objects ->
  let objs := take (end_ - start) (drop start objects) in
  let reads := readIds box objs (env w) in
  let ids := take (end_ - start) (drop start out') in
  exists evs_enc data,
    events_of (putManyObjects box objects outIds start end_) w =
      map EvGetId objs
      ++ match newCount reads with
         | O => []
         | _ => [EvIdsForPut (cBox box) (N.of_nat (newCount reads))]
         end
      ++ evs_enc
      ++ [EvPutMany (cBox box) data ids (chunkMode reads)]
      ++ writeBacks objs reads ids /\
    Forall (fun e => is_encode_phase e = true) evs_enc /\
    List.filter is_encode evs_enc = zip_with EvFlatten objs ids /\
    List.filter is_put_related evs_enc =
      (if hasRelations box then zip_with EvPutRelated objs ids else []) /\
    length data = (end_ - start)%nat.
Proof.
  intros Hrun Hse Hend Hlen objs reads ids.
  unfold events_of. rewrite Hrun. cbn [snd].
  unfold putManyObjects in Hrun. unfold bind at 1 in Hrun. unfold collectIds in Hrun.
  destruct (forEach (seq 0 (end_ - start)) _ _ w) as [[[[out1 mode] idxs] [e|]] w1] eqn:EC;
    [done|].
  pose proof EC as EC2.
  apply collectIds_loop in EC; [| lia]. apply collectIds_trace in EC2; [| lia].
  rewrite Nat.add_0_r in EC, EC2. fold objs in EC, EC2. fold reads in EC, EC2.
  cbn [fst snd app] in EC, EC2. destruct EC as (He & _ & H1 & H2). destruct EC2 as (Ht1 & Hm).
  rewrite collectPure_indexes in H2.
  unfold bind at 1 in Hrun.
  destruct (idsForPut box (length idxs) w1) as [[firstNewId [e|]] w2] eqn:EI; [done|].
  apply idsForPut_trace in EI.
  assert (length idxs = newCount reads) as Hcount
    by (by rewrite H2, <- (collectPure_indexes reads start outIds), collectPure_newCount).
  rewrite Hcount in EI.
  set (out2 := assignNewIds idxs firstNewId 0 out1) in *.
  assert (length out2 = length objects) as Hlen2.
  { subst out2. by rewrite assignNewIds_length, H1, collectPure_length. }
  unfold bind at 1 in Hrun. unfold flattenObjects in Hrun.
  destruct (forEach (seq 0 (end_ - start)) _ _ w2) as [[bs [e|]] w3] eqn:EF; [done|].
  apply flattenObjects_trace in EF; [| lia]. rewrite Nat.add_0_r in EF. fold objs in EF.
  rewrite lookup_total_segment in EF by lia.
  destruct EF as (evs_enc & Et3 & Fenc & Hfl & Hrel & Hbs).
  rewrite length_replicate in Hbs.
  destruct (goBytesArrayToC_error eng bs) as [e|]; [done|].
  unfold bind at 1 in Hrun. unfold cCall at 1 in Hrun. unfold bind at 1, call at 1 in Hrun.
  destruct (obx_box_put_many eng (cBox box) bs _ mode (env w3)) as [rc s4].
  destruct (Z.eqb rc 0); [| by unfold createError in Hrun; mred].
  unfold ret at 1 in Hrun. unfold bind at 1 in Hrun. unfold setNewIds in Hrun.
  match type of Hrun with
  | context [forEach idxs ?body tt ?w4] =>
      destruct (forEach idxs body tt w4) as [[[] [e|]] w5] eqn:ES; [done|]
  end.
  unfold ret in Hrun. injection Hrun as <- <-.
  rewrite H2 in ES. subst reads. unfold readIds in ES.
  assert (length objs = (end_ - start)%nat) as Hobjs.
  { subst objs. rewrite length_take, length_drop. lia. }
  apply setNewIds_trace in ES; [| rewrite length_map, Hobjs; lia].
  rewrite length_map, Hobjs in ES. fold objs in ES.
  rewrite lookup_total_segment in ES by lia.
  cbn [trace] in ES. fold (readIds box objs (env w)) in *.
  exists evs_enc, bs. rewrite ES, Et3, EI, Ht1, <- !app_assoc, drop_app_length.
  subst mode. unfold chunkMode. fold ids. done.
Qed.


Lemma filter_GetId_none (p : Event Any -> bool) (objs : list Any) :
  (forall o, p (EvGetId o) = false) -> List.filter p (map EvGetId objs) = [].
Proof. intros Hp. induction objs as [|o objs IH]; cbn; [done|]. by rewrite Hp. Qed.

Lemma filter_writeBacks_none (p : Event Any -> bool) (objs : list Any) (reads ids : list N) :
  (forall o i, p (EvSetId o i) = false) -> List.filter p (writeBacks objs reads ids) = [].
Proof.
  intros Hp. revert reads ids.
  induction objs as [|o objs IH]; intros [|r reads] [|i ids]; cbn; try done.
  destruct (0 <? r); cbn; [done|]. by rewrite Hp.
Qed.

Lemma filter_writeBacks_all (objs : list Any) (reads ids : list N) :
  List.filter is_set_id (writeBacks objs reads ids) = writeBacks objs reads ids.
Proof.
  revert reads ids. induction objs as [|o objs IH]; intros [|r reads] [|i ids]; cbn; try done.
  destruct (0 <? r); cbn; [done|]. by rewrite IH.
Qed.

Lemma filter_encode_phase_none (p : Event Any -> bool) (evs : list (Event Any)) :
  (forall o i, p (EvPutRelated o i) = false) -> (forall o i, p (EvFlatten o i) = false) ->
  p EvPoolGet = false -> p EvPoolPut = false ->
  Forall (fun e => is_encode_phase e = true) evs -> List.filter p evs = [].
Proof.
  intros H1 H2 H3 H4. apply filter_nil_impl. intros e He. by destruct e.
Qed.

Lemma filter_alloc_block (p : Event Any -> bool) (c : N) (n : nat) :
  (forall c k, p (EvIdsForPut c k) = false) ->
  List.filter p match n with O => [] | _ => [EvIdsForPut c (N.of_nat n)] end = [].
Proof. intros Hp. destruct n; cbn; [done|]. by rewrite Hp. Qed.


(** X8. A successful [putManyObjects] encodes every object of the chunk
    exactly once, in input order, under the id it returns for that object;
    for an entity with relations the relation fan-out of each object runs
    under the same id. *)
Theorem putManyObjects_encodes_under_returned_ids (box : Box St Any Builder)
  (objects : list Any) (outIds out' : list N) (start end_ : nat)
  (w w' : World St Any Builder) :
  putManyObjects box objects outIds start end_ w = ((out', None), w') ->
  (start <= end_)%nat -> (end_ <= length objects)%nat -> length outIds = length objects ->
  let objs := take (end_ - start) (drop start objects) in
  let ids := take (end_ - start) (drop start out') in
  let evs := events_of (putManyObjects box objects outIds start end_) w in
  List.filter is_encode evs = zip_with EvFlatten objs ids /\
  List.filter is_put_related evs =
    (if hasRelations box then zip_with EvPutRelated objs ids else []).
Proof.
  intros Hrun Hse Hend Hlen objs ids evs.
  destruct (putManyObjects_trace box objects outIds out' start end_ w w' Hrun Hse Hend Hlen)
    as (evs_enc & data & Hevs & _ & Hfl & Hrel & _).
  subst evs. rewrite Hevs. fold objs ids. rewrite !List.filter_app.
  rewrite (filter_GetId_none is_encode), (filter_GetId_none is_put_related) by done.
  rewrite (filter_alloc_block is_encode), (filter_alloc_block is_put_related) by done.
  rewrite (filter_writeBacks_none is_encode), (filter_writeBacks_none is_put_related) by done.
  cbn [app List.filter is_encode is_put_related]. by rewrite ?app_nil_r.
Qed.

(** X9. A successful [putManyObjects] writes an id back onto exactly the
    objects of the chunk that had none, in input order, each the id returned
    for it, and does so after the bulk write. *)
Theorem putManyObjects_writes_new_ids_back (box : Box St Any Builder)
  (objects : list Any) (outIds out' : list N) (start end_ : nat)
  (w w' : World St Any Builder) :
  putManyObjects box objects outIds start end_ w = ((out', None), w') ->
  (start <= end_)%nat -> (end_ <= length objects)%nat -> length outIds = length objects ->
  let objs := take (end_ - start) (drop start objects) in
  let reads := readIds box objs (env w) in
  let ids := take (end_ - start) (drop start out') in
  let evs := events_of (putManyObjects box objects outIds start end_) w in
  List.filter is_set_id evs = writeBacks objs reads ids /\
  exists before data mode,
    evs = before ++ [EvPutMany (cBox box) data ids mode] ++ writeBacks objs reads ids /\
    count_events is_set_id before = 0%nat.
Proof.
  intros Hrun Hse Hend Hlen objs reads ids evs.
  destruct (putManyObjects_trace box objects outIds out' start end_ w w' Hrun Hse Hend Hlen)
    as (evs_enc & data & Hevs & Fenc & _ & _ & _).
  subst evs. rewrite Hevs. fold objs reads ids. split.
  - rewrite !List.filter_app.
    rewrite (filter_GetId_none is_set_id) by done.
    rewrite (filter_alloc_block is_set_id) by done.
    rewrite (filter_encode_phase_none is_set_id evs_enc) by done.
    cbn [app List.filter is_set_id]. apply filter_writeBacks_all.
  - exists (map EvGetId objs
            ++ match newCount reads with
               | O => []
               | _ => [EvIdsForPut (cBox box) (N.of_nat (newCount reads))]
               end
            ++ evs_enc), data, (chunkMode reads).
    split; [by rewrite <- !app_assoc|].
    unfold count_events. rewrite !List.filter_app.
    rewrite (filter_GetId_none is_set_id) by done.
    rewrite (filter_alloc_block is_set_id) by done.
    by rewrite (filter_encode_phase_none is_set_id evs_enc).
Qed.

Lemma runs_collectIds (P : Event Any -> Prop) (box : Box St Any Builder)
  (objects : list Any) (start count : nat) (outIds : list N) :
  (forall o, P (EvGetId o)) ->
  runs P (fun _ => True) (collectIds box objects start count outIds).
Proof.
  intros Hp. unfold collectIds.
  eapply runs_weaken; [| apply (runs_forEach P (fun _ => True)); [done|]]; [done|].
  intros i [[out mode] idxs] _. unfold collectStep. runs_tac.
Qed.

Lemma runs_idsForPut (P : Event Any -> Prop) (box : Box St Any Builder) (count : nat) :
  (forall n, P (EvIdsForPut (cBox box) n)) -> P EvLastError ->
  runs P (fun _ => True) (idsForPut box count).
Proof. intros H1 H2. unfold idsForPut, createError. runs_tac. Qed.

Lemma runs_flattenObjects (P : Event Any -> Prop) (box : Box St Any Builder)
  (objects : list Any) (start count : nat) (outIds : list N) :
  (forall o i, P (EvPutRelated o i)) -> (forall o i, P (EvFlatten o i)) ->
  P EvPoolGet -> P EvPoolPut ->
  runs P (fun _ => True) (flattenObjects box objects start count outIds).
Proof.
  intros H1 H2 H3 H4. unfold flattenObjects.
  eapply runs_weaken; [| apply (runs_forEach P (fun _ => True)); [done|]]; [done|].
  intros i bs _. unfold flattenStep, withObjectBytes. runs_tac.
Qed.

Lemma runs_setNewIds (P : Event Any -> Prop) (box : Box St Any Builder)
  (objects : list Any) (idxs : list nat) (outIds : list N) :
  (forall o i, P (EvSetId o i)) ->
  runs P (fun _ => True) (setNewIds box objects idxs outIds).
Proof.
  intros Hp. unfold setNewIds.
  eapply runs_weaken; [| apply (runs_forEach P (fun _ => True)); [done|]]; [done|].
  intros i [] _. unfold setIdStep. runs_tac.
Qed.

Lemma runs_putManyObjects (P : Event Any -> Prop) (box : Box St Any Builder)
  (objects : list Any) (outIds : list N) (start end_ : nat) :
  (forall o, P (EvGetId o)) -> (forall n, P (EvIdsForPut (cBox box) n)) -> P EvLastError ->
  (forall o i, P (EvPutRelated o i)) -> (forall o i, P (EvFlatten o i)) ->
  P EvPoolGet -> P EvPoolPut ->
  (forall d i m, P (EvPutMany (cBox box) d i m)) -> (forall o i, P (EvSetId o i)) ->
  runs P (fun _ => True) (putManyObjects box objects outIds start end_).
Proof.
  intros H1 H2 H3 H4 H5 H6 H7 H8 H9. unfold putManyObjects. cbv zeta.
  eapply runs_bind with (Q1 := fun _ => True); [by apply runs_collectIds|].
  intros [[[out mode] idxs] [e|]] _; [by apply runs_ret|].
  eapply runs_bind with (Q1 := fun _ => True); [by apply runs_idsForPut|].
  intros [firstNewId [e|]] _; [by apply runs_ret|].
  eapply runs_bind with (Q1 := fun _ => True); [by apply runs_flattenObjects|].
  intros [bs [e|]] _; [by apply runs_ret|].
  destruct (goBytesArrayToC_error eng bs); [by apply runs_ret|].
  eapply runs_bind with (Q1 := fun _ => True); [by apply runs_cCall|].
  intros [e|] _; [by apply runs_ret|].
  eapply runs_bind with (Q1 := fun _ => True); [by apply runs_setNewIds|].
  intros [? ?] _. by apply runs_ret.
Qed.

(** X10. In every run of [putManyObjects], failed or not, ids are written
    onto objects only at the end and only after a bulk write that the
    engine accepted: a chunk that fails before or in its write leaves its
    objects as they were. *)
Theorem putManyObjects_sets_ids_only_after_write (box : Box St Any Builder)
  (objects : list Any) (outIds : list N) (start end_ : nat) (w : World St Any Builder) :
  exists before sets,
    events_of (putManyObjects box objects outIds start end_) w = before ++ sets /\
    Forall (fun e => is_set_id e = false) before /\
    Forall (fun e => is_set_id e = true) sets /\
    (sets <> [] -> exists before' data ids mode,
                     before = before' ++ [EvPutMany (cBox box) data ids mode]).
Proof.
  set (P := fun e : Event Any => is_set_id e = false).
  assert (forall evs, Forall P evs ->
            exists before sets : list (Event Any),
              evs = before ++ sets /\ Forall P before /\
              Forall (fun e => is_set_id e = true) sets /\
              (sets <> [] -> exists before' data ids mode,
                               before = before' ++ [EvPutMany (cBox box) data ids mode]))
    as Hquiet.
  { intros evs F. exists evs, []. rewrite app_nil_r. by repeat split. }
  unfold events_of, putManyObjects. cbv zeta. unfold bind at 1.
  destruct (runs_collectIds P box objects start (end_ - start) outIds ltac:(done) w)
    as (evs1 & E1 & F1 & _).
  destruct (collectIds box objects start (end_ - start) outIds w)
    as [[[[out mode] idxs] [e|]] w1]; cbn [snd] in E1 |- *.
  { unfold ret. cbn [snd]. rewrite E1, drop_app_length. by apply Hquiet. }
  unfold bind at 1.
  destruct (runs_idsForPut P box (length idxs) ltac:(done) ltac:(done) w1)
    as (evs2 & E2 & F2 & _).
  destruct (idsForPut box (length idxs) w1) as [[firstNewId [e|]] w2]; cbn [snd] in E2 |- *.
  { unfold ret. cbn [snd]. rewrite E2, E1, <- app_assoc, drop_app_length.
    apply Hquiet. by apply Forall_app. }
  unfold bind at 1.
  set (out2 := assignNewIds idxs firstNewId 0 out).
  destruct (runs_flattenObjects P box objects start (end_ - start) out2
              ltac:(done) ltac:(done) ltac:(done) ltac:(done) w2) as (evs3 & E3 & F3 & _).
  destruct (flattenObjects box objects start (end_ - start) out2 w2) as [[bs [e|]] w3];
    cbn [snd] in E3 |- *.
  { unfold ret. cbn [snd]. rewrite E3, E2, E1, <- !app_assoc, drop_app_length.
    apply Hquiet. by repeat apply Forall_app_2. }
  destruct (goBytesArrayToC_error eng bs).
  { unfold ret. cbn [snd]. rewrite E3, E2, E1, <- !app_assoc, drop_app_length.
    apply Hquiet. by repeat apply Forall_app_2. }
  unfold bind at 1, cCall at 1, bind at 1, call at 1.
  set (idsArray := take (end_ - start) (drop start out2)).
  destruct (obx_box_put_many eng (cBox box) bs idsArray mode (env w3)) as [rc s4].
  destruct (Z.eqb rc 0).
  - unfold ret at 1. unfold bind at 1.
    match goal with
    | |- context [setNewIds box objects idxs out2 ?w4] =>
        destruct (runs_setNewIds (fun e => is_set_id e = true) box objects idxs out2
                    ltac:(done) w4) as (evs5 & E5 & F5 & _);
        destruct (setNewIds box objects idxs out2 w4) as [[[] err] w5]
    end.
    cbn [snd trace] in E5 |- *. unfold ret. cbn [snd].
    rewrite E5, E3, E2, E1, <- !app_assoc, drop_app_length.
    exists (evs1 ++ evs2 ++ evs3 ++ [EvPutMany (cBox box) bs idsArray mode]), evs5.
    split; [by rewrite <- !app_assoc|].
    split; [repeat apply Forall_app_2; try done; by repeat constructor|].
    split; [done|].
    intros _. exists (evs1 ++ evs2 ++ evs3), bs, idsArray, mode. by rewrite <- !app_assoc.
  - unfold createError. mred. rewrite E3, E2, E1, <- !app_assoc, drop_app_length.
    apply Hquiet. repeat apply Forall_app_2; try done; by repeat constructor.
Qed.


(** ** Bulk put: the transaction and the chunk limit *)

(** The log of a transaction: the begin, the calls of the closure, the
    calls that end it.  Only a write transaction is ever committed. *)
Lemma runInTxn_trace {A} (P : Event Any -> Prop) (write : bool) (dflt : A)
  (fn : M St Any Builder (A * error)) (w : World St Any Builder) :
  runs P (fun _ => True) fn ->
  exists inner tail,
    events_of (runInTxn write dflt fn) w = EvTxnBegin write :: inner ++ tail /\
    Forall P inner /\
    Forall (fun e => is_txn_tail e = true /\ (e = EvTxnSuccess -> write = true)) tail.
Proof.
  intros Hfn. unfold events_of, runInTxn. mred.
  destruct (obx_txn_begin eng write (env w)) as [[] s1]; mred.
  - match goal with
    | |- context [fn ?w1] =>
        destruct (Hfn w1) as (evs & E & F & _); destruct (fn w1) as [[a err] w2]
    end.
    cbn [fst snd trace] in E. mred.
    destruct write, err as [e|]; mred.
    all: repeat (case_match; mred); simplify_eq.
    all: cbn [trace]; rewrite E, <- ?app_assoc, drop_app_length; cbn [app].
    all: exists evs; eexists; (split; [reflexivity|]); split; [done|].
    all: repeat (constructor; [split; [done | by intros [=]] |]); constructor.
  - exists [], [EvLastError]. rewrite <- app_assoc, drop_app_length.
    repeat split; try done. by repeat constructor.
Qed.

Lemma runs_putChunks (P : Event Any -> Prop) (box : Box St Any Builder)
  (objects : list Any) (count : nat) (ids : list N) :
  (forall o, P (EvGetId o)) -> (forall n, P (EvIdsForPut (cBox box) n)) -> P EvLastError ->
  (forall o i, P (EvPutRelated o i)) -> (forall o i, P (EvFlatten o i)) ->
  P EvPoolGet -> P EvPoolPut ->
  (forall d i m, P (EvPutMany (cBox box) d i m)) -> (forall o i, P (EvSetId o i)) ->
  runs P (fun _ => True) (putChunks box objects count ids).
Proof.
  intros H1 H2 H3 H4 H5 H6 H7 H8 H9. unfold putChunks. cbv zeta.
  eapply runs_weaken; [| apply (runs_forEach P (fun _ => True)); [done|]]; [done|].
  intros c ids' _. unfold putChunk. cbv zeta.
  eapply runs_weaken; [| by apply runs_putManyObjects]. done.
Qed.

Lemma runs_putEach_no_txn (box : Box St Any Builder) (objects : list Any) (count : nat)
  (ids : list N) :
  runs (fun e => is_txn_bracket e = false) (fun _ => True) (putEach box objects count ids).
Proof.
  unfold putEach.
  eapply runs_weaken; [| apply (runs_forEach _ (fun _ => True)); [done|]]; [done|].
  intros i ids' _. unfold putEachStep.
  destruct (slice_Index objects i) as [o|p]; [| by apply runs_ret].
  eapply runs_bind with (Q1 := fun _ => True).
  - apply runs_put_no_txn. by rewrite andb_false_r.
  - intros [id [e|]] _; by apply runs_ret.
Qed.

(** X11. [PutMany] on a nonempty slice runs in one write transaction: the
    first call begins it, and until the calls that end it nothing begins,
    commits or closes a transaction, neither a chunk nor a single put, also
    for an entity with relations. *)
Theorem PutMany_one_transaction (box : Box St Any Builder) (objects : list Any)
  (w : World St Any Builder) :
  objects <> [] ->
  exists inner tail,
    events_of (PutMany box objects) w = EvTxnBegin true :: inner ++ tail /\
    Forall (fun e => is_txn_bracket e = false) inner /\
    Forall (fun e => is_txn_tail e = true) tail.
Proof.
  intros Hne. unfold events_of, PutMany. cbv zeta.
  destruct (length objects) as [|n] eqn:Hlen; [by apply nil_length_inv in Hlen|].
  rewrite <- Hlen. clear n Hlen. unfold RunInWriteTx. unfold bind at 1.
  match goal with
  | |- context [runInTxn true ?d ?fn w] =>
      assert (runs (fun e => is_txn_bracket e = false) (fun _ => True) fn) as Hfn;
      [| destruct (runInTxn_trace _ true d fn w Hfn) as (inner & tail & Hevs & Fi & Ft);
         unfold events_of in Hevs;
         destruct (runInTxn true d fn w) as [[ids [e|]] w1] ]
  end.
  { destruct (supportsResultArray eng);
      [by apply runs_putChunks | apply runs_putEach_no_txn]. }
  all: exists inner, tail; unfold ret; cbn [fst snd] in *.
  all: split; [done|]; split; [done|].
  all: eapply Forall_impl; [exact Ft|]; by intros ? [? _].
Qed.

(** X12. [PutMany] returns a nil slice of ids exactly when it returns an
    error.  For an empty input it returns an empty slice that is not nil
    and no error, without calling the engine or the binding: no transaction
    is opened. *)
Theorem PutMany_nil_ids_iff_error (box : Box St Any Builder) (objects : list Any)
  (w : World St Any Builder) :
  let r := (PutMany box objects w).1 in
  (r.1 = None <-> is_Some r.2) /\
  (objects = [] -> PutMany box objects w = ((Some [], None), w)).
Proof.
  cbv zeta. split; [| by intros ->].
  unfold PutMany. cbv zeta. destruct (length objects) as [|n].
  - unfold ret. cbn [fst snd]. split; [done | by intros [? ?]].
  - set (run := RunInWriteTx _ _). unfold bind.
    destruct (run w) as [[ids [e|]] w1]; unfold ret; cbn [fst snd].
    + split; [by eexists | done].
    + split; [done | by intros [? ?]].
Qed.


(** The limit of the engine on one reservation of ids and one bulk write. *)
Definition within_chunk_limit (e : Event Any) : Prop :=
  match e with
  | EvIdsForPut _ n => n <= N.of_nat chunkSize
  | EvPutMany _ data ids _ => (length data <= chunkSize)%nat /\ (length ids <= chunkSize)%nat
  | _ => True
  end.

Lemma runs_strengthen {A} (P : Event Any -> Prop) (Q Q' : A -> Prop)
  (m : M St Any Builder A) :
  runs P Q m -> (forall w, Q' (m w).1) -> runs P Q' m.
Proof.
  intros Hm HQ w. destruct (Hm w) as (evs & E & F & _). exists evs. auto.
Qed.

Lemma runs_put (P : Event Any -> Prop) (box : Box St Any Builder) (object : Any)
  (alreadyInTx : bool) (putMode : OBXPutMode) :
  P (EvGetId object) -> (forall i, P (EvIdForPut (cBox box) i)) ->
  P EvLockOSThread -> P EvUnlockOSThread -> P EvLastError ->
  P (EvTxnBegin true) -> P EvTxnSuccess -> P EvTxnClose ->
  (forall i, P (EvPutRelated object i)) -> (forall i, P (EvFlatten object i)) ->
  P EvPoolGet -> P EvPoolPut ->
  (forall i d, P (EvPut5 (cBox box) i d putMode)) -> (forall i, P (EvSetId object i)) ->
  runs P (fun _ => True) (put box object alreadyInTx putMode).
Proof.
  intros. unfold put, idForPut, putOne, withObjectBytes, RunInWriteTx, runInTxn, txnEnd,
    cCall, createError. runs_tac.
Qed.

(** The first loop finds at most one object without id per round. *)
Lemma collect_count (box : Box St Any Builder) (objects : list Any) (start n a : nat)
  (out : list N) (mode : OBXPutMode) (idxs : list nat) (w : World St Any Builder) :
  (length (forEach (seq a n) (collectStep box objects start) (out, mode, idxs) w).1.1.2
   <= length idxs + n)%nat.
Proof.
  revert a out mode idxs w. induction n as [|n IH]; intros a out mode idxs w; cbn [seq forEach].
  - cbn. lia.
  - unfold bind at 1. unfold collectStep at 1.
    destruct (slice_Index objects (start + a)) as [o|p]; [| cbn; lia].
    unfold bind at 1, query at 1.
    destruct (GetId (binding box) o (env w)) as [id [e|]]; [cbn; lia|].
    destruct (0 <? id); unfold ret at 1.
    + etrans; [apply IH|]. lia.
    + etrans; [apply IH|]. rewrite length_app. cbn. lia.
Qed.

(** The encoding loop keeps the number of encoded objects. *)
Lemma flattenObjects_length (box : Box St Any Builder) (objects : list Any) (start : nat)
  (outIds : list N) (l : list nat) (bs : list bytes) (w : World St Any Builder) :
  length (forEach l (flattenStep box objects start outIds) bs w).1.1 = length bs.
Proof.
  revert bs w. induction l as [|i l IH]; intros bs w; cbn [forEach]; [done|].
  unfold bind at 1.
  assert (length (flattenStep box objects start outIds i bs w).1.1 = length bs) as Hstep.
  { unfold flattenStep. destruct (slice_Index objects (start + i)) as [o|p]; [| done].
    unfold withObjectBytes, fbbPool_Get, fbbPool_Put. mred.
    repeat (case_match; mred); simplify_eq; cbn [fst]; by rewrite ?length_insert. }
  destruct (flattenStep box objects start outIds i bs w) as [[bs1 [e|]] w1];
    cbn [fst snd] in *; [done|].
  by rewrite IH.
Qed.

Lemma runs_putManyObjects_limit (box : Box St Any Builder) (objects : list Any)
  (outIds : list N) (start end_ : nat) :
  (end_ - start <= chunkSize)%nat ->
  runs within_chunk_limit (fun _ => True) (putManyObjects box objects outIds start end_).
Proof.
  intros Hsize. unfold putManyObjects. cbv zeta.
  eapply runs_bind with (Q1 := fun r => (length r.1.2 <= end_ - start)%nat).
  { eapply runs_strengthen; [by apply runs_collectIds|].
    intros w. unfold collectIds. etrans; [apply collect_count|]. cbn. lia. }
  intros [[[out mode] idxs] [e|]] Hidxs; [by apply runs_ret|]. cbn [fst snd] in Hidxs.
  eapply runs_bind with (Q1 := fun _ => True).
  { unfold idsForPut. destruct (length idxs) as [|k] eqn:Hk; [by apply runs_ret|].
    eapply runs_bind with (Q1 := fun _ => True);
      [apply runs_call; unfold within_chunk_limit; lia|].
    intros [rc cFirstID] _. destruct (Z.eqb rc 0); [by apply runs_ret|].
    unfold createError. runs_tac. }
  intros [firstNewId [e|]] _; [by apply runs_ret|].
  eapply runs_bind with (Q1 := fun r => length r.1 = (end_ - start)%nat).
  { eapply runs_strengthen; [by apply runs_flattenObjects|].
    intros w. unfold flattenObjects. by rewrite flattenObjects_length, length_replicate. }
  intros [bs [e|]] Hbs; [by apply runs_ret|]. cbn [fst] in Hbs.
  destruct (goBytesArrayToC_error eng bs); [by apply runs_ret|].
  eapply runs_bind with (Q1 := fun _ => True).
  { apply runs_cCall; [| done]. unfold within_chunk_limit. rewrite length_take. lia. }
  intros [e|] _; [by apply runs_ret|].
  eapply runs_bind with (Q1 := fun _ => True); [by apply runs_setNewIds|].
  intros [? ?] _. by apply runs_ret.
Qed.

(** X13. [PutMany] keeps to the limit of the engine in every run: no
    reservation asks for more than 10000 ids and no bulk write carries more
    than 10000 objects. *)
Theorem PutMany_respects_chunk_limit (box : Box St Any Builder) (objects : list Any)
  (w : World St Any Builder) :
  Forall within_chunk_limit (events_of (PutMany box objects) w).
Proof.
  apply (runs_events_of _ (fun _ => True)).
  unfold PutMany. cbv zeta. destruct (length objects) as [|n]; [by apply runs_ret|].
  eapply runs_bind with (Q1 := fun _ => True).
  - apply runs_runInTxn; try done.
    destruct (supportsResultArray eng).
    + unfold putChunks. cbv zeta.
      eapply runs_weaken; [| apply (runs_forEach _ (fun _ => True)); [done|]]; [done|].
      intros c ids _. unfold putChunk. cbv zeta.
      eapply runs_weaken; [| apply runs_putManyObjects_limit]; [done|].
      destruct (Nat.ltb_spec (S n) (c * chunkSize + chunkSize)); lia.
    + unfold putEach.
      eapply runs_weaken; [| apply (runs_forEach _ (fun _ => True)); [done|]]; [done|].
      intros i ids _. unfold putEachStep.
      destruct (slice_Index objects i) as [o|p]; [| by apply runs_ret].
      eapply runs_bind with (Q1 := fun _ => True); [by apply runs_put|].
      intros [id [e|]] _; by apply runs_ret.
  - intros [ids [e|]] _; by apply runs_ret.
Qed.



(** ** Bulk put: the number of engine writes *)










(** ** Bulk reads: outcomes, decode failures and what is called *)

(** The calls of a bulk read of [ids] on [box]. *)
Definition read_event (box : Box St Any Builder) (ids : list N) (e : Event Any) : Prop :=
  match e with
  | EvTxnBegin false | EvTxnClose | EvLastError
  | EvVisitorRegister | EvVisitorUnregister | EvLoad _ => True
  | EvGetMany c i | EvVisitMany c i => c = cBox box /\ i = ids
  | _ => False
  end.

Lemma runs_RunInReadTx {A} (P : Event Any -> Prop) (dflt : A)
  (fn : M St Any Builder (A * error)) :
  P (EvTxnBegin false) -> P EvTxnClose -> P EvLastError ->
  runs P (fun _ => True) fn ->
  runs P (fun _ => True) (RunInReadTx dflt fn).
Proof.
  intros Hb Hc Hl Hfn. unfold RunInReadTx, runInTxn, txnEnd, createError.
  eapply runs_bind; [by apply runs_call|]. intros [] _; [| runs_tac].
  eapply runs_bind; [exact Hfn|]. intros [a err] _.
  cbn [negb]. rewrite orb_true_r. runs_tac.
Qed.

Lemma runs_visitLoop (P : Event Any -> Prop) (box : Box St Any Builder)
  (existingOnly : bool) (buffers : list (option bytes)) (slice : Any) (err : error) :
  (forall d, P (EvLoad d)) ->
  runs P (fun _ => True) (visitLoop box existingOnly buffers slice err).
Proof.
  intros Hl. revert slice err.
  induction buffers as [|data rest IH]; intros slice err; cbn [visitLoop].
  - by apply runs_ret.
  - eapply runs_bind with (Q1 := fun _ => True).
    + unfold visitorCallback. runs_tac.
    + intros [[slice' err'] []] _; [apply IH | by apply runs_ret].
Qed.

Lemma runs_readManyObjects (box : Box St Any Builder) (existingOnly : bool) (ids : list N) :
  runs (read_event box ids) (fun _ => True) (readManyObjects box existingOnly ids).
Proof.
  unfold readManyObjects.
  eapply runs_bind with (Q1 := fun _ => True).
  - apply runs_RunInReadTx; try done. unfold cGetBytesArray, createError.
    eapply runs_bind with (Q1 := fun _ => True); [runs_tac|].
    intros [bytesArray [e|]] _; [by apply runs_ret|].
    eapply runs_bind with (Q1 := fun _ => True); [| intros [? ?] _; by apply runs_ret].
    eapply runs_weaken; [| apply (runs_forEach _ (fun _ => True)); [done|]]; [done|].
    intros bytesData slice _. unfold loadInto. runs_tac.
  - intros [slice [e|]] _; by apply runs_ret.
Qed.

Lemma runs_visitInReadTx (P : Event Any -> Prop) (box : Box St Any Builder)
  (existingOnly : bool) (ids : list N) (slice : Any) (err : error) :
  P (EvTxnBegin false) -> P EvTxnClose -> P EvLastError ->
  P (EvVisitMany (cBox box) ids) -> (forall d, P (EvLoad d)) ->
  runs P (fun _ => True) (visitInReadTx box existingOnly ids slice err).
Proof.
  intros Hb Hc Hl Hv Hd. unfold visitInReadTx.
  apply runs_RunInReadTx; try done. unfold obx_box_visit_many, createError.
  eapply runs_bind with (Q1 := fun _ => True).
  - eapply runs_bind with (Q1 := fun _ => True); [by apply runs_query|].
    intros buffers _.
    eapply runs_bind with (Q1 := fun _ => True); [by apply runs_visitLoop|].
    intros [r stopped] _. runs_tac.
  - intros [r rc] _. runs_tac.
Qed.

Lemma runs_readUsingVisitor (box : Box St Any Builder) (existingOnly : bool) (ids : list N) :
  runs (read_event box ids) (fun _ => True) (readUsingVisitor box existingOnly ids).
Proof.
  unfold readUsingVisitor.
  eapply runs_bind with (Q1 := fun _ => True); [by apply runs_call|].
  intros [visitor [e|]] _; [by apply runs_ret|]. cbv zeta.
  eapply runs_bind with (Q1 := fun _ => True); [by apply runs_visitInReadTx|].
  intros [[slice err] err2] _. runs_tac.
Qed.

(** X14. A bulk read never writes: [GetMany] and [GetManyExisting] open
    at most a read transaction, which is never committed, ask the engine
    for exactly the requested ids of this box, and apart from that only
    register a visitor and decode; no id is reserved, nothing is put or
    removed, and no id is set on an object. *)
Theorem GetMany_never_writes (box : Box St Any Builder) (ids : list N)
  (w : World St Any Builder) :
  Forall (read_event box ids) (events_of (GetMany box ids) w) /\
  Forall (read_event box ids) (events_of (GetManyExisting box ids) w).
Proof.
  split; apply (runs_events_of _ (fun _ => True)); unfold GetMany, GetManyExisting.
  all: destruct (goIdsArrayToC_error eng ids); [by apply runs_ret|].
  all: destruct (supportsResultArray eng);
    [apply runs_readManyObjects | apply runs_readUsingVisitor].
Qed.

Lemma readManyObjects_slice_xor_error (box : Box St Any Builder) (existingOnly : bool)
  (ids : list N) (w : World St Any Builder) :
  let r := (readManyObjects box existingOnly ids w).1 in
  is_Some r.1 <-> r.2 = None.
Proof.
  cbv zeta. unfold readManyObjects, RunInReadTx. set (tx := runInTxn false None _).
  unfold bind.
  destruct (tx w) as [[slice [e|]] w1] eqn:E; subst tx; unfold ret; cbn [fst snd].
  - split; [by intros [? ?] | done].
  - split; [done|]. intros _. apply runInTxn_ok in E as [w2 Hfn].
    revert Hfn. unfold bind at 1.
    destruct (cGetBytesArray box ids _) as [[bytesArray [e|]] w3]; unfold ret at 1; [done|].
    unfold bind. destruct (forEach _ _ _ _) as [[sl err] w4]. unfold ret.
    intros [= <- _]. by eexists.
Qed.

Lemma readUsingVisitor_slice_xor_error (box : Box St Any Builder) (existingOnly : bool)
  (ids : list N) (w : World St Any Builder) :
  let r := (readUsingVisitor box existingOnly ids w).1 in
  is_Some r.1 <-> r.2 = None.
Proof.
  cbv zeta. unfold readUsingVisitor. unfold bind.
  destruct (call EvVisitorRegister _ w) as [[visitor [e|]] w1]; unfold ret;
    cbn [fst snd]; [split; [by intros [? ?] | done]|].
  destruct (visitInReadTx _ _ _ _ _ _) as [[[slice err] err2] w2].
  destruct (call EvVisitorUnregister _ w2) as [[] w3].
  destruct err2 as [e2|], err as [e|]; cbn [fst snd];
    (split; [by intros [? ?] | done]) || (split; [done | by eexists]).
Qed.

(** X15. [GetMany] and [GetManyExisting] return either a slice or an
    error, never both and never neither: the slice is nil exactly when the
    error is not. *)
Theorem GetMany_slice_xor_error (box : Box St Any Builder) (ids : list N)
  (w : World St Any Builder) :
  let r := (GetMany box ids w).1 in
  let r' := (GetManyExisting box ids w).1 in
  (is_Some r.1 <-> r.2 = None) /\ (is_Some r'.1 <-> r'.2 = None).
Proof.
  cbv zeta. unfold GetMany, GetManyExisting.
  destruct (goIdsArrayToC_error eng ids);
    [unfold ret; cbn [fst snd]; by split; (split; [by intros [? ?] | done])|].
  destruct (supportsResultArray eng); split;
    apply readManyObjects_slice_xor_error || apply readUsingVisitor_slice_xor_error.
Qed.

(** While every record decodes, the decode loop goes on and logs one
    [Load] per existing record. *)
Lemma loadInto_prefix (box : Box St Any Builder) (existingOnly : bool)
  (pre : list (option bytes)) (slice : Any) (w : World St Any Builder) :
  (forall data s, data ∈ existing pre -> (Load (binding box) data s).1.2 = None) ->
  exists slice' w',
    forEach pre (loadInto box existingOnly) slice w = ((slice', None), w') /\
    trace w' = trace w ++ map EvLoad (existing pre) /\ fbbPool w' = fbbPool w.
Proof.
  revert slice w. induction pre as [|[data|] pre IH]; intros slice w Hok; cbn [forEach].
  - exists slice, w. by rewrite app_nil_r.
  - unfold bind at 1, loadInto at 1, bind at 1, call at 1.
    pose proof (Hok data (env w) ltac:(by left)) as Hd.
    destruct (Load (binding box) data (env w)) as [[object err] s1]. cbn [fst snd] in Hd.
    subst err. unfold ret at 1.
    destruct (IH (AppendToSlice (binding box) slice object)
                 (mkWorld s1 (fbbPool w) (trace w ++ [EvLoad data]))) as (sl & w' & E & T & Pl).
    { intros d s Hin. apply Hok. by right. }
    exists sl, w'. rewrite E. cbn [trace fbbPool] in T, Pl. rewrite T.
    split; [done|]. split; [| done]. unfold existing. cbn [omap map]. by rewrite <- app_assoc.
  - unfold bind at 1, loadInto at 1.
    destruct existingOnly; cbn [negb]; unfold ret at 1; apply IH; intros d s Hin; by apply Hok.
Qed.

Lemma readManyObjects_decode_failure (box : Box St Any Builder) (existingOnly : bool)
  (ids : list N) (w : World St Any Builder) (s1 s2 : St)
  (pre post : list (option bytes)) (bad : bytes) (e : GoError) :
  obx_txn_begin eng false (env w) = (true, s1) ->
  obx_box_get_many eng (cBox box) ids s1 = (Some (pre ++ Some bad :: post), s2) ->
  (forall data s, data ∈ existing pre -> (Load (binding box) data s).1.2 = None) ->
  (forall s, (Load (binding box) bad s).1.2 = Some e) ->
  (readManyObjects box existingOnly ids w).1 = (None, Some e) /\
  events_of (readManyObjects box existingOnly ids) w =
    [EvTxnBegin false; EvGetMany (cBox box) ids]
    ++ map EvLoad (existing pre ++ [bad]) ++ [EvTxnClose].
Proof.
  intros Hbegin Hget Hpre Hbad.
  assert (exists w1, readManyObjects box existingOnly ids w = ((None, Some e), w1) /\
                     trace w1 = trace w ++ [EvTxnBegin false; EvGetMany (cBox box) ids]
                                ++ map EvLoad (existing pre ++ [bad]) ++ [EvTxnClose])
    as (w1 & Hrun & Htr).
  { unfold readManyObjects, RunInReadTx, runInTxn, cGetBytesArray. mred.
    rewrite Hbegin. mred. rewrite Hget. mred.
    rewrite forEach_app. cbv zeta.
    match goal with
    | |- context [forEach pre _ ?sl ?w0] =>
        destruct (loadInto_prefix box existingOnly pre sl w0 Hpre) as (sl' & w' & E & T & _)
    end.
    rewrite E. cbn [fst snd forEach]. unfold loadInto at 1. mred.
    pose proof (Hbad (env w')) as Hb.
    destruct (Load (binding box) bad (env w')) as [[object err] s3]. cbn [fst snd] in Hb.
    subst err. mred.
    destruct (obx_txn_close eng s3) as [rc s4]. mred.
    eexists. split; [done|]. cbn [trace]. rewrite T. cbn [trace].
    by rewrite <- !app_assoc, map_app, <- app_assoc. }
  unfold events_of. rewrite Hrun. split; [done|]. cbn [snd].
  by rewrite Htr, drop_app_length.
Qed.

(** X16. With result arrays, when the engine hands back records of which
    one does not decode, [GetMany] and [GetManyExisting] fail with the
    error of the first such record and return no slice; the records before
    it are decoded, the records after it are not, and the read transaction
    is closed. *)
Theorem GetMany_stops_at_first_decode_failure (box : Box St Any Builder) (ids : list N)
  (w : World St Any Builder) (s1 s2 : St) (pre post : list (option bytes)) (bad : bytes)
  (e : GoError) :
  supportsResultArray eng = true ->
  goIdsArrayToC_error eng ids = None ->
  obx_txn_begin eng false (env w) = (true, s1) ->
  obx_box_get_many eng (cBox box) ids s1 = (Some (pre ++ Some bad :: post), s2) ->
  (forall data s, data ∈ existing pre -> (Load (binding box) data s).1.2 = None) ->
  (forall s, (Load (binding box) bad s).1.2 = Some e) ->
  let log := [EvTxnBegin false; EvGetMany (cBox box) ids]
             ++ map EvLoad (existing pre ++ [bad]) ++ [EvTxnClose] in
  (GetMany box ids w).1 = (None, Some e) /\
  events_of (GetMany box ids) w = log /\
  (GetManyExisting box ids w).1 = (None, Some e) /\
  events_of (GetManyExisting box ids) w = log.
Proof.
  intros Harr Hconv Hbegin Hget Hpre Hbad log.
  destruct (readManyObjects_decode_failure box false ids w s1 s2 pre post bad e
              Hbegin Hget Hpre Hbad) as [R1 L1].
  destruct (readManyObjects_decode_failure box true ids w s1 s2 pre post bad e
              Hbegin Hget Hpre Hbad) as [R2 L2].
  unfold events_of in *. unfold GetMany, GetManyExisting. rewrite Hconv, Harr. done.
Qed.

Lemma readUsingVisitor_run (box : Box St Any Builder) (existingOnly : bool) (ids : list N)
  (w : World St Any Builder) (visitor : N) (s0 : St) :
  dataVisitorRegister_result eng (env w) = ((visitor, None), s0) ->
  exists mid (w2 : World St Any Builder) r,
    readUsingVisitor box existingOnly ids w =
      (r, mkWorld (dataVisitorUnregister_effect eng visitor (env w2)) (fbbPool w2)
            (trace w ++ [EvVisitorRegister] ++ mid ++ [EvVisitorUnregister])) /\
    Forall (fun e => e <> EvVisitorRegister /\ e <> EvVisitorUnregister) mid.
Proof.
  intros Hreg. unfold readUsingVisitor. unfold bind at 1, call at 1. rewrite Hreg.
  cbv zeta.
  set (P := fun e : Event Any => e <> EvVisitorRegister /\ e <> EvVisitorUnregister).
  set (w0 := mkWorld s0 (fbbPool w) (trace w ++ [EvVisitorRegister])).
  set (slice := MakeSlice (binding box) defaultSliceCapacity).
  destruct (runs_visitInReadTx P box existingOnly ids slice None
              ltac:(done) ltac:(done) ltac:(done) ltac:(done) ltac:(done) w0)
    as (mid & E & F & _).
  unfold bind at 1.
  destruct (visitInReadTx box existingOnly ids slice None w0) as [[[sl err] err2] w2].
  cbn [snd] in E. unfold bind at 1, call at 1.
  exists mid, w2. subst w0. cbn [trace] in E.
  destruct err2, err; unfold ret; eexists; (split; [| done]);
    by rewrite E, <- !app_assoc.
Qed.

(** X17. Once the visitor is registered, [readUsingVisitor] unregisters
    that visitor as its last call, exactly once and whatever the read
    returned; when the registration fails it returns that error and makes
    no other call. *)
Theorem readUsingVisitor_always_unregisters (box : Box St Any Builder)
  (existingOnly : bool) (ids : list N) (w : World St Any Builder) :
  let reg := dataVisitorRegister_result eng (env w) in
  let run := readUsingVisitor box existingOnly ids in
  (forall e, reg.1.2 = Some e ->
     (run w).1 = (None, Some e) /\ events_of run w = [EvVisitorRegister]) /\
  (reg.1.2 = None ->
     exists mid s,
       events_of run w = [EvVisitorRegister] ++ mid ++ [EvVisitorUnregister] /\
       Forall (fun e => e <> EvVisitorRegister /\ e <> EvVisitorUnregister) mid /\
       env (run w).2 = dataVisitorUnregister_effect eng reg.1.1 s).
Proof.
  cbv zeta.
  destruct (dataVisitorRegister_result eng (env w)) as [[visitor [e|]] s0] eqn:Hreg;
    cbn [fst snd].
  - split; [| done]. intros e' [= <-].
    unfold events_of, readUsingVisitor, bind, call. rewrite Hreg. unfold ret.
    cbn [fst snd trace]. by rewrite drop_app_length.
  - split; [done|]. intros _.
    destruct (readUsingVisitor_run box existingOnly ids w visitor s0 Hreg)
      as (mid & w2 & r & Hrun & F).
    exists mid, (env w2). unfold events_of. rewrite Hrun. cbn [snd trace env].
    by rewrite drop_app_length.
Qed.



(** While every record decodes, the visitor goes on and logs one [Load]
    per existing record. *)
Lemma visitLoop_prefix (box : Box St Any Builder) (existingOnly : bool)
  (pre : list (option bytes)) (slice : Any) (w : World St Any Builder) :
  (forall data s, data ∈ existing pre -> (Load (binding box) data s).1.2 = None) ->
  exists slice' w',
    (forall rest, visitLoop box existingOnly (pre ++ rest) slice None w =
                  visitLoop box existingOnly rest slice' None w') /\
    trace w' = trace w ++ map EvLoad (existing pre).
Proof.
  revert slice w. induction pre as [|[data|] pre IH]; intros slice w Hok.
  - exists slice, w. by rewrite app_nil_r.
  - pose proof (Hok data (env w) ltac:(by left)) as Hd.
    destruct (Load (binding box) data (env w)) as [[object err] s1] eqn:EL.
    cbn [fst snd] in Hd. subst err.
    destruct (IH (AppendToSlice (binding box) slice object)
                 (mkWorld s1 (fbbPool w) (trace w ++ [EvLoad data]))) as (sl & w' & E & T).
    { intros d s Hin. apply Hok. by right. }
    exists sl, w'. split.
    + intros rest. rewrite <- E. cbn [app visitLoop visitorCallback]. mred.
      rewrite EL. by mred.
    + cbn [trace] in T. rewrite T. unfold existing. cbn [omap map]. by rewrite <- app_assoc.
  - destruct existingOnly.
    + destruct (IH slice w) as (sl & w' & E & T); [intros d s Hin; by apply Hok|].
      exists sl, w'. split; [| done]. intros rest. rewrite <- E.
      cbn [app visitLoop visitorCallback negb]. by mred.
    + destruct (IH (AppendToSlice (binding box) slice None) w) as (sl & w' & E & T);
        [intros d s Hin; by apply Hok|].
      exists sl, w'. split; [| done]. intros rest. rewrite <- E.
      cbn [app visitLoop visitorCallback negb]. by mred.
Qed.

Lemma readUsingVisitor_decode_failure (box : Box St Any Builder) (existingOnly : bool)
  (ids : list N) (w : World St Any Builder) (visitor : N) (s0 s1 : St)
  (pre post : list (option bytes)) (bad : bytes) (e : GoError) :
  dataVisitorRegister_result eng (env w) = ((visitor, None), s0) ->
  obx_txn_begin eng false s0 = (true, s1) ->
  obx_box_visit_many_data eng (cBox box) ids s1 = pre ++ Some bad :: post ->
  (forall data s, data ∈ existing pre -> (Load (binding box) data s).1.2 = None) ->
  (forall s, (Load (binding box) bad s).1.2 = Some e) ->
  exists e' tail w',
    readUsingVisitor box existingOnly ids w = ((None, Some e'), w') /\
    trace w' = trace w
               ++ [EvVisitorRegister; EvTxnBegin false; EvVisitMany (cBox box) ids]
               ++ map EvLoad (existing pre ++ [bad]) ++ tail /\
    Forall (fun ev => is_load ev = false) tail.
Proof.
  intros Hreg Hbegin Hdata Hpre Hbad.
  unfold readUsingVisitor, visitInReadTx, RunInReadTx, runInTxn, obx_box_visit_many. mred.
  rewrite Hreg. mred. rewrite Hbegin. mred. rewrite Hdata.
  match goal with
  | |- context [visitLoop box existingOnly _ ?sl None ?w0] =>
      destruct (visitLoop_prefix box existingOnly pre sl w0 Hpre) as (sl' & w' & E & T)
  end.
  rewrite E. cbn [visitLoop visitorCallback]. mred.
  pose proof (Hbad (env w')) as Hb.
  destruct (Load (binding box) bad (env w')) as [[object err] s3]. cbn [fst snd] in Hb.
  subst err. mred.
  destruct (obx_box_visit_many_status eng (cBox box) ids true s3) as [rc s4]. mred.
  destruct (Z.eqb rc 0); mred.
  all: match goal with
       | |- context [obx_txn_close eng ?s] => destruct (obx_txn_close eng s) as [rc2 s5]
       end; mred.
  all: try destruct (Z.eqb rc2 0); mred.
  all: eexists _, _, _; (split; [reflexivity|]); cbn [trace]; rewrite T; cbn [trace].
  all: rewrite <- !app_assoc, map_app, <- !app_assoc; cbn [app map].
  all: split; [reflexivity|]; by repeat constructor.
Qed.

(** X20. Without result arrays, when the engine hands the visitor records
    of which one does not decode, the visit stops there: the records before
    it are decoded, the records after it are not, and [GetMany] and
    [GetManyExisting] return an error and no slice. *)
Theorem GetMany_visitor_stops_at_first_decode_failure (box : Box St Any Builder)
  (ids : list N) (w : World St Any Builder) (visitor : N) (s0 s1 : St)
  (pre post : list (option bytes)) (bad : bytes) (e : GoError) :
  supportsResultArray eng = false ->
  goIdsArrayToC_error eng ids = None ->
  dataVisitorRegister_result eng (env w) = ((visitor, None), s0) ->
  obx_txn_begin eng false s0 = (true, s1) ->
  obx_box_visit_many_data eng (cBox box) ids s1 = pre ++ Some bad :: post ->
  (forall data s, data ∈ existing pre -> (Load (binding box) data s).1.2 = None) ->
  (forall s, (Load (binding box) bad s).1.2 = Some e) ->
  let decoded := map EvLoad (existing pre ++ [bad]) in
  ((GetMany box ids w).1.1 = None /\ is_Some (GetMany box ids w).1.2 /\
   List.filter is_load (events_of (GetMany box ids) w) = decoded) /\
  ((GetManyExisting box ids w).1.1 = None /\ is_Some (GetManyExisting box ids w).1.2 /\
   List.filter is_load (events_of (GetManyExisting box ids) w) = decoded).
Proof.
  intros Harr Hconv Hreg Hbegin Hdata Hpre Hbad decoded.
  assert (forall l : list bytes, List.filter is_load (map EvLoad l) = map EvLoad l) as Hloads.
  { intros l. induction l as [|d l IH]; cbn; [done | by rewrite IH]. }
  unfold events_of, GetMany, GetManyExisting. rewrite Hconv, Harr.
  split.
  - destruct (readUsingVisitor_decode_failure box false ids w visitor s0 s1 pre post bad e
                Hreg Hbegin Hdata Hpre Hbad) as (e' & tail & w' & Hrun & Htr & Ft).
    rewrite Hrun. cbn [fst snd]. split; [done|]. split; [by eexists|].
    rewrite Htr, drop_app_length, !List.filter_app, Hloads.
    by rewrite (filter_none is_load tail Ft), app_nil_r.
  - destruct (readUsingVisitor_decode_failure box true ids w visitor s0 s1 pre post bad e
                Hreg Hbegin Hdata Hpre Hbad) as (e' & tail & w' & Hrun & Htr & Ft).
    rewrite Hrun. cbn [fst snd]. split; [done|]. split; [by eexists|].
    rewrite Htr, drop_app_length, !List.filter_app, Hloads.
    by rewrite (filter_none is_load tail Ft), app_nil_r.
Qed.

(** ** Relation synchronisation: what may be removed, and when *)

(** The links of [sourceId] the engine reports in environment [s]. *)
Definition reportedLinks (relation : RelationToMany) (sourceId : N) (s : St) : list N :=
  match ObjectBox_box (relation_Target_Id relation) with
  | inl targetBox =>
      default [] (obx_box_rel_get_ids eng (cBox targetBox) (relation_Id relation)
                    sourceId s).1
  | inr _ => []
  end.

(** The calls once the removals have started: removals of links among
    [old], and the end of the transaction. *)
Definition removal_of (box : Box St Any Builder) (relation : RelationToMany)
  (sourceId : N) (old : list N) (e : Event Any) : Prop :=
  is_txn_tail e = true \/
  exists x, e = EvRelRemove (cBox box) (relation_Id relation) sourceId x /\ x ∈ old.

(** Every removal candidate is among [old]. *)
Definition candidates_in (old : list N) (m : gmap N bool) : Prop :=
  forall x, is_Some (m !! x) -> x ∈ old.

Lemma runs_forEach_elem {X S} (P : Event Any -> Prop) (I : S -> Prop) (l : list X)
  (body : X -> S -> M St Any Builder (S * error)) (s : S) :
  I s ->
  (forall x s, x ∈ l -> I s -> runs P (fun r => I r.1) (body x s)) ->
  runs P (fun r => I r.1) (forEach l body s).
Proof.
  revert s. induction l as [|x l IH]; intros s Hs Hbody; cbn [forEach].
  - by apply runs_ret.
  - eapply runs_bind; [apply Hbody; [by left | done]|].
    intros [s' [e|]] Hs'; cbn [fst] in Hs'.
    + by apply runs_ret.
    + apply IH; [done|]. intros y s0 Hy. apply Hbody. by right.
Qed.

Lemma runs_syncTargets_candidates (box targetBox : Box St Any Builder)
  (relation : RelationToMany) (sourceId : N) (targets : list Any) (old : list N)
  (m : gmap N bool) :
  candidates_in old m ->
  runs (fun e => is_rel_remove e = false) (fun r => candidates_in old r.1)
       (syncTargets box targetBox relation sourceId targets m).
Proof.
  intros Hm. unfold syncTargets. apply (runs_forEach _ (candidates_in old)); [done|].
  clear m Hm. intros rel m Hm. unfold syncStep.
  eapply runs_bind with (Q1 := fun _ => True); [by apply runs_query|].
  intros [rId [e|]] _; [by apply runs_ret|].
  eapply runs_bind with (Q1 := fun _ => True).
  { destruct (rId =? 0); [by apply runs_put | by apply runs_ret]. }
  intros [rId' [e|]] _; [by apply runs_ret|].
  destruct (map_get m rId').
  - apply runs_ret. cbn [fst]. intros x Hx. apply Hm.
    destruct Hx as [b Hx]. apply lookup_delete_Some in Hx as [_ Hx]. by eexists.
  - eapply runs_bind with (Q1 := fun _ => True); [by apply runs_cCall|].
    intros err _. by apply runs_ret.
Qed.

Lemma runs_removeLeft (box : Box St Any Builder) (relation : RelationToMany)
  (sourceId : N) (old : list N) (m : gmap N bool) :
  candidates_in old m ->
  runs (removal_of box relation sourceId old) (fun _ => True)
       (removeLeft box relation sourceId m).
Proof.
  intros Hm. unfold removeLeft.
  eapply runs_weaken; [| apply (runs_forEach_elem _ (fun _ => True)); [done|]]; [done|].
  intros rId [] Hin _. unfold removeStep, RelationRemove.
  eapply runs_bind with (Q1 := fun _ => True); [| intros ? _; by apply runs_ret].
  apply runs_cCall; [| by left]. right. exists rId. split; [done|]. apply Hm.
  apply list_elem_of_fmap in Hin as ([k b] & -> & Hin).
  apply elem_of_map_to_list in Hin. by eexists.
Qed.

(** The closure of [RelationReplace]: first the links are read and the
    targets walked, without any removal; then links are removed, all of
    them among the links the engine reported when the closure started. *)
Lemma replaceInTx_phases (box : Box St Any Builder) (relation : RelationToMany)
  (sourceId id : N) (targets : list Any) (w : World St Any Builder) :
  exists before after,
    trace (replaceInTx box relation sourceId id targets w).2 = trace w ++ before ++ after /\
    Forall (fun e => is_rel_remove e = false) before /\
    Forall (removal_of box relation sourceId (reportedLinks relation sourceId (env w))) after.
Proof.
  set (old := reportedLinks relation sourceId (env w)).
  unfold replaceInTx. unfold bind at 1.
  match goal with
  | |- context [(if negb (id =? 0) then ?a else ?b) w] =>
      set (phase1 := if negb (id =? 0) then a else b)
  end.
  assert (exists evs0, trace (phase1 w).2 = trace w ++ evs0 /\
                       Forall (fun e => is_rel_remove e = false) evs0 /\
                       ((phase1 w).1.2 = None -> candidates_in old (phase1 w).1.1))
    as (evs0 & E0 & F0 & H0).
  { subst phase1 old. unfold reportedLinks.
    destruct (negb (id =? 0)).
    - unfold RelationIds, cGetIds, createError.
      destruct (ObjectBox_box (relation_Target_Id relation)) as [targetBox | e]; mred.
      + destruct (obx_box_rel_get_ids eng (cBox targetBox) (relation_Id relation) sourceId
                    (env w)) as [[oldRelIds|] s1]; mred.
        * eexists. split; [done|]. split; [by repeat constructor|].
          intros _ x [b Hx]. rewrite markOld_lookup, lookup_empty in Hx.
          by case_bool_decide.
        * eexists. rewrite <- app_assoc. split; [done|]. split; [by repeat constructor|]. done.
      + exists []. rewrite app_nil_r. by repeat split.
    - unfold ret. cbn [fst snd]. exists []. rewrite app_nil_r.
      split; [done|]. split; [done|]. intros _ x [b Hx]. by rewrite lookup_empty in Hx. }
  destruct (phase1 w) as [[m0 [e|]] w2]; cbn [fst snd] in E0, H0.
  { unfold ret. cbn [snd]. exists evs0, []. by rewrite app_nil_r. }
  specialize (H0 eq_refl). unfold bind at 1.
  match goal with
  | |- context [(if (0 <? length targets)%nat then ?a else ?b) w2] =>
      set (phase2 := if (0 <? length targets)%nat then a else b)
  end.
  assert (runs (fun e => is_rel_remove e = false) (fun r => candidates_in old r.1) phase2)
    as Hphase2.
  { subst phase2. destruct (0 <? length targets)%nat; [| by apply runs_ret].
    destruct (ObjectBox_box (relation_Target_Id relation)) as [targetBox | e];
      [| by apply runs_ret].
    by apply runs_syncTargets_candidates. }
  destruct (Hphase2 w2) as (evs1 & E1 & F1 & H1).
  destruct (phase2 w2) as [[m1 [e|]] w3]; cbn [fst snd] in E1, H1.
  { unfold ret. cbn [snd]. exists (evs0 ++ evs1), [].
    rewrite app_nil_r, E1, E0, <- app_assoc. split; [done|]. split; [| done].
    by apply Forall_app. }
  destruct (runs_removeLeft box relation sourceId old m1 H1 w3) as (evs2 & E2 & F2 & _).
  exists (evs0 ++ evs1), evs2. rewrite E2, E1, E0, <- !app_assoc.
  split; [done|]. split; [by apply Forall_app | done].
Qed.

(** X18. Whatever the targets and whatever fails, [RelationReplace]
    removes links only at the end, after every link it creates and every
    target it puts, and only links of [sourceId] that the engine reported
    when the transaction had begun. *)
Theorem RelationReplace_removes_only_reported_links (box : Box St Any Builder)
  (relation : RelationToMany) (sourceId : N) (sourceObject : Any)
  (targetObjects : option (list Any)) (w : World St Any Builder) :
  let old := reportedLinks relation sourceId (obx_txn_begin eng true (env w)).2 in
  exists before after,
    events_of (RelationReplace box relation sourceId sourceObject targetObjects) w =
      before ++ after /\
    Forall (fun e => is_rel_remove e = false) before /\
    Forall (removal_of box relation sourceId old) after.
Proof.
  cbv zeta. unfold events_of, RelationReplace. unfold bind at 1, query at 1.
  destruct (GetId (binding box) sourceObject (env w)) as [id [e|]].
  { exists [EvGetId sourceObject], []. unfold ret. cbn [snd trace].
    rewrite drop_app_length. by repeat split; repeat constructor. }
  destruct (IsNil targetObjects && negb (id =? 0)).
  { exists [EvGetId sourceObject], []. unfold ret. cbn [snd trace].
    rewrite drop_app_length. by repeat split; repeat constructor. }
  unfold RunInWriteTx, runInTxn. unfold bind at 1 2, call at 1. cbn [env fbbPool trace].
  destruct (obx_txn_begin eng true (env w)) as [[] s1]; cbn [snd].
  - set (w1 := mkWorld s1 (fbbPool w) ((trace w ++ [EvGetId sourceObject]) ++ [EvTxnBegin true])).
    destruct (replaceInTx_phases box relation sourceId id (default [] targetObjects) w1)
      as (before & after & E & Fb & Fa).
    unfold bind at 1.
    destruct (replaceInTx box relation sourceId id (default [] targetObjects) w1)
      as [[[] err] w2].
    cbn [snd env w1] in E, Fa. unfold bind at 1.
    destruct (runs_events_of (fun e => is_txn_tail e = true) (fun _ => True)
                (txnEnd true err) w2) as [E3 F3].
    { unfold txnEnd, cCall, createError. runs_tac. }
    destruct (txnEnd true err w2) as [err' w3]. cbn [snd] in E3.
    set (tail := events_of (txnEnd true err) w2) in *.
    exists ([EvGetId sourceObject; EvTxnBegin true] ++ before), (after ++ tail).
    unfold ret. cbn [snd]. rewrite E3, E. subst w1. cbn [trace].
    rewrite <- !app_assoc, drop_app_length.
    split; [done|]. split.
    + apply Forall_app. split; [by repeat constructor | done].
    + apply Forall_app. split; [done|]. eapply Forall_impl; [exact F3|]. intros ? ?. by left.
  - unfold createError. mred.
    exists [EvGetId sourceObject; EvTxnBegin true; EvLastError], [].
    rewrite <- !app_assoc, drop_app_length. by repeat split; repeat constructor.
Qed.


(** ** The encoder pool across the operations *)

Section PoolInvariant.

(** [Reset] keeps the buffer of the encoder, and so its capacity. *)
Hypothesis Reset_keeps_capacity : forall fbb, cap_Bytes fb (Reset fb fbb) = cap_Bytes fb fbb.

(** [m] leaves a bounded pool bounded. *)
Definition keeps_pool {A} (m : M St Any Builder A) : Prop :=
  forall w, pool_bounded (fbbPool w) -> pool_bounded (fbbPool (m w).2).

Lemma keeps_ret {A} (a : A) : keeps_pool (ret a).
Proof. by intros w Hw. Qed.

Lemma keeps_bind {A B} (m : M St Any Builder A) (k : A -> M St Any Builder B) :
  keeps_pool m -> (forall a, keeps_pool (k a)) -> keeps_pool (bind m k).
Proof.
  intros Hm Hk w Hw. unfold bind. specialize (Hm w Hw).
  destruct (m w) as [a w1]. by apply Hk.
Qed.

Lemma keeps_emit (e : Event Any) : keeps_pool (emit e).
Proof. by intros w Hw. Qed.

Lemma keeps_call {A} (e : Event Any) (f : St -> A * St) : keeps_pool (call e f).
Proof. intros w Hw. unfold call. by destruct (f (env w)). Qed.

Lemma keeps_query {A} (e : Event Any) (f : St -> A) : keeps_pool (query e f).
Proof. by intros w Hw. Qed.

Lemma keeps_silent {A} (f : St -> A * St) : keeps_pool (silent f).
Proof. intros w Hw. unfold silent. by destruct (f (env w)). Qed.

Lemma keeps_forEach {X S} (l : list X) (body : X -> S -> M St Any Builder (S * error))
  (s : S) :
  (forall x s, keeps_pool (body x s)) -> keeps_pool (forEach l body s).
Proof.
  intros Hbody. revert s. induction l as [|x l IH]; intros s; cbn [forEach].
  - apply keeps_ret.
  - apply keeps_bind; [apply Hbody|]. intros [s' [e|]]; [apply keeps_ret | apply IH].
Qed.

(** Proves [keeps_pool] for straight-line code that does not take an
    encoder itself. *)
Ltac keeps_tac :=
  repeat first
    [ apply keeps_ret
    | apply keeps_emit
    | apply keeps_call
    | apply keeps_query
    | apply keeps_silent
    | match goal with
      | H : forall x, keeps_pool (?f x) |- keeps_pool (?f _) => apply H
      | H : keeps_pool ?m |- keeps_pool ?m => exact H
      end
    | progress cbv beta zeta
    | apply keeps_bind; [| intros ?]
    | match goal with
      | |- forall _, keeps_pool _ => intros ?
      | |- keeps_pool (match ?x with _ => _ end) => destruct x
      | |- keeps_pool (let (_, _) := ?x in _) => destruct x
      end ].

Lemma keeps_runInTxn {A} (write : bool) (dflt : A) (fn : M St Any Builder (A * error)) :
  keeps_pool fn -> keeps_pool (runInTxn write dflt fn).
Proof. intros Hfn. unfold runInTxn, txnEnd, cCall, createError. keeps_tac. Qed.

Lemma keeps_putOne (box : Box St Any Builder) (id : N) (object : Any) (putMode : OBXPutMode) :
  keeps_pool (putOne box id object putMode).
Proof. intros w Hw. by apply putOne_pool_bounded. Qed.

Lemma keeps_put (box : Box St Any Builder) (object : Any) (alreadyInTx : bool)
  (putMode : OBXPutMode) :
  keeps_pool (put box object alreadyInTx putMode).
Proof.
  pose proof (keeps_putOne box) as HputOne.
  unfold put, idForPut, RunInWriteTx, createError.
  apply keeps_bind; [keeps_tac|]. intros [idFromObject [e|]]; [keeps_tac|].
  apply keeps_bind; [keeps_tac|]. intros [id [e|]]; [keeps_tac|].
  apply keeps_bind.
  - destruct (hasRelations box && negb alreadyInTx); [| apply HputOne].
    apply keeps_bind; [| keeps_tac]. apply keeps_runInTxn.
    apply keeps_bind; [apply HputOne | keeps_tac].
  - intros err. keeps_tac.
Qed.

Lemma keeps_putManyObjects (box : Box St Any Builder) (objects : list Any)
  (outIds : list N) (start end_ : nat) :
  keeps_pool (putManyObjects box objects outIds start end_).
Proof.
  unfold putManyObjects. cbv zeta.
  apply keeps_bind.
  { unfold collectIds. apply keeps_forEach. intros i [[out mode] idxs].
    unfold collectStep. keeps_tac. }
  intros [[[out mode] idxs] [e|]]; [keeps_tac|].
  apply keeps_bind; [unfold idsForPut, createError; keeps_tac|].
  intros [firstNewId [e|]]; [keeps_tac|].
  apply keeps_bind.
  { unfold flattenObjects. apply keeps_forEach. intros i bs w Hw.
    by apply flattenStep_pool_bounded. }
  intros [bs [e|]]; [keeps_tac|].
  destruct (goBytesArrayToC_error eng bs); [keeps_tac|].
  apply keeps_bind; [unfold cCall, createError; keeps_tac|].
  intros [e|]; [keeps_tac|].
  apply keeps_bind; [| keeps_tac].
  unfold setNewIds. apply keeps_forEach. intros i []. unfold setIdStep. keeps_tac.
Qed.

Lemma keeps_PutMany (box : Box St Any Builder) (objects : list Any) :
  keeps_pool (PutMany box objects).
Proof.
  unfold PutMany. cbv zeta. destruct (length objects) as [|n]; [keeps_tac|].
  apply keeps_bind; [| keeps_tac]. apply keeps_runInTxn.
  destruct (supportsResultArray eng).
  - unfold putChunks. cbv zeta. apply keeps_forEach. intros c ids.
    unfold putChunk. cbv zeta. apply keeps_putManyObjects.
  - unfold putEach. apply keeps_forEach. intros i ids. unfold putEachStep.
    destruct (slice_Index objects i); [| keeps_tac].
    apply keeps_bind; [apply keeps_put | keeps_tac].
Qed.

Lemma keeps_RelationReplace (box : Box St Any Builder) (relation : RelationToMany)
  (sourceId : N) (sourceObject : Any) (targetObjects : option (list Any)) :
  keeps_pool (RelationReplace box relation sourceId sourceObject targetObjects).
Proof.
  unfold RelationReplace.
  apply keeps_bind; [keeps_tac|]. intros [id [e|]]; [keeps_tac|].
  destruct (IsNil targetObjects && negb (id =? 0)); [keeps_tac|].
  apply keeps_bind; [| keeps_tac]. apply keeps_runInTxn.
  unfold replaceInTx.
  apply keeps_bind; [unfold RelationIds, cGetIds, createError; keeps_tac|].
  intros [m [e|]]; [keeps_tac|].
  apply keeps_bind.
  - destruct (0 <? length (default [] targetObjects))%nat; [| keeps_tac].
    destruct (ObjectBox_box (relation_Target_Id relation)) as [targetBox|]; [| keeps_tac].
    unfold syncTargets. apply keeps_forEach. intros rel m'. unfold syncStep.
    apply keeps_bind; [keeps_tac|]. intros [rId [e|]]; [keeps_tac|].
    apply keeps_bind.
    { destruct (rId =? 0); [apply keeps_put | keeps_tac]. }
    intros [rId' [e|]]; [keeps_tac|].
    unfold RelationPut, cCall, createError. keeps_tac.
  - intros [m' [e|]]; [keeps_tac|].
    unfold removeLeft. apply keeps_forEach. intros rId [].
    unfold removeStep, RelationRemove, cCall, createError. keeps_tac.
Qed.

(** X19. The bound on the encoder pool is an invariant of the write
    operations: after [put], [PutMany] and [RelationReplace], whatever they
    return, a pool whose encoders are all below 1 MiB is still such a pool.
    [Reset] keeps the capacity of the buffer. *)
Theorem pool_bounded_invariant (box : Box St Any Builder) (w : World St Any Builder) :
  pool_bounded (fbbPool w) ->
  (forall object alreadyInTx putMode,
     pool_bounded (fbbPool (put box object alreadyInTx putMode w).2)) /\
  (forall objects, pool_bounded (fbbPool (PutMany box objects w).2)) /\
  (forall relation sourceId sourceObject targetObjects,
     pool_bounded
       (fbbPool (RelationReplace box relation sourceId sourceObject targetObjects w).2)).
Proof.
  intros Hw. split; [| split].
  - intros. by apply keeps_put.
  - intros. by apply keeps_PutMany.
  - intros. by apply keeps_RelationReplace.
Qed.

End PoolInvariant.

End BoxGo.

(** ** A small engine and binding to run the code on *)

Module Toy.

(** Objects are addresses into a heap of id fields; [Load] yields decoded
    objects and the binding's slices are lists of them. *)
Inductive TAny :=
| TObj (addr : nat)
| TLoaded (data : bytes)
| TSlice (items : list (option TAny)).

(** A builder: the capacity of its buffer and its content. *)
Definition TBuilder : Type := N * bytes.

(** The engine store and the Go heap: the id field of each object, the
    next id of the sequence, the stored records, the target ids linked to
    the source, the answers [obx_box_id_for_put] is scripted to give first,
    and the statuses the put and visit calls return. *)
Record TSt := mkTSt {
  heap : list N;
  nextId : N;
  stored : list (N * bytes);
  links : list N;
  idScript : list N;
  putStatus : Z;
  visitStatus : Z
}.

Definition lookupStored (s : TSt) (id : N) : option bytes :=
  snd <$> List.find (fun r => r.1 =? id) (stored s).

Definition engine (arrays : bool) : Engine TSt := {|
  obx_box_id_for_put := fun _ cand s =>
    match idScript s with
    | x :: rest =>
        (x, mkTSt (heap s) (nextId s) (stored s) (links s) rest (putStatus s) (visitStatus s))
    | [] =>
        if cand =? 0
        then (nextId s, mkTSt (heap s) (nextId s + 1) (stored s) (links s) []
                              (putStatus s) (visitStatus s))
        else (cand, s)
    end;
  obx_box_ids_for_put := fun _ count s =>
    ((0%Z, nextId s),
     mkTSt (heap s) (nextId s + count) (stored s) (links s) (idScript s)
           (putStatus s) (visitStatus s));
  obx_box_put5 := fun _ id data _ s =>
    (putStatus s,
     if Z.eqb (putStatus s) 0
     then mkTSt (heap s) (nextId s) ((id, data) :: stored s) (links s) (idScript s)
                (putStatus s) (visitStatus s)
     else s);
  obx_box_put_many := fun _ data ids _ s =>
    (putStatus s,
     if Z.eqb (putStatus s) 0
     then mkTSt (heap s) (nextId s) (zip ids data ++ stored s) (links s) (idScript s)
                (putStatus s) (visitStatus s)
     else s);
  obx_box_get_many := fun _ ids s => (Some (map (lookupStored s) ids), s);
  obx_box_visit_many_data := fun _ ids s => map (lookupStored s) ids;
  obx_box_visit_many_status := fun _ _ _ s => (visitStatus s, s);
  obx_box_rel_get_ids := fun _ _ _ s => (Some (links s), s);
  obx_box_rel_put := fun _ _ _ t s =>
    (0%Z, mkTSt (heap s) (nextId s) (stored s) (links s ++ [t]) (idScript s)
                (putStatus s) (visitStatus s));
  obx_box_rel_remove := fun _ _ _ t s =>
    (0%Z, mkTSt (heap s) (nextId s) (stored s)
                (List.filter (fun x => negb (x =? t)) (links s)) (idScript s)
                (putStatus s) (visitStatus s));
  obx_txn_begin := fun _ s => (true, s);
  obx_txn_success := fun s => (0%Z, s);
  obx_txn_close := fun s => (0%Z, s);
  obx_last_error := fun _ => NativeError 10001;
  dataVisitorRegister_result := fun s => ((1, None), s);
  dataVisitorUnregister_effect := fun _ s => s;
  goIdsArrayToC_error := fun _ => None;
  goBytesArrayToC_error := fun _ => None;
  supportsResultArray := arrays
|}.

Definition flatBuffers : FlatBuffers TBuilder := {|
  NewBuilder := (256, []);
  cap_Bytes := fun b => b.1;
  Finish_EndObject := fun b => b;
  FinishedBytes := fun b => b.2;
  Reset := fun b => (b.1, [])
|}.

(** The binding: an object is encoded as its id; a record that starts
    with 255 does not decode. *)
Definition objectBinding : ObjectBinding TSt TAny TBuilder := {|
  GetId := fun o s =>
    match o with
    | TObj a => (nth a (heap s) 0, None)
    | _ => (0, Some (errors_New "not an object of this box"))
    end;
  SetId := fun o id s =>
    match o with
    | TObj a =>
        (None, mkTSt (<[a := id]> (heap s)) (nextId s) (stored s) (links s) (idScript s)
                     (putStatus s) (visitStatus s))
    | _ => (Some (errors_New "not an object of this box"), s)
    end;
  PutRelated := fun _ _ s => (None, s);
  Flatten := fun o fbb id _ => ((N.max fbb.1 8, [id]), None);
  Load := fun data s =>
    match data with
    | 255 :: _ => ((None, Some (errors_New "corrupt record")), s)
    | _ => ((Some (TLoaded data), None), s)
    end;
  MakeSlice := fun _ => TSlice [];
  AppendToSlice := fun slice o =>
    match slice with
    | TSlice items => TSlice (items ++ [o])
    | other => other
    end
|}.

Definition box : Box TSt TAny TBuilder :=
  {| cBox := 1; hasRelations := false; binding := objectBinding |}.

Definition targetBox : Box TSt TAny TBuilder :=
  {| cBox := 2; hasRelations := false; binding := objectBinding |}.

Definition ObjectBox_box (entityId : N) : Box TSt TAny TBuilder + GoError :=
  if entityId =? 2 then inl targetBox
  else if entityId =? 1 then inl box
  else inr (errors_New "no such entity").

Definition relation : RelationToMany := {| relation_Id := 3; relation_Target_Id := 2 |}.

Definition world (s : TSt) : World TSt TAny TBuilder := mkWorld s [] [].

End Toy.

(** ** The theorems at concrete inputs *)

Module Runs.
Import Toy.

(** Three objects, the second with id 7; the sequence is at 100. *)
Definition bulkStore : TSt := mkTSt [0; 7; 0] 100 [] [] [] 0 0.
Definition bulkObjects : list TAny := [TObj 0; TObj 1; TObj 2].

Lemma PutMany_ids_in_input_order_witness :
  (PutMany (engine true) flatBuffers box bulkObjects (world bulkStore)).1 =
    (Some [100; 7; 101], None) /\
  length [100; 7; 101] = length bulkObjects /\
  take chunkSize (drop (0 * chunkSize) [100; 7; 101]) = chunkIds [0; 7; 0] 100 0 /\
  (PutMany (engine false) flatBuffers box bulkObjects (world bulkStore)).1 =
    (Some [100; 7; 101], None) /\
  [100; 7; 101] !! 2%nat =
    Some (obx_box_id_for_put (engine false) 1 0
            (env (eachStart (engine false) flatBuffers box bulkObjects 2
                    (call (EvTxnBegin true) (obx_txn_begin (engine false) true)
                          (world bulkStore)).2))).1.
Proof.
  assert (PutMany (engine true) flatBuffers box bulkObjects (world bulkStore) =
          ((Some [100; 7; 101], None),
           (PutMany (engine true) flatBuffers box bulkObjects (world bulkStore)).2)) as H
    by (vm_compute; reflexivity).
  assert (PutMany (engine false) flatBuffers box bulkObjects (world bulkStore) =
          ((Some [100; 7; 101], None),
           (PutMany (engine false) flatBuffers box bulkObjects (world bulkStore)).2)) as H'
    by (vm_compute; reflexivity).
  split; [by rewrite H|].
  destruct (PutMany_ids_in_input_order (engine true) flatBuffers box bulkObjects
              [100; 7; 101] (world bulkStore) _ H) as (Hlen & Hchunks & _).
  destruct (PutMany_ids_in_input_order (engine false) flatBuffers box bulkObjects
              [100; 7; 101] (world bulkStore) _ H') as (_ & _ & Heach).
  split; [exact Hlen|].
  split; [exact (Hchunks eq_refl 0%nat ltac:(vm_compute; lia))|].
  split; [by rewrite H'|].
  exact (proj1 (Heach eq_refl 2%nat (TObj 2) eq_refl)).
Defined.

(** An engine without result arrays gives the same ids one by one. *)
Example PutMany_one_by_one :
  (PutMany (engine false) flatBuffers box bulkObjects (world bulkStore)).1 =
    (Some [100; 7; 101], None).
Proof. vm_compute. reflexivity. Qed.

(** The engine allocates id 100 and then refuses the write. *)
Definition failingStore : TSt := mkTSt [0] 100 [] [] [] 3 0.

Lemma put_failure_returns_zero_witness :
  (put (engine true) flatBuffers box (TObj 0) false cPutModePut (world failingStore)).1.2 =
    Some (NativeError 10001) /\
  nextId (env (put (engine true) flatBuffers box (TObj 0) false cPutModePut
                   (world failingStore)).2) = 101 /\
  (put (engine true) flatBuffers box (TObj 0) false cPutModePut (world failingStore)).1.1 = 0.
Proof.
  split; [by vm_compute|]. split; [by vm_compute|].
  apply (put_failure_returns_zero (engine true) flatBuffers box (TObj 0) false
           cPutModePut (world failingStore)
           (put (engine true) flatBuffers box (TObj 0) false cPutModePut
                (world failingStore)).2
           _ (Some (NativeError 10001))); [by vm_compute | reflexivity].
Defined.

Lemma Update_zero_id_fails_before_engine_witness :
  Update (engine true) flatBuffers box (TObj 0) (world failingStore) =
    (Some (errors_New msgUpdateZeroId),
     mkWorld failingStore [] [EvGetId (TObj 0)]).
Proof.
  exact (proj1 (Update_zero_id_fails_before_engine (engine true) flatBuffers box (TObj 0)
                  (world failingStore) eq_refl)).
Defined.

(** The first allocation fails, the retry returns 9. *)
Definition retryStore : TSt := mkTSt [0] 100 [] [] [0; 9] 0 0.

Lemma idForPut_retries_once_on_failure_witness :
  (idForPut (engine true) box 0 (world retryStore)).1 = (9, None) /\
  count_events is_id_for_put (events_of (idForPut (engine true) box 0) (world retryStore)) =
    2%nat.
Proof.
  destruct (idForPut_retries_once_on_failure (engine true) box 0 (world retryStore))
    as (_ & Hretry & _ & Hok).
  split.
  - apply Hok; [reflexivity | by vm_compute].
  - apply Hretry. reflexivity.
Defined.

(** A pool holding one encoder of 2 MiB: it is taken, used and dropped. *)
Definition bigPoolWorld : World TSt TAny TBuilder :=
  mkWorld failingStore [(2097152, [])] [].

(** The callback of [putOne]: the engine write. *)
Definition writeBytes (data : bytes) : M TSt TAny TBuilder (unit * error) :=
  err <- cCall (engine true) (EvPut5 1 5 data cPutModePut)
               (obx_box_put5 (engine true) 1 5 data cPutModePut) ;
  ret (tt, err).

Lemma withObjectBytes_pool_bounded_witness :
  (withObjectBytes flatBuffers box (TObj 0) 5 tt writeBytes bigPoolWorld).1.2 =
    Some (NativeError 10001) /\
  fbbPool (withObjectBytes flatBuffers box (TObj 0) 5 tt writeBytes bigPoolWorld).2 = [] /\
  fbbPool (withObjectBytes flatBuffers box (TObj 0) 5 tt writeBytes
             (world failingStore)).2 = [(256, [])].
Proof.
  assert (forall data w0, fbbPool (writeBytes data w0).2 = fbbPool w0) as Hfn.
  { intros data w0. unfold writeBytes, cCall, createError, bind, call, query, ret. cbn.
    by destruct (Z.eqb (putStatus (env w0)) 0). }
  split; [by vm_compute|]. split.
  - exact (proj1 (withObjectBytes_pool_bounded flatBuffers box (TObj 0) 5 tt
                    writeBytes bigPoolWorld (fun fbb => eq_refl) Hfn)).
  - exact (proj1 (withObjectBytes_pool_bounded flatBuffers box (TObj 0) 5 tt
                    writeBytes (world failingStore) (fun fbb => eq_refl) Hfn)).
Defined.

(** A source object without id (address 0) and a target with id 5
    (address 1); the engine holds the link 7 -> 5, and two records, the
    second of which does not decode. *)
Definition linkStore : TSt := mkTSt [0; 5] 100 [(1, [1]); (2, [255; 0])] [5] [] 0 0.

(** The same store with a source object whose id is 7, and a second target
    with id 6. *)
Definition savedStore : TSt := mkTSt [7; 5; 6] 100 [(1, [1])] [5] [] 0 0.

Lemma RelationReplace_nil_targets_guard_witness :
  RelationReplace (engine true) flatBuffers ObjectBox_box box relation 7 (TObj 0) None
    (world savedStore) =
    (Some (ErrNilTargets 3), mkWorld savedStore [] [EvGetId (TObj 0)]) /\
  (RelationReplace (engine true) flatBuffers ObjectBox_box box relation 7 (TObj 0) None
     (world linkStore)).1 = None.
Proof.
  split.
  - apply (RelationReplace_nil_targets_guard (engine true) flatBuffers ObjectBox_box box
             relation 7 (TObj 0) 7 (world savedStore) eq_refl). done.
  - destruct (RelationReplace_nil_targets_guard (engine true) flatBuffers ObjectBox_box box
                relation 7 (TObj 0) 0 (world linkStore) eq_refl) as [_ Hzero].
    destruct (Hzero eq_refl) as [_ ->]. by vm_compute.
Defined.

Lemma RelationReplace_unsaved_source_removes_nothing_witness :
  links linkStore = [5] /\
  count_events is_rel_remove
    (events_of (RelationReplace (engine true) flatBuffers ObjectBox_box box relation 7
                  (TObj 0) (Some [])) (world linkStore)) = 0%nat /\
  links (env (RelationReplace (engine true) flatBuffers ObjectBox_box box relation 7
                (TObj 0) (Some []) (world linkStore)).2) = [5].
Proof.
  split; [reflexivity|]. split; [| by vm_compute].
  apply (RelationReplace_unsaved_source_removes_nothing (engine true) flatBuffers
           ObjectBox_box box relation 7 (TObj 0) (Some []) (world linkStore) eq_refl).
Defined.




(** The engine's visit call fails while the visitor has just recorded a
    decode error. *)
Definition visitFailsStore : TSt :=
  mkTSt [0; 5] 100 [(1, [1]); (2, [255; 0])] [5] [] 0 7.

(** C2, as stated: the decode error recorded by the visitor is the error
    returned. *)
Definition decode_error_wins (ids : list N) (s : TSt) : Prop :=
  forall e,
    (visitInReadTx (engine false) box false ids (MakeSlice (binding box) defaultSliceCapacity)
       None (call EvVisitorRegister (dataVisitorRegister_result (engine false))
                  (world s)).2).1.1.2 = Some e ->
    (readUsingVisitor (engine false) box false ids (world s)).1.2 = Some e.

(** Record 2 does not decode and the visit call returns status 7: the
    caller gets the engine's error, not the decode error. *)
Lemma readUsingVisitor_transaction_error_hides_decode_error :
  ~ decode_error_wins [2] visitFailsStore.
Proof.
  intros H. specialize (H (errors_New "corrupt record") ltac:(by vm_compute)).
  vm_compute in H. discriminate.
Qed.

Lemma readUsingVisitor_transaction_error_first_witness :
  (readUsingVisitor (engine false) box false [2] (world visitFailsStore)).1 =
    (None, Some (NativeError 10001)) /\
  (readUsingVisitor (engine false) box false [2] (world linkStore)).1 =
    (None, Some (errors_New "corrupt record")).
Proof.
  split.
  - destruct (readUsingVisitor_transaction_error_first (engine false) box false [2]
                (world visitFailsStore)
                (visitInReadTx (engine false) box false [2] (TSlice []) None
                   (mkWorld visitFailsStore [] [EvVisitorRegister])).2
                1 visitFailsStore (TSlice []) (Some (errors_New "corrupt record"))
                (Some (NativeError 10001)) eq_refl ltac:(by vm_compute)) as [-> _].
    reflexivity.
  - destruct (readUsingVisitor_transaction_error_first (engine false) box false [2]
                (world linkStore)
                (visitInReadTx (engine false) box false [2] (TSlice []) None
                   (mkWorld linkStore [] [EvVisitorRegister])).2
                1 linkStore (TSlice []) (Some (errors_New "corrupt record"))
                None eq_refl ltac:(by vm_compute)) as [-> _].
    reflexivity.
Defined.

Lemma GetMany_placeholders_GetManyExisting_skips_witness :
  (GetMany (engine true) box [1; 999] (world linkStore)).1 =
    (Some (TSlice [Some (TLoaded [1]); None]), None) /\
  (GetManyExisting (engine true) box [1; 999] (world linkStore)).1 =
    (Some (TSlice [Some (TLoaded [1])]), None).
Proof.
  destruct (GetMany_placeholders_GetManyExisting_skips (engine true) box [1; 999]
              (world linkStore) [Some [1]; None] [Some (TLoaded [1])] 2%nat eq_refl)
    as (Hmany & Hexisting & _).
  - left. split; [| reflexivity]. split; [reflexivity|].
    by exists linkStore, linkStore, linkStore, linkStore.
  - reflexivity.
  - by split.
Defined.

End Runs.

(** ** Further runs: the put pipeline, bulk operations and reads *)

Module ExtraRuns.
Import Toy Runs.


(** The engine refuses an id twice. *)
Definition refusingStore : TSt := mkTSt [0] 100 [] [] [0; 0] 0 0.

Lemma put_success_id_nonzero_witness :
  (put (engine true) flatBuffers box (TObj 0) false cPutModePut (world bulkStore)).1 =
    (100, None) /\
  100 = (obx_box_id_for_put (engine true) 1 0 bulkStore).1 /\
  (put (engine true) flatBuffers box (TObj 1) false cPutModeUpdate (world bulkStore)).1 =
    (7, None) /\
  7 = (GetId objectBinding (TObj 1) bulkStore).1.
Proof.
  assert (put (engine true) flatBuffers box (TObj 0) false cPutModePut (world bulkStore) =
          ((100, None),
           (put (engine true) flatBuffers box (TObj 0) false cPutModePut (world bulkStore)).2))
    as H by (vm_compute; reflexivity).
  assert (put (engine true) flatBuffers box (TObj 1) false cPutModeUpdate (world bulkStore) =
          ((7, None),
           (put (engine true) flatBuffers box (TObj 1) false cPutModeUpdate
                (world bulkStore)).2))
    as H' by (vm_compute; reflexivity).
  split; [by rewrite H|]. split.
  - exact (proj2 (proj2 (put_success_id_nonzero (engine true) flatBuffers box (TObj 0) false
                            cPutModePut (world bulkStore) _ 100 H)) ltac:(done)).
  - split; [by rewrite H'|].
    exact (proj1 (proj2 (put_success_id_nonzero (engine true) flatBuffers box (TObj 1) false
                            cPutModeUpdate (world bulkStore) _ 7 H')) eq_refl).
Defined.

Lemma put_writes_new_id_back_witness :
  List.filter is_set_id
    (events_of (put (engine true) flatBuffers box (TObj 0) false cPutModePut)
               (world bulkStore)) = [EvSetId (TObj 0) 100] /\
  List.filter is_set_id
    (events_of (put (engine true) flatBuffers box (TObj 1) false cPutModePut)
               (world bulkStore)) = [].
Proof.
  split.
  - exact (proj1 (put_writes_new_id_back (engine true) flatBuffers box (TObj 0) false
                    cPutModePut (world bulkStore)
                    (put (engine true) flatBuffers box (TObj 0) false cPutModePut
                         (world bulkStore)).2
                    0 100 eq_refl ltac:(vm_compute; reflexivity))).
  - exact (proj1 (put_writes_new_id_back (engine true) flatBuffers box (TObj 1) false
                    cPutModePut (world bulkStore)
                    (put (engine true) flatBuffers box (TObj 1) false cPutModePut
                         (world bulkStore)).2
                    7 7 eq_refl ltac:(vm_compute; reflexivity))).
Defined.

Lemma put_update_keeps_object_id_witness :
  count_events is_id_for_put
    (events_of (put (engine true) flatBuffers box (TObj 1) false cPutModeUpdate)
               (world bulkStore)) = 0%nat /\
  count_events is_set_id
    (events_of (put (engine true) flatBuffers box (TObj 1) false cPutModeUpdate)
               (world bulkStore)) = 0%nat.
Proof.
  destruct (put_update_keeps_object_id (engine true) flatBuffers box (TObj 1) false
              (world bulkStore) 7 eq_refl) as (H1 & H2 & _).
  split; [exact H1 | exact H2].
Defined.


Lemma put_allocation_failure_witness :
  put (engine true) flatBuffers box (TObj 0) false cPutModePut (world refusingStore) =
    ((0, Some (NativeError 10001)),
     mkWorld (mkTSt [0] 100 [] [] [] 0 0) []
       [EvGetId (TObj 0); EvIdForPut 1 0; EvLockOSThread; EvIdForPut 1 0; EvLastError;
        EvUnlockOSThread]).
Proof.
  exact (put_allocation_failure (engine true) flatBuffers box (TObj 0) false cPutModePut
           (world refusingStore) 0 ltac:(done) eq_refl eq_refl eq_refl).
Defined.

Lemma putOne_writes_encoded_bytes_witness :
  List.filter is_put5
    (events_of (putOne (engine true) flatBuffers box 5 (TObj 0) cPutModePut)
               (world bulkStore)) = [EvPut5 1 5 [5] cPutModePut].
Proof.
  destruct (putOne_writes_encoded_bytes (engine true) flatBuffers box 5 (TObj 0)
              cPutModePut (world bulkStore)) as (_ & _ & H).
  destruct (H eq_refl eq_refl) as (_ & H5 & _). exact H5.
Defined.

(** The chunk of [bulkObjects] put in one call. *)
Lemma bulkChunk_run :
  putManyObjects (engine true) flatBuffers box bulkObjects [0; 0; 0] 0 3 (world bulkStore) =
    (([100; 7; 101], None),
     (putManyObjects (engine true) flatBuffers box bulkObjects [0; 0; 0] 0 3
        (world bulkStore)).2).
Proof. vm_compute. reflexivity. Qed.


Lemma putManyObjects_encodes_under_returned_ids_witness :
  List.filter is_encode
    (events_of (putManyObjects (engine true) flatBuffers box bulkObjects [0; 0; 0] 0 3)
               (world bulkStore)) =
    [EvFlatten (TObj 0) 100; EvFlatten (TObj 1) 7; EvFlatten (TObj 2) 101].
Proof.
  exact (proj1 (putManyObjects_encodes_under_returned_ids (engine true) flatBuffers box
                  bulkObjects [0; 0; 0] [100; 7; 101] 0 3 (world bulkStore) _ bulkChunk_run
                  ltac:(lia) ltac:(cbn; lia) eq_refl)).
Defined.

Lemma putManyObjects_writes_new_ids_back_witness :
  List.filter is_set_id
    (events_of (putManyObjects (engine true) flatBuffers box bulkObjects [0; 0; 0] 0 3)
               (world bulkStore)) =
    [EvSetId (TObj 0) 100; EvSetId (TObj 2) 101].
Proof.
  exact (proj1 (putManyObjects_writes_new_ids_back (engine true) flatBuffers box
                  bulkObjects [0; 0; 0] [100; 7; 101] 0 3 (world bulkStore) _ bulkChunk_run
                  ltac:(lia) ltac:(cbn; lia) eq_refl)).
Defined.

Lemma PutMany_one_transaction_witness :
  exists inner tail,
    events_of (PutMany (engine true) flatBuffers box bulkObjects) (world bulkStore) =
      EvTxnBegin true :: inner ++ tail /\
    Forall (fun e => is_txn_bracket e = false) inner /\
    Forall (fun e => is_txn_tail e = true) tail.
Proof.
  exact (PutMany_one_transaction (engine true) flatBuffers box bulkObjects
           (world bulkStore) ltac:(done)).
Defined.


(** The record of id 2 in [linkStore] does not decode; records 1 and 2 are
    asked for, then record 1 again. *)
Lemma GetMany_stops_at_first_decode_failure_witness :
  (GetMany (engine true) box [1; 2; 1] (world linkStore)).1 =
    (None, Some (errors_New "corrupt record")) /\
  events_of (GetMany (engine true) box [1; 2; 1]) (world linkStore) =
    [EvTxnBegin false; EvGetMany 1 [1; 2; 1]; EvLoad [1]; EvLoad [255; 0]; EvTxnClose].
Proof.
  destruct (GetMany_stops_at_first_decode_failure (engine true) box [1; 2; 1]
              (world linkStore) linkStore linkStore [Some [1]] [Some [1]] [255; 0]
              (errors_New "corrupt record") eq_refl eq_refl eq_refl eq_refl)
    as (H1 & H2 & _).
  - intros data s Hin. apply list_elem_of_singleton in Hin. by subst data.
  - intros s. reflexivity.
  - split; [exact H1 | exact H2].
Defined.

Lemma GetMany_visitor_stops_at_first_decode_failure_witness :
  (GetMany (engine false) box [1; 2; 1] (world linkStore)).1.1 = None /\
  List.filter is_load (events_of (GetMany (engine false) box [1; 2; 1]) (world linkStore)) =
    [EvLoad [1]; EvLoad [255; 0]].
Proof.
  destruct (GetMany_visitor_stops_at_first_decode_failure (engine false) box [1; 2; 1]
              (world linkStore) 1 linkStore linkStore [Some [1]] [Some [1]] [255; 0]
              (errors_New "corrupt record") eq_refl eq_refl eq_refl eq_refl eq_refl)
    as ((H1 & _ & H2) & _).
  - intros data s Hin. apply list_elem_of_singleton in Hin. by subst data.
  - intros s. reflexivity.
  - split; [exact H1 | exact H2].
Defined.

Lemma readUsingVisitor_always_unregisters_witness :
  exists mid s,
    events_of (readUsingVisitor (engine false) box false [1; 2; 1]) (world linkStore) =
      [EvVisitorRegister] ++ mid ++ [EvVisitorUnregister] /\
    env (readUsingVisitor (engine false) box false [1; 2; 1] (world linkStore)).2 = s.
Proof.
  destruct (readUsingVisitor_always_unregisters (engine false) box false [1; 2; 1]
              (world linkStore)) as [_ H].
  destruct (H eq_refl) as (mid & s & E & _ & Hs).
  exists mid, s. split; [exact E | exact Hs].
Defined.

Lemma pool_bounded_invariant_witness :
  pool_bounded flatBuffers
    (fbbPool (PutMany (engine true) flatBuffers box bulkObjects (world bulkStore)).2) /\
  pool_bounded flatBuffers
    (fbbPool (put (engine true) flatBuffers box (TObj 0) false cPutModePut
                  (mkWorld failingStore [(256, [])] [])).2).
Proof.
  split.
  - refine (proj1 (proj2 (pool_bounded_invariant (engine true) flatBuffers ObjectBox_box
                            (fun fbb => eq_refl) box (world bulkStore) _)) bulkObjects).
    apply Forall_nil_2.
  - refine (proj1 (pool_bounded_invariant (engine true) flatBuffers ObjectBox_box
                     (fun fbb => eq_refl) box (mkWorld failingStore [(256, [])] []) _)
              (TObj 0) false cPutModePut).
    apply Forall_cons. split; [reflexivity | apply Forall_nil_2].
Defined.

End ExtraRuns.
